(** * ikernel_remote: a shallow embedding of [ikernel_remote/kernel.py]

    The launcher drives interactive processes (pexpect sessions) and builds
    shell command lines by string formatting.  Python [str] values are
    modelled as [string], [int] as [Z], [None]-able values as [option],
    dictionaries as [gmap], and the outside world (spawned processes, the
    askpass helper, signals, the file system) as an explicit state that every
    external call reads and extends. *)

From Stdlib Require Import ZArith NArith Ascii String List Bool Lia DecimalString.
From stdpp Require Import base option gmap strings.

Import ListNotations.
Local Open Scope Z_scope.

(** ** Text primitives *)

Module Text.

(** [s.startswith(p)] *)
Fixpoint startswith (p s : string) : bool :=
  match p, s with
  | EmptyString, _ => true
  | String a p', String b s' => Ascii.eqb a b && startswith p' s'
  | String _ _, EmptyString => false
  end.

(** [n in h] for two [str] values. *)
Fixpoint contains (n h : string) : bool :=
  startswith n h ||
  match h with
  | EmptyString => false
  | String _ h' => contains n h'
  end.

(** [c in s] for a single character. *)
Fixpoint has_char (c : ascii) (s : string) : bool :=
  match s with
  | EmptyString => false
  | String d s' => Ascii.eqb c d || has_char c s'
  end.

Fixpoint last_char (s : string) : option ascii :=
  match s with
  | EmptyString => None
  | String c EmptyString => Some c
  | String _ s' => last_char s'
  end.

Fixpoint drop_last (s : string) : string :=
  match s with
  | EmptyString => EmptyString
  | String _ EmptyString => EmptyString
  | String c s' => String c (drop_last s')
  end.

Definition tail (s : string) : string :=
  match s with
  | EmptyString => EmptyString
  | String _ s' => s'
  end.

(** No occurrence of [n] can begin inside a text ending like [a] and finish
    after it: the last character of [a] is not among the non-final characters
    of [n]. *)
Definition closes (n a : string) : bool :=
  match last_char a with
  | None => true
  | Some y => negb (has_char y (drop_last n))
  end.

(** No occurrence of [n] can begin before a text starting like [b] and finish
    inside it: the first character of [b] is not among the non-initial
    characters of [n]. *)
Definition opens (n b : string) : bool :=
  match b with
  | EmptyString => true
  | String x _ => negb (has_char x (tail n))
  end.

(** [sep.join(l)] *)
Fixpoint join (sep : string) (l : list string) : string :=
  match l with
  | [] => ""
  | [x] => x
  | x :: rest => x +:+ sep +:+ join sep rest
  end.

(** [str(z)] / ['{}'.format(z)] for an [int]. *)
Definition str_int (z : Z) : string := NilEmpty.string_of_int (Z.to_int z).

Definition is_digit (c : ascii) : bool := has_char c "0123456789".

Fixpoint all_chars (P : ascii -> bool) (s : string) : bool :=
  match s with
  | EmptyString => true
  | String c s' => P c && all_chars P s'
  end.

End Text.

Import Text.

(** ** The launcher object *)

(** Values held in the connection dictionary: ports are [int], the rest [str]. *)
Inductive pyval :=
| PyInt (z : Z)
| PyStr (s : string).

#[global] Instance pyval_eq_dec : EqDecision pyval.
Proof. solve_decision. Defined.

(** ['{}'.format(v)] *)
Definition str_val (v : pyval) : string :=
  match v with
  | PyInt z => str_int z
  | PyStr s => s
  end.

(** ['{}'.format(o)] for a [str] that may be [None]. *)
Definition str_opt (o : option string) : string := default "None" o.

(** Truth value of an optional [str]: [None] and [''] are false. *)
Definition truthy (o : option string) : bool :=
  match o with
  | Some (String _ _) => true
  | _ => false
  end.

Definition pid := nat.

(** The attributes [RemoteIKernel.__init__] sets on [self]. *)
Record RemoteIKernel := mkKernel {
  sshfs_proc : option pid;
  connection_file : option string;
  _delcf : bool;
  interface : string;
  cpus : Z;
  mem : option string;
  time : option string;
  pe : string;
  kernel_cmd : string;
  host : option string;
  tunnel_hosts : option (list string);
  connection : option pid;
  workdir : option string;
  tunnel : bool;
  tunnels : gmap string pid;
  precmd : option string;
  launch_args : option string;
  cwd : string;
  uuid : option N;
  runtimedir : string;
  connection_info : gmap string pyval
}.

Definition set_sshfs_proc (v : option pid) (k : RemoteIKernel) : RemoteIKernel :=
  mkKernel v (connection_file k) (_delcf k) (interface k) (cpus k) (mem k) (time k)
    (pe k) (kernel_cmd k) (host k) (tunnel_hosts k) (connection k) (workdir k)
    (tunnel k) (tunnels k) (precmd k) (launch_args k) (cwd k) (uuid k)
    (runtimedir k) (connection_info k).

Definition set_host (v : option string) (k : RemoteIKernel) : RemoteIKernel :=
  mkKernel (sshfs_proc k) (connection_file k) (_delcf k) (interface k) (cpus k) (mem k)
    (time k) (pe k) (kernel_cmd k) v (tunnel_hosts k) (connection k) (workdir k)
    (tunnel k) (tunnels k) (precmd k) (launch_args k) (cwd k) (uuid k)
    (runtimedir k) (connection_info k).

Definition set_connection (v : option pid) (k : RemoteIKernel) : RemoteIKernel :=
  mkKernel (sshfs_proc k) (connection_file k) (_delcf k) (interface k) (cpus k) (mem k)
    (time k) (pe k) (kernel_cmd k) (host k) (tunnel_hosts k) v (workdir k)
    (tunnel k) (tunnels k) (precmd k) (launch_args k) (cwd k) (uuid k)
    (runtimedir k) (connection_info k).

Definition set_tunnel (v : bool) (k : RemoteIKernel) : RemoteIKernel :=
  mkKernel (sshfs_proc k) (connection_file k) (_delcf k) (interface k) (cpus k) (mem k)
    (time k) (pe k) (kernel_cmd k) (host k) (tunnel_hosts k) (connection k) (workdir k)
    v (tunnels k) (precmd k) (launch_args k) (cwd k) (uuid k)
    (runtimedir k) (connection_info k).

Definition set_tunnels (v : gmap string pid) (k : RemoteIKernel) : RemoteIKernel :=
  mkKernel (sshfs_proc k) (connection_file k) (_delcf k) (interface k) (cpus k) (mem k)
    (time k) (pe k) (kernel_cmd k) (host k) (tunnel_hosts k) (connection k) (workdir k)
    (tunnel k) v (precmd k) (launch_args k) (cwd k) (uuid k)
    (runtimedir k) (connection_info k).

Definition set_resources (c : Z) (m t : option string) (k : RemoteIKernel) : RemoteIKernel :=
  mkKernel (sshfs_proc k) (connection_file k) (_delcf k) (interface k) c m t
    (pe k) (kernel_cmd k) (host k) (tunnel_hosts k) (connection k) (workdir k)
    (tunnel k) (tunnels k) (precmd k) (launch_args k) (cwd k) (uuid k)
    (runtimedir k) (connection_info k).

(** ** Launch command lines *)

Definition job_name : string := "ikernel_remote".

(** [if self.launch_args: x = self.launch_args  else: x = ''] *)
Definition args_string (self : RemoteIKernel) : string :=
  if truthy (launch_args self) then default "" (launch_args self) else "".

(** [launch_local]: the shell that is spawned. *)
Definition bash (self : RemoteIKernel) : string :=
  if truthy (launch_args self)
  then "/bin/bash " +:+ default "" (launch_args self)
  else "/bin/bash".

(** [launch_ssh]: the login command, for the two random ports drawn. *)
Definition login_cmd (self : RemoteIKernel) (pr pl : Z) : string :=
  "ssh -R " +:+ str_int pr +:+ ":localhost:" +:+ str_int pl +:+
  " -o StrictHostKeyChecking=no " +:+ args_string self +:+ " " +:+ str_opt (host self).

(** [launch_pbs]: the resource list [res]. *)
Definition pbs_res (self : RemoteIKernel) : list string :=
  (if 1 <? cpus self then ["ncpus=" +:+ str_int (cpus self)] else []) ++
  match mem self with Some m => ["mem=" +:+ m] | None => [] end ++
  match time self with Some t => ["walltime=" +:+ t] | None => [] end.

(** [if res: res_string = '-l ' + ','.join(res)  else: res_string = ''] *)
Definition res_string (res : list string) : string :=
  match res with
  | [] => ""
  | _ :: _ => "-l " +:+ join "," res
  end.

Definition pbs_cmd (self : RemoteIKernel) : string :=
  "qsub -I " +:+ res_string (pbs_res self) +:+ " -N " +:+ job_name +:+ " " +:+
  args_string self.

(** [launch_sge] *)
Definition pe_string (self : RemoteIKernel) : string :=
  if 1 <? cpus self
  then "-pe " +:+ pe self +:+ " " +:+ str_int (cpus self)
  else "".

Definition sge_res (self : RemoteIKernel) : list string :=
  match mem self with Some m => ["h_vmem=" +:+ m] | None => [] end ++
  match time self with Some t => ["h_rt=" +:+ t] | None => [] end.

Definition sge_cmd (self : RemoteIKernel) : string :=
  "qlogin -now n " +:+ pe_string self +:+ " " +:+ res_string (sge_res self) +:+
  " -N " +:+ job_name +:+ " " +:+ args_string self.

(** [launch_slurm] *)
Definition slurm_opts (self : RemoteIKernel) : string :=
  (if 1 <? cpus self then " --cpus-per-task " +:+ str_int (cpus self) else "") +:+
  match mem self with Some m => " --mem " +:+ m | None => "" end +:+
  match time self with Some t => " --time " +:+ t | None => "" end.

Definition srun_cmd (self : RemoteIKernel) : string :=
  "srun" +:+ slurm_opts self +:+ " -J " +:+ job_name +:+ " " +:+ args_string self +:+
  " -v -u bash -i".

(** *** What counts as a resource flag

    For each queueing interface, the option name the scheduler recognises
    and the full text [launch_*] writes for it. *)

Inductive resource := Cpu | Memory | Walltime.

Definition marker (iface : string) (r : resource) : string :=
  if String.eqb iface "pbs" then
    match r with Cpu => "ncpus=" | Memory => "mem=" | Walltime => "walltime=" end
  else if String.eqb iface "sge" then
    match r with Cpu => "-pe" | Memory => "h_vmem=" | Walltime => "h_rt=" end
  else
    match r with Cpu => "--cpus-per-task" | Memory => "--mem" | Walltime => "--time" end.

(** The text between the option name and its value. *)
Definition flag_value (iface : string) (r : resource) (self : RemoteIKernel) : string :=
  let sp := if String.eqb iface "slurm" then " " else "" in
  match r with
  | Cpu =>
      if String.eqb iface "sge"
      then " " +:+ pe self +:+ " " +:+ str_int (cpus self)
      else sp +:+ str_int (cpus self)
  | Memory => match mem self with Some m => sp +:+ m | None => "" end
  | Walltime => match time self with Some t => sp +:+ t | None => "" end
  end.

Definition flag (iface : string) (r : resource) (self : RemoteIKernel) : string :=
  marker iface r +:+ flag_value iface r self.

(** Whether the request asks for the resource. *)
Definition requested (r : resource) (self : RemoteIKernel) : bool :=
  match r with
  | Cpu => 1 <? cpus self
  | Memory => bool_decide (mem self <> None)
  | Walltime => bool_decide (time self <> None)
  end.

(** The command line each interface launches; [None] for an unknown name.
    The ssh login command also depends on the ports drawn at launch. *)
Definition launch_command (iface : string) (pr pl : Z) (self : RemoteIKernel)
  : option string :=
  if String.eqb iface "local" then Some (bash self)
  else if String.eqb iface "pbs" then Some (pbs_cmd self)
  else if String.eqb iface "sge" then Some (sge_cmd self)
  else if String.eqb iface "ssh" then Some (login_cmd self pr pl)
  else if String.eqb iface "slurm" then Some (srun_cmd self)
  else None.

(** The free-form texts the caller supplies to a queueing interface. *)
Definition user_texts (iface : string) (self : RemoteIKernel) : list string :=
  (if String.eqb iface "sge" then [pe self] else []) ++
  match mem self with Some m => [m] | None => [] end ++
  match time self with Some t => [t] | None => [] end ++
  [args_string self].

(** None of the caller's free-form texts spells an option name itself. *)
Definition unambiguous (iface : string) (self : RemoteIKernel) : bool :=
  forallb (fun r => forallb (fun t => negb (contains (marker iface r) t))
                      (user_texts iface self))
          [Cpu; Memory; Walltime].

(** ** Regular expressions

    The patterns given to [re.search] and [re.match] use literal characters,
    [.], character sets, [*] and [?] on a single character, and one capture
    group.  [match_here] is the backtracking matcher of [re]: greedy
    quantifiers, first successful path. *)

Module Re.

Inductive charset :=
| Dot                      (* [.]: any character except a newline *)
| Chr (c : ascii)          (* a literal character *)
| Among (s : string).      (* [[...]]: any character listed *)

Definition newline : ascii := "010".

Definition accepts (k : charset) (c : ascii) : bool :=
  match k with
  | Dot => negb (Ascii.eqb c newline)
  | Chr d => Ascii.eqb c d
  | Among s => has_char c s
  end.

Inductive item :=
| One (k : charset)
| Star (k : charset)       (* [k*], greedy *)
| Opt (k : charset)        (* [k?], greedy *)
| Open                     (* [(] *)
| Close.                   (* [)] *)

Definition regex := list item.

(** A match: the matched text ([group()]) and the text of the capture
    group ([group(1)]). *)
Definition found : Type := string * string.

Definition take (c : ascii) (in_group : bool) (r : option found) : option found :=
  match r with
  | Some (m, g) => Some (String c m, if in_group then String c g else g)
  | None => None
  end.

Fixpoint match_here (re : regex) (in_group : bool) : string -> option found :=
  match re with
  | [] => fun _ => Some (EmptyString, EmptyString)
  | One k :: re' => fun s =>
      match s with
      | String c s' =>
          if accepts k c then take c in_group (match_here re' in_group s') else None
      | EmptyString => None
      end
  | Opt k :: re' => fun s =>
      match s with
      | String c s' =>
          if accepts k c then
            match take c in_group (match_here re' in_group s') with
            | Some r => Some r
            | None => match_here re' in_group s
            end
          else match_here re' in_group s
      | EmptyString => match_here re' in_group s
      end
  | Star k :: re' =>
      fix star (s : string) : option found :=
        match s with
        | String c s' =>
            if accepts k c then
              match take c in_group (star s') with
              | Some r => Some r
              | None => match_here re' in_group s
              end
            else match_here re' in_group s
        | EmptyString => match_here re' in_group s
        end
  | Open :: re' => match_here re' true
  | Close :: re' => match_here re' false
  end.

(** [re.match(re, s)]: a match starting at the first character. *)
Definition match_ (re : regex) (s : string) : option found := match_here re false s.

(** [re.search(re, s)]: the leftmost match. *)
Fixpoint search (re : regex) (s : string) : option found :=
  match match_here re false s with
  | Some r => Some r
  | None =>
      match s with
      | EmptyString => None
      | String _ s' => search re s'
      end
  end.

(** A run of literal characters. *)
Fixpoint lit (s : string) : regex :=
  match s with
  | EmptyString => []
  | String c s' => One (Chr c) :: lit s'
  end.

(** [k{n}] *)
Definition times (n : nat) (k : charset) : regex := repeat (One k) n.

End Re.

(** ['Enter passphrase .*:'] *)
Definition passphrase_pattern : Re.regex :=
  Re.lit "Enter passphrase " ++ [Re.Star Re.Dot; Re.One (Re.Chr ":")].

(** ['.*@.* password:'] *)
Definition password_pattern : Re.regex :=
  [Re.Star Re.Dot; Re.One (Re.Chr "@"); Re.Star Re.Dot] ++ Re.lit " password:".

Definition hex : Re.charset := Re.Among "0123456789abcdef".

(** The part of the pattern of [get_uuid] inside the parentheses:
    [[0-9a-f]{8}-?[0-9a-f]{4}-?4[0-9a-f]{3}-?[89ab][0-9a-f]{3}-?[0-9a-f]{12}] *)
Definition uuid_group : Re.regex :=
  Re.times 8 hex ++ [Re.Opt (Re.Chr "-")] ++
  Re.times 4 hex ++ [Re.Opt (Re.Chr "-"); Re.One (Re.Chr "4")] ++
  Re.times 3 hex ++ [Re.Opt (Re.Chr "-"); Re.One (Re.Among "89ab")] ++
  Re.times 3 hex ++ [Re.Opt (Re.Chr "-")] ++
  Re.times 12 hex.

(** ['.*kernel-(...).json'] -- the dot before [json] is unescaped. *)
Definition uuid_pattern : Re.regex :=
  [Re.Star Re.Dot] ++ Re.lit "kernel-" ++ [Re.Open] ++ uuid_group ++
  [Re.Close; Re.One Re.Dot] ++ Re.lit "json".

(** ** UUIDs *)

(** Outcome of a computation that may raise. *)
Inductive exn :=
| TIMEOUT
| EOF
| KeyboardInterrupt
| KeyError (key : string)
| IndexError
| ValueError (msg : string)
| TypeError (msg : string)
| AttributeError (msg : string)
| RuntimeError (msg : string)
| OtherError (msg : string).

Inductive outcome (A : Type) :=
| Returned (a : A)
| Raised (e : exn)
| Stuck.                   (* beyond what the model describes *)

Arguments Returned {A} a.
Arguments Raised {A} e.
Arguments Stuck {A}.

Definition hex_value (c : ascii) : option N :=
  let n := N_of_ascii c in
  if ((48 <=? n) && (n <=? 57))%N then Some (n - 48)%N
  else if ((97 <=? n) && (n <=? 102))%N then Some (n - 87)%N
  else if ((65 <=? n) && (n <=? 70))%N then Some (n - 55)%N
  else None.

(** [int(s, 16)] on a run of hexadecimal digits, most significant first. *)
Fixpoint int16 (acc : N) (s : string) : option N :=
  match s with
  | EmptyString => Some acc
  | String c s' =>
      match hex_value c with
      | Some d => int16 (16 * acc + d)%N s'
      | None => None
      end
  end.

(** [s.replace('-', '')] *)
Fixpoint drop_hyphens (s : string) : string :=
  match s with
  | EmptyString => EmptyString
  | String c s' => if Ascii.eqb c "-" then drop_hyphens s' else String c (drop_hyphens s')
  end.

(** [uuid.UUID(s)], a 128-bit integer.  The library also strips [urn:],
    [uuid:] and braces; their characters are outside the alphabet of
    [uuid_group]. *)
Definition UUID (s : string) : outcome N :=
  let h := drop_hyphens s in
  if Nat.eqb (String.length h) 32 then
    match int16 0 h with
    | Some n => Returned n
    | None => Raised (ValueError "badly formed hexadecimal UUID string")
    end
  else Raised (ValueError "badly formed hexadecimal UUID string").

(** [uuid.uuid4()], from the 16 random bytes drawn: the variant and version
    bits are overwritten. *)
Definition uuid4 (random : N) : N :=
  let n := N.land random (N.ones 128) in
  let n := N.ldiff n (N.shiftl 0xc000 48) in
  let n := N.lor n (N.shiftl 0x8000 48) in
  let n := N.ldiff n (N.shiftl 0xf000 64) in
  N.lor n (N.shiftl 4 76).

Definition version (u : N) : N := N.land (N.shiftr u 76) 0xf.

(** [get_uuid(filename)]; [random] is what [os.urandom(16)] yields if asked. *)
Definition get_uuid (random : N) (filename : option string) : outcome N :=
  match filename with
  | Some name =>
      match Re.match_ uuid_pattern name with
      | Some extracted => UUID (snd extracted)
      | None => Returned (uuid4 random)
      end
  | None => Returned (uuid4 random)
  end.

Definition hex_digit (d : N) : ascii :=
  if (d <? 10)%N then ascii_of_N (48 + d) else ascii_of_N (87 + d).

(** ['%0<width>x' % n] *)
Fixpoint hex_fixed (width : nat) (n : N) : string :=
  match width with
  | O => EmptyString
  | S w => hex_fixed w (n / 16)%N +:+ String (hex_digit (n mod 16)%N) EmptyString
  end.

(** [str(u)] for a [UUID]. *)
Definition str_uuid (u : N) : string :=
  let h := hex_fixed 32 u in
  String.substring 0 8 h +:+ "-" +:+ String.substring 8 4 h +:+ "-" +:+
  String.substring 12 4 h +:+ "-" +:+ String.substring 16 4 h +:+ "-" +:+
  String.substring 20 12 h.

(** ** The outside world

    Every call that leaves the interpreter (pexpect, subprocess, time, the
    entropy sources) takes its result from a script of replies, so that a
    theorem quantified over scripts covers every behaviour of the
    environment: any call may complete, raise, or be interrupted by a signal,
    and processes may exit while a call is in progress. *)

Inductive answer :=
| Done                          (* the call completes, returning nothing of note *)
| Text (s : string)             (* [read_nonblocking], the askpass output, a token *)
| Lines (l : list string)       (* [readlines] *)
| Groups (l : list string)      (* [expect]: the groups of the match *)
| Number (z : Z)                (* [random.randint] *)
| Throws (e : exn).             (* the call raises *)

Record reply := mkReply {
  exits : list pid;             (* processes that have exited by the time the call is served *)
  ans : answer
}.

Inductive level := DEBUG | INFO | ERROR.

(** What the program did to the world, in order. *)
Inductive event :=
| Spawned (p : pid) (command : string)       (* [pexpect.spawn(command, ...)] *)
| Popened (p : pid) (argv : list string)     (* [subprocess.Popen(argv)] *)
| SentLine (p : pid) (line : string)         (* [p.sendline(line)] *)
| SentControl (p : pid) (c : string)         (* [p.sendcontrol(c)] *)
| Polled (p : pid) (is_alive : bool)         (* [p.isalive()] *)
| Asked (prompt : string)                    (* the askpass helper was run *)
| Slept (milliseconds : Z)                   (* [time.sleep] *)
| Killed (p : pid)                           (* [p.kill()] *)
| Wrote (path : string)                      (* [json.dump(..., open(path, 'w'))] *)
| Removed (path : string)                    (* [os.remove(path)] *)
| Logged (l : level) (message : string).     (* [self.log.debug/info/error] *)

(** What [json.load] makes of a file that holds JSON. *)
Inductive json :=
| JObject (d : gmap string pyval)            (* an object: a [dict] *)
| JArray                                     (* an array: a [list] *)
| JScalar (type_name : string).              (* a string, a number, [true], [false]
                                                or [null]: a [str], [int], [float],
                                                [bool] or [NoneType] *)

Record world := mkWorld {
  tape : list reply;                         (* replies still to come *)
  trace : list event;                        (* oldest first *)
  next_pid : pid;
  alive : gset pid;
  files : gmap string (option json);         (* local files: what [json.load]
                                                reads; [None] for a file that
                                                cannot be read or parsed *)
  askpass : option string;                   (* [os.environ.get('SSH_ASKPASS')] *)
  getcwd : string;                           (* [os.getcwd()] *)
  dumps : gmap string pyval -> string;       (* [json.dumps] *)
  version_ : string;                         (* [ikernel_remote.__version__] *)
  file_ : string;                            (* [__file__] *)
  locked : gset string                       (* paths [open(path, 'w')] refuses:
                                                no permission, no directory *)
}.

Definition set_tape (v : list reply) (w : world) : world :=
  mkWorld v (trace w) (next_pid w) (alive w) (files w) (askpass w) (getcwd w)
    (dumps w) (version_ w) (file_ w) (locked w).

Definition set_trace (v : list event) (w : world) : world :=
  mkWorld (tape w) v (next_pid w) (alive w) (files w) (askpass w) (getcwd w)
    (dumps w) (version_ w) (file_ w) (locked w).

Definition set_next_pid (v : pid) (w : world) : world :=
  mkWorld (tape w) (trace w) v (alive w) (files w) (askpass w) (getcwd w)
    (dumps w) (version_ w) (file_ w) (locked w).

Definition set_alive (v : gset pid) (w : world) : world :=
  mkWorld (tape w) (trace w) (next_pid w) v (files w) (askpass w) (getcwd w)
    (dumps w) (version_ w) (file_ w) (locked w).

Definition set_files (v : gmap string (option json)) (w : world) : world :=
  mkWorld (tape w) (trace w) (next_pid w) (alive w) v (askpass w) (getcwd w)
    (dumps w) (version_ w) (file_ w) (locked w).

(** The launcher object together with the world it acts on. *)
Record state := mkState {
  obj : RemoteIKernel;
  env : world
}.

Definition on_obj (f : RemoteIKernel -> RemoteIKernel) (s : state) : state :=
  mkState (f (obj s)) (env s).

Definition on_env (f : world -> world) (s : state) : state :=
  mkState (obj s) (f (env s)).

(** ** Computations: state, exceptions *)

Definition M (A : Type) : Type := state -> outcome A * state.

Definition ret {A} (a : A) : M A := fun s => (Returned a, s).

Definition bind {A B} (m : M A) (k : A -> M B) : M B :=
  fun s =>
    match m s with
    | (Returned a, s') => k a s'
    | (Raised e, s') => (Raised e, s')
    | (Stuck, s') => (Stuck, s')
    end.

Declare Scope py_scope.
Delimit Scope py_scope with py.
Notation "x <- m ;; k" := (bind m (fun x => k))
  (at level 100, m at next level, right associativity) : py_scope.
Notation "m ;; k" := (bind m (fun _ => k))
  (at level 100, right associativity) : py_scope.
Local Open Scope py_scope.

Definition raise {A} (e : exn) : M A := fun s => (Raised e, s).

Definition stuck {A} : M A := fun s => (Stuck, s).

(** A pure computation that may raise. *)
Definition lift {A} (o : outcome A) : M A := fun s => (o, s).

(** [try: m  except ...: handler]; [handler e = None] when no clause
    catches [e]. *)
Definition try_except {A} (m : M A) (handler : exn -> option (M A)) : M A :=
  fun s =>
    match m s with
    | (Raised e, s') =>
        match handler e with
        | Some h => h s'
        | None => (Raised e, s')
        end
    | r => r
    end.

(** [except Exception]: everything but [KeyboardInterrupt]. *)
Definition is_Exception (e : exn) : bool :=
  match e with
  | KeyboardInterrupt => false
  | _ => true
  end.

Definition gets {A} (f : state -> A) : M A := fun s => (Returned (f s), s).

Definition modify (f : state -> state) : M unit := fun s => (Returned tt, f s).

Definition emit (e : event) : M unit :=
  modify (on_env (fun w => set_trace (trace w ++ [e]) w)).

Definition log (l : level) (message : string) : M unit := emit (Logged l message).

(** The next reply of the environment; the exits it reports take effect. *)
Definition external : M answer :=
  fun s =>
    match tape (env s) with
    | [] => (Stuck, s)
    | r :: rest =>
        (Returned (ans r),
         on_env (fun w => set_alive (alive w ∖ list_to_set (exits r)) (set_tape rest w)) s)
    end.

(** A call that returns nothing of note. *)
Definition call (done : M unit) : M unit :=
  a <- external ;;
  match a with
  | Done => done
  | Throws e => raise e
  | _ => stuck
  end.

(** *** pexpect, subprocess, time, random, secrets *)

Definition fresh : M pid :=
  p <- gets (fun s => next_pid (env s)) ;;
  modify (on_env (fun w => set_alive ({[p]} ∪ alive w) (set_next_pid (S p) w))) ;;
  ret p.

Definition pexpect_spawn (command : string) : M pid :=
  a <- external ;;
  match a with
  | Done => p <- fresh ;; emit (Spawned p command) ;; ret p
  | Throws e => raise e
  | _ => stuck
  end.

Definition Popen (argv : list string) : M pid :=
  a <- external ;;
  match a with
  | Done => p <- fresh ;; emit (Popened p argv) ;; ret p
  | Throws e => raise e
  | _ => stuck
  end.

Definition sendline (p : pid) (line : string) : M unit :=
  call (emit (SentLine p line)).

(** A [bytes] object, as [subprocess.check_output] returns. *)
Record bytes := mkBytes { octets : string }.

(** [p.sendline(line)] for a [bytes] line.  Every [pexpect.spawn] of the
    program passes [encoding='utf-8']; the [sendline] of such a session
    computes [s + self.linesep], where the separator is a [str], before it
    writes anything. *)
Definition sendline_bytes (p : pid) (line : bytes) : M unit :=
  raise (TypeError "can't concat str to bytes").

Definition sendcontrol (p : pid) (c : string) : M unit :=
  call (emit (SentControl p c)).

Definition isalive (p : pid) : M bool :=
  a <- external ;;
  match a with
  | Done =>
      b <- gets (fun s => bool_decide (p ∈ alive (env s))) ;;
      emit (Polled p b) ;; ret b
  | Throws e => raise e
  | _ => stuck
  end.

Definition read_nonblocking (p : pid) : M string :=
  a <- external ;;
  match a with
  | Text s => ret s
  | Throws e => raise e
  | _ => stuck
  end.

Definition readlines (p : pid) : M (list string) :=
  a <- external ;;
  match a with
  | Lines l => ret l
  | Throws e => raise e
  | _ => stuck
  end.

(** [p.expect(pattern)] followed by [p.match.groups()]. *)
Definition expect (p : pid) (pattern : string) : M (list string) :=
  a <- external ;;
  match a with
  | Groups l => ret l
  | Throws e => raise e
  | _ => stuck
  end.

Definition sleep (milliseconds : Z) : M unit :=
  call (emit (Slept milliseconds)).

Definition randint (lo hi : Z) : M Z :=
  a <- external ;;
  match a with
  | Number z => if (lo <=? z) && (z <=? hi) then ret z else stuck
  | Throws e => raise e
  | _ => stuck
  end.

Definition token_urlsafe : M string :=
  a <- external ;;
  match a with
  | Text s => ret s
  | Throws e => raise e
  | _ => stuck
  end.

Definition kill (p : pid) : M unit :=
  call (modify (on_env (fun w => set_alive (alive w ∖ {[p]}) w)) ;; emit (Killed p)).

Definition wait (p : pid) : M unit := call (ret tt).

(** *** Local files *)

Definition path_exists (path : string) : M bool :=
  gets (fun s => bool_decide (is_Some (files (env s) !! path))).

(** [json.load(open(path))] *)
Definition json_load (path : string) : M json :=
  f <- gets (fun s => files (env s) !! path) ;;
  match f with
  | Some (Some v) => ret v
  | Some None => raise (ValueError "Expecting value")
  | None => raise (OtherError "No such file or directory")
  end.

(** [json.dump(d, open(path, 'w'), indent=2)]; when the file cannot be
    opened nothing is written. *)
Definition json_dump (d : gmap string pyval) (path : string) : M unit :=
  refused <- gets (fun s => bool_decide (path ∈ locked (env s))) ;;
  if refused then raise (OtherError "Permission denied")
  else
    modify (on_env (fun w => set_files (<[path := Some (JObject d)]> (files w)) w)) ;;
    emit (Wrote path).

Definition os_remove (path : string) : M unit :=
  f <- gets (fun s => files (env s) !! path) ;;
  match f with
  | Some _ =>
      modify (on_env (fun w => set_files (delete path (files w)) w)) ;;
      emit (Removed path)
  | None => raise (OtherError "No such file or directory")
  end.

(** ** More text: [strip], [split], paths, [str.format] *)

Definition is_space (c : ascii) : bool :=
  let n := N_of_ascii c in ((n =? 32) || ((9 <=? n) && (n <=? 13)))%N.

Fixpoint lstrip (s : string) : string :=
  match s with
  | String c s' => if is_space c then lstrip s' else s
  | EmptyString => EmptyString
  end.

Fixpoint rstrip (s : string) : string :=
  match s with
  | String c s' =>
      match rstrip s' with
      | EmptyString => if is_space c then EmptyString else String c EmptyString
      | r => String c r
      end
  | EmptyString => EmptyString
  end.

(** [s.strip()] *)
Definition strip (s : string) : string := rstrip (lstrip s).

Definition nonempty (s : string) : bool :=
  match s with
  | EmptyString => false
  | String _ _ => true
  end.

(** [s.split(c)] *)
Fixpoint split (c : ascii) (s : string) : list string :=
  match s with
  | EmptyString => [EmptyString]
  | String d s' =>
      if Ascii.eqb d c then EmptyString :: split c s'
      else
        match split c s' with
        | h :: t => String d h :: t
        | [] => [String d EmptyString]
        end
  end.

(** [a, b = s.split(":")] *)
Definition split_pair (s : string) : outcome (string * string) :=
  match split ":" s with
  | [a; b] => Returned (a, b)
  | [_] => Raised (ValueError "not enough values to unpack (expected 2, got 1)")
  | _ => Raised (ValueError "too many values to unpack (expected 2)")
  end.

(** [os.path.join(a, b)] *)
Definition path_join (a b : string) : string :=
  if startswith "/" b then b
  else if negb (nonempty a) ||
          match last_char a with Some c => Ascii.eqb c "/" | None => false end
       then a +:+ b
       else a +:+ "/" +:+ b.

(** [p[:p.rfind('/') + 1]] *)
Fixpoint upto_last_slash (p : string) : string :=
  match p with
  | EmptyString => EmptyString
  | String c p' =>
      match upto_last_slash p' with
      | EmptyString => if Ascii.eqb c "/" then "/" else EmptyString
      | h => String c h
      end
  end.

(** [s.rstrip('/')] *)
Fixpoint rstrip_slash (s : string) : string :=
  match s with
  | String c s' =>
      match rstrip_slash s' with
      | EmptyString => if Ascii.eqb c "/" then EmptyString else String c EmptyString
      | r => String c r
      end
  | EmptyString => EmptyString
  end.

(** [os.path.dirname(p)] *)
Definition dirname (p : string) : string :=
  let head := upto_last_slash p in
  if nonempty head && negb (all_chars (fun c => Ascii.eqb c "/") head)
  then rstrip_slash head
  else head.

Definition prepend (a : string) (r : outcome string) : outcome string :=
  match r with
  | Returned s => Returned (a +:+ s)
  | Raised e => Raised e
  | Stuck => Stuck
  end.

(** Looking a replacement field up among the keyword arguments; a field
    that is empty or a number refers to a positional argument, of which
    there are none. *)
Definition field (kw : string -> option string) (name : string) : outcome string :=
  if all_chars is_digit name then Raised IndexError
  else
    match kw name with
    | Some v => Returned v
    | None => Raised (KeyError name)
    end.

(** [template.format] with keyword arguments [kw], scanning left to right.  [name] is [Some] of the
    field name read so far while inside braces.  Conversions ([!r]), format
    specifications ([:...]) and attribute or index access are not modelled. *)
Fixpoint format_from (kw : string -> option string) (name : option string)
    (s : string) : outcome string :=
  match name, s with
  | None, EmptyString => Returned EmptyString
  | None, String c s' =>
      if Ascii.eqb c "{" then
        match s' with
        | String d s'' =>
            if Ascii.eqb d "{" then prepend "{" (format_from kw None s'')
            else format_from kw (Some EmptyString) s'
        | EmptyString => Raised (ValueError "Single '{' encountered in format string")
        end
      else if Ascii.eqb c "}" then
        match s' with
        | String d s'' =>
            if Ascii.eqb d "}" then prepend "}" (format_from kw None s'')
            else Raised (ValueError "Single '}' encountered in format string")
        | EmptyString => Raised (ValueError "Single '}' encountered in format string")
        end
      else prepend (String c EmptyString) (format_from kw None s')
  | Some n, EmptyString => Raised (ValueError "expected '}' before end of string")
  | Some n, String c s' =>
      if Ascii.eqb c "}" then
        match field kw n with
        | Returned v => prepend v (format_from kw None s')
        | r => r
        end
      else if Ascii.eqb c "{" then Raised (ValueError "unexpected '{' in field name")
      else if has_char c "!:.[" then Stuck
      else format_from kw (Some (n +:+ String c EmptyString)) s'
  end.

Definition format (template : string) (kw : string -> option string) : outcome string :=
  format_from kw None template.

(** A dictionary unpacked into keyword arguments. *)
Definition keywords (d : gmap string pyval) : string -> option string :=
  fun k => str_val <$> d !! k.

(** ** Passwords *)

(** [get_password(prompt)] *)
Definition get_password (prompt : string) : M bytes :=
  a <- gets (fun s => askpass (env s)) ;;
  match a with
  | Some _ =>
      r <- external ;;
      match r with
      | Text password => emit (Asked prompt) ;; ret (mkBytes password)
      | Throws e => raise e
      | _ => stuck
      end
  | None => raise (RuntimeError "Unable to get password, try setting SSH_ASKPASS")
  end.

(** The [while True] loop of [check_password]; every turn takes a reply, so
    [fuel] beyond the length of the script is never used up. *)
Fixpoint check_password_loop (fuel : nat) (connection : pid) : M unit :=
  match fuel with
  | O => stuck
  | S fuel' =>
      text <- try_except (t <- read_nonblocking connection ;; ret (Some t))
                (fun e => match e with TIMEOUT => Some (ret None) | _ => None end) ;;
      match text with
      | None => ret tt
      | Some text =>
          let re_passphrase := Re.search passphrase_pattern text in
          let re_password := Re.search password_pattern text in
          match re_passphrase with
          | Some m =>
              passphrase <- get_password (fst m) ;;
              sendline_bytes connection passphrase ;;
              check_password_loop fuel' connection
          | None =>
              match re_password with
              | Some m =>
                  password <- get_password (fst m) ;;
                  sendline_bytes connection password ;;
                  check_password_loop fuel' connection
              | None => ret tt
              end
          end
      end
  end.

Definition check_password (connection : pid) : M unit :=
  fun s => check_password_loop (S (length (tape (env s)))) connection s.

(** ** Methods of [RemoteIKernel] *)

Definition PORT_NAMES : list string :=
  ["hb_port"; "shell_port"; "iopub_port"; "stdin_port"; "control_port"].

Definition self : M RemoteIKernel := gets obj.

(** [_spawn(command)] *)
Definition _spawn (command : string) : M pid :=
  me <- self ;;
  match connection me with
  | None =>
      p <- pexpect_spawn command ;;
      modify (on_obj (set_connection (Some p))) ;;
      ret p
  | Some p => sendline p command ;; ret p
  end.

(** The property [tunnel_hosts_cmd]. *)
Definition tunnel_hosts_cmd (me : RemoteIKernel) : outcome (option string) :=
  match tunnel_hosts me with
  | None | Some [] => Returned None
  | Some hosts =>
      let jumps := join "," (removelast hosts) in
      let jumps := if nonempty jumps then "-J " +:+ jumps else jumps in
      let host := List.last hosts EmptyString in
      if has_char ":" host then
        match split_pair host with
        | Returned (host, port) =>
            Returned (Some ("ssh -o StrictHostKeyChecking=no " +:+ jumps +:+
                            " -p " +:+ port +:+ " " +:+ host))
        | Raised e => Raised e
        | Stuck => Stuck
        end
      else Returned (Some ("ssh -o StrictHostKeyChecking=no " +:+ jumps +:+ " " +:+ host))
  end.

(** ["-L 127.0.0.1:{{{port}}}:127.0.0.1:{{{port}}}".format(port=port)] *)
Definition port_forward (port : string) : string :=
  "-L 127.0.0.1:" +:+ "{" +:+ port +:+ "}" +:+ ":127.0.0.1:" +:+ "{" +:+ port +:+ "}".

Definition ports_str : string := join " " (map port_forward PORT_NAMES).

(** The property [tunnel_cmd]. *)
Definition tunnel_cmd : M string :=
  me <- self ;;
  let jumps :=
    match tunnel_hosts me with
    | Some (h :: hosts) => "-J " +:+ join "," (h :: hosts)
    | _ => EmptyString
    end in
  match host me with
  | None => raise (TypeError "argument of type 'NoneType' is not iterable")
  | Some h =>
      target <- (if has_char ":" h then
                   hp <- lift (split_pair h) ;;
                   ret ("ssh -o StrictHostKeyChecking=no -p " +:+ snd hp, fst hp)
                 else ret ("ssh -o StrictHostKeyChecking=no", h)) ;;
      let tunnel_cmd :=
        fst target +:+ " " +:+ jumps +:+ " -S none " +:+ ports_str +:+ " " +:+
        snd target +:+ " sleep 600" in
      log DEBUG ("Tunnel command: " +:+ tunnel_cmd) ;;
      ret tunnel_cmd
  end.

(** [launch_tunnel_hosts]; called only when [tunnel_hosts] is not [None].
    With an empty list of hosts the command is [None], which the model does
    not follow into pexpect. *)
Definition launch_tunnel_hosts : M unit :=
  me <- self ;;
  cmd <- lift (tunnel_hosts_cmd me) ;;
  log DEBUG ("Tunnel proxy command: " +:+ str_opt cmd +:+ ".") ;;
  match cmd with
  | None => stuck
  | Some cmd =>
      c <- _spawn cmd ;;
      check_password c
  end.

Definition launch_local : M unit :=
  log INFO "Launching local kernel." ;;
  me <- self ;;
  _spawn (bash me) ;;
  modify (on_obj (set_tunnel false)).

Definition launch_ssh : M unit :=
  a <- randint 0 999 ;;
  let pr := 34000 + a in
  b <- randint 0 999 ;;
  let pl := 35000 + b in
  tok <- token_urlsafe ;;
  let wd := "/tmp/ikrsshfs-" +:+ tok in
  me <- self ;;
  proc <- Popen ["ncat"; "-l"; "-p"; str_int pl; "-e";
                 "/usr/lib/openssh/sftp-server -d " +:+ cwd me] ;;
  modify (on_obj (set_sshfs_proc (Some proc))) ;;
  sleep 100 ;;
  (* [assert self.sshfs_proc.returncode is None]: [returncode] stays [None]
     until the process is polled, which has not happened. *)
  log INFO "Launching kernel over SSH." ;;
  let login := login_cmd me pr pl in
  log DEBUG ("Login command: '" +:+ login +:+ "'.") ;;
  ssh <- _spawn login ;;
  check_password ssh ;;
  sendline ssh ("mkdir -p " +:+ wd) ;;
  sendline ssh ("sshfs localhost: " +:+ wd +:+ " -o directport=" +:+ str_int pr) ;;
  sendline ssh ("cd " +:+ wd).

(** [p.match.groups()[0]] *)
Definition first_group (groups : list string) : M string :=
  match groups with
  | g :: _ => ret g
  | [] => raise IndexError
  end.

Definition launch_pbs : M unit :=
  log INFO "Launching kernel through PBS/Torque." ;;
  me <- self ;;
  let cmd := pbs_cmd me in
  log DEBUG ("PBS command: '" +:+ cmd +:+ "'.") ;;
  qsub_i <- _spawn cmd ;;
  expect qsub_i "qsub: job (.*) ready" ;;
  sendline qsub_i "echo Running on `hostname`" ;;
  groups <- expect qsub_i "Running on ([\w.-]+)" ;;
  node <- first_group groups ;;
  log INFO ("Established session on node: " +:+ node +:+ ".") ;;
  modify (on_obj (set_host (Some node))).

Definition launch_sge : M unit :=
  log INFO "Launching kernel through GridEngine." ;;
  me <- self ;;
  let cmd := sge_cmd me in
  log DEBUG ("Gridengine command: '" +:+ cmd +:+ "'.") ;;
  qlogin <- _spawn cmd ;;
  groups <- expect qlogin "Establishing builtin session to host (.*) ..." ;;
  node <- first_group groups ;;
  log INFO ("Established session on node: " +:+ node +:+ ".") ;;
  modify (on_obj (set_host (Some node))).

Definition launch_slurm : M unit :=
  log INFO "Launching kernel through SLURM." ;;
  me <- self ;;
  let cmd := srun_cmd me in
  log INFO ("SLURM command: '" +:+ cmd +:+ "'.") ;;
  srun <- _spawn cmd ;;
  groups <- expect srun "srun: Node (.*), .* tasks started" ;;
  node <- first_group groups ;;
  log INFO ("Established session on node: " +:+ node +:+ ".") ;;
  modify (on_obj (set_host (Some node))).

Definition when (b : bool) (m : M unit) : M unit := if b then m else ret tt.

(** [start_kernel]; called only when [self.connection] is not [None]. *)
Definition start_kernel : M unit :=
  me <- self ;;
  match connection me with
  | None => raise (AttributeError "'NoneType' object has no attribute 'sendline'")
  | Some conn =>
      log INFO "Established connection; starting kernel." ;;
      (if truthy (workdir me) then
         log INFO ("Remote working directory " +:+ str_opt (workdir me) +:+ ".") ;;
         sendline conn ("cd " +:+ str_opt (workdir me))
       else
         log INFO ("Current working directory " +:+ cwd me +:+ ".") ;;
         sendline conn ("cd " +:+ cwd me)) ;;
      let host_connection_file :=
        if contains "{host_connection_file}" (kernel_cmd me) then
          let kernel_name :=
            "kernel-remote-" +:+ default "None" (str_uuid <$> uuid me) +:+ ".json" in
          Some (path_join (runtimedir me) kernel_name)
        else None in
      match host_connection_file with
      | Some f =>
          sendline conn ("mkdir -p " +:+ dirname f) ;;
          sendline conn ("rm -f " +:+ f) ;;
          file_contents <- gets (fun s => dumps (env s) (connection_info me)) ;;
          sendline conn ("echo '" +:+ file_contents +:+ "' > " +:+ f)
      | None => ret tt
      end ;;
      when (truthy (precmd me)) (sendline conn (str_opt (precmd me))) ;;
      kernel_init <-
        match connection_info me !! "host_connection_file" with
        | Some _ => raise (TypeError "got multiple values for keyword argument")
        | None =>
            lift (format (kernel_cmd me)
                    (fun k => if String.eqb k "host_connection_file"
                              then Some (str_opt host_connection_file)
                              else keywords (connection_info me) k))
        end ;;
      log INFO ("Running kernel command: '" +:+ kernel_init +:+ "'.") ;;
      sendline conn kernel_init ;;
      match host_connection_file with
      | Some f => sendline conn ("rm -f " +:+ f)
      | None => ret tt
      end ;;
      sendline conn "exit" ;;
      expect conn "exit" ;;
      ret tt
  end.

(** [[str(self.connection_info[port_name]) for port_name in PORT_NAMES]] *)
Fixpoint port_values (d : gmap string pyval) (names : list string) : M (list string) :=
  match names with
  | [] => ret []
  | n :: names' =>
      match d !! n with
      | Some v => rest <- port_values d names' ;; ret (str_val v :: rest)
      | None => raise (KeyError n)
      end
  end.

Definition tunnel_connection : M unit :=
  me <- self ;;
  pre <- lift (tunnel_hosts_cmd me) ;;
  let pre := default EmptyString pre in
  bare <- pexpect_spawn
            (strip (pre +:+ " ssh -o StrictHostKeyChecking=no " +:+ str_opt (host me))) ;;
  sendline bare "exit" ;;
  template <- tunnel_cmd ;;
  tunnel_command <- lift (format template (keywords (connection_info me))) ;;
  tunnel <- pexpect_spawn tunnel_command ;;
  check_password tunnel ;;
  ports <- port_values (connection_info me) PORT_NAMES ;;
  log INFO ("Setting up tunnels on ports: " +:+ join ", " ports +:+ ".") ;;
  log DEBUG ("Tunnel command: " +:+ tunnel_command +:+ ".") ;;
  modify (on_obj (fun k => set_tunnels (<["tunnel" := tunnel]> (tunnels k)) k)).

Definition check_tunnels : M unit :=
  me <- self ;;
  match tunnels me !! "tunnel" with
  | None => raise (KeyError "tunnel")
  | Some t =>
      up <- isalive t ;;
      if up then ret tt
      else log DEBUG "Restarting ssh tunnels." ;; tunnel_connection
  end.

(** [for line in lines: if line.strip(): self.log.error(line)] *)
Fixpoint log_lines (lines : list string) : M unit :=
  match lines with
  | [] => ret tt
  | line :: rest =>
      when (nonempty (strip line)) (log ERROR line) ;;
      log_lines rest
  end.

(** The [while True] loop of [keep_alive]; every turn takes a reply. *)
Fixpoint keep_alive_loop (fuel : nat) (conn : pid) : M unit :=
  match fuel with
  | O => stuck
  | S fuel' =>
      up <- isalive conn ;;
      if negb up then
        log ERROR "Kernel died." ;;
        lines <- readlines conn ;;
        log_lines lines
      else
        check_tunnels ;;
        try_except (readlines conn ;; ret tt)
          (fun e =>
             match e with
             | TIMEOUT => Some (ret tt)
             | KeyboardInterrupt =>
                 Some (log INFO "Caught interrupt; sending to kernel." ;;
                       sendcontrol conn "c")
             | _ => None
             end) ;;
        keep_alive_loop fuel' conn
  end.

(** [keep_alive(timeout)], [timeout] in seconds. *)
Definition keep_alive (timeout : Z) : M unit :=
  me <- self ;;
  match connection me with
  | None => raise (AttributeError "'NoneType' object has no attribute 'timeout'")
  | Some conn =>
      sleep (1000 * timeout) ;;
      fun s => keep_alive_loop (S (length (tape (env s)))) conn s
  end.

(** The first [def __del__] of the class body (the connection file). *)
Definition __del__first : M unit :=
  me <- self ;;
  if _delcf me then
    match connection_file me with
    | Some f =>
        try_except (os_remove f)
          (fun e => if is_Exception e then Some (ret tt) else None)
    | None => ret tt      (* [os.remove(None)] raises [TypeError], swallowed *)
    end
  else ret tt.

(** The second [def __del__] of the class body (the sftp helper). *)
Definition __del__second : M unit :=
  me <- self ;;
  match sshfs_proc me with
  | Some p =>
      kill p ;;
      wait p ;;
      modify (on_obj (set_sshfs_proc None))
  | None => ret tt
  end.

(** The class body binds names in order; a later [def] of a name replaces
    the earlier one.  Listed: the methods without arguments. *)
Definition class_body : list (string * M unit) :=
  [ ("__del__", __del__first);
    ("launch_tunnel_hosts", launch_tunnel_hosts);
    ("launch_local", launch_local);
    ("launch_ssh", launch_ssh);
    ("__del__", __del__second);
    ("launch_pbs", launch_pbs);
    ("launch_sge", launch_sge);
    ("launch_slurm", launch_slurm);
    ("start_kernel", start_kernel);
    ("tunnel_connection", tunnel_connection);
    ("check_tunnels", check_tunnels) ].

Fixpoint class_attr (name : string) (body : list (string * M unit)) : option (M unit) :=
  match body with
  | [] => None
  | (n, m) :: rest =>
      match class_attr name rest with
      | Some later => Some later
      | None => if String.eqb n name then Some m else None
      end
  end.

(** What [RemoteIKernel.__del__] denotes once the class is built. *)
Definition __del__ : M unit :=
  default (raise (AttributeError "__del__")) (class_attr "__del__" class_body).

(** The arguments of [RemoteIKernel(...)]. *)
Module Args.
Record t := make {
  connection_file : option string;
  connection_info : gmap string pyval;
  interface : string;
  cpus : Z;
  mem : option string;
  time : option string;
  pe : string;
  kernel_cmd : string;
  workdir : option string;
  tunnel : bool;
  host : option string;
  precmd : option string;
  launch_args : option string;
  verbose : bool;
  tunnel_hosts : option (list string);
  runtimedir : option string;
  uuid : option N
}.
End Args.

(** The connection-file part of [__init__]: what [self.connection_info]
    becomes, and whether the file is the launcher's own ([_delcf]). *)
Definition load_connection_info (a : Args.t) : M (gmap string pyval * bool) :=
  match Args.connection_file a with
  | Some f =>
      present <- path_exists f ;;
      loaded <- (if present then
                   l <- try_except (json_load f)
                          (fun e => if is_Exception e then Some (ret (JObject ∅)) else None) ;;
                   ret (l, false)
                 else ret (JObject ∅, true)) ;;
      (* [loaded_connection_info.copy()] then [update(connection_info)],
         outside any [try]: a [list] has no [update], the other values no
         [copy]; for a [dict] the argument wins *)
      match fst loaded with
      | JObject d =>
          let info := Args.connection_info a ∪ d in
          when (snd loaded || negb (bool_decide (info = d)))
            (try_except (json_dump info f)
               (fun e => if is_Exception e then Some (ret tt) else None)) ;;
          ret (info, snd loaded)
      | JArray => raise (AttributeError "'list' object has no attribute 'update'")
      | JScalar type_name =>
          raise (AttributeError ("'" +:+ type_name +:+ "' object has no attribute 'copy'"))
      end
  | None => ret (Args.connection_info a, false)
  end.

(** [RemoteIKernel.__init__]; [connection_info] is always a dictionary in
    [start_remote_kernel]. *)
Definition __init__ (a : Args.t) : M unit :=
  v <- gets (fun s => version_ (env s)) ;;
  log INFO ("Remote kernel version: " +:+ v +:+ ".") ;;
  f <- gets (fun s => file_ (env s)) ;;
  log INFO ("File location: " +:+ f +:+ ".") ;;
  here <- gets (fun s => getcwd (env s)) ;;
  let rtd := default "~/.local/share/jupyter/runtime" (Args.runtimedir a) in
  modify (on_obj (fun _ =>
    mkKernel None (Args.connection_file a) false (Args.interface a) (Args.cpus a)
      (Args.mem a) (Args.time a) (Args.pe a) (Args.kernel_cmd a) (Args.host a)
      (Args.tunnel_hosts a) None (Args.workdir a) (Args.tunnel a) ∅ (Args.precmd a)
      (Args.launch_args a) here (Args.uuid a) rtd ∅)) ;;
  info <- load_connection_info a ;;
  modify (on_obj (fun k =>
    mkKernel (sshfs_proc k) (connection_file k) (snd info) (interface k) (cpus k)
      (mem k) (time k) (pe k) (kernel_cmd k) (host k) (tunnel_hosts k) (connection k)
      (workdir k) (tunnel k) (tunnels k) (precmd k) (launch_args k) (cwd k) (uuid k)
      (runtimedir k) (fst info))) ;;
  when (bool_decide (Args.tunnel_hosts a <> None)) launch_tunnel_hosts ;;
  (if String.eqb (Args.interface a) "local" then launch_local
   else if String.eqb (Args.interface a) "pbs" then launch_pbs
   else if String.eqb (Args.interface a) "sge" then launch_sge
   else if String.eqb (Args.interface a) "ssh" then launch_ssh
   else if String.eqb (Args.interface a) "slurm" then launch_slurm
   else raise (ValueError ("Unknown interface " +:+ Args.interface a))) ;;
  me <- self ;;
  match connection me with
  | Some _ =>
      start_kernel ;;
      when (tunnel me) tunnel_connection
  | None => ret tt
  end.

(** [start_remote_kernel], once the command line has been parsed into the
    arguments of the constructor. *)
Definition start_remote_kernel (a : Args.t) : M unit :=
  __init__ a ;;
  keep_alive 5.

(** [u.variant == RFC_4122 and u.version == 4] *)
Definition is_version4 (u : N) : Prop :=
  N.testbit u 63 = true /\ N.testbit u 62 = false /\ version u = 4%N.

(** [n] characters, each in the set [k]. *)
Definition run_of (k : Re.charset) (n : nat) (s : string) : bool :=
  Nat.eqb (String.length s) n && all_chars (Re.accepts k) s.

(** The text a match contributes to the capture group, item by item:
    inside the group ([in_group]) every character consumed is captured,
    outside it none is. *)
Fixpoint captured (re : Re.regex) (in_group : bool) (g : string) : Prop :=
  match re with
  | [] => g = EmptyString
  | Re.One k :: re' =>
      if in_group
      then exists c g', g = String c g' /\ Re.accepts k c = true /\ captured re' in_group g'
      else captured re' in_group g
  | Re.Opt k :: re' =>
      captured re' in_group g \/
      (in_group = true /\
       exists c g', g = String c g' /\ Re.accepts k c = true /\ captured re' in_group g')
  | Re.Star k :: re' =>
      exists cs g', g = cs +:+ g' /\
        (if in_group then all_chars (Re.accepts k) cs = true else cs = EmptyString) /\
        captured re' in_group g'
  | Re.Open :: re' => captured re' true g
  | Re.Close :: re' => captured re' false g
  end.

(** An item that consumes one hexadecimal digit, or an optional hyphen. *)
Definition digit_or_hyphen (it : Re.item) : Prop :=
  match it with
  | Re.One k => forall c, Re.accepts k c = true -> Ascii.eqb c "-" = false /\ hex_value c <> None
  | Re.Opt k => forall c, Re.accepts k c = true -> c = "-"%char
  | _ => False
  end.

Fixpoint count_ones (re : Re.regex) : nat :=
  match re with
  | [] => O
  | Re.One _ :: re' => S (count_ones re')
  | _ :: re' => count_ones re'
  end.

(** What a match becomes once the text [a] before it has been consumed. *)
Fixpoint takes (a : string) (in_group : bool) (r : option Re.found) : option Re.found :=
  match a with
  | EmptyString => r
  | String c a' => Re.take c in_group (takes a' in_group r)
  end.

(** A version-4 UUID as [str] prints it: lowercase, hyphenated 8-4-4-4-12. *)
Definition uuid4_text (a b c : string) (v : ascii) (d e : string) : string :=
  a +:+ "-" +:+ b +:+ "-" +:+ String "4" c +:+ "-" +:+ String v d +:+ "-" +:+ e.

Definition uuid4_shape (a b c : string) (v : ascii) (d e : string) : bool :=
  run_of hex 8 a && run_of hex 4 b && run_of hex 3 c &&
  Re.accepts (Re.Among "89ab") v && run_of hex 3 d && run_of hex 12 e.

(** ** [manage.add_kernel]: the check made when a kernel is installed *)

(** The [elif interface == 'ssh'] branch of [add_kernel] refuses a missing
    host before anything is installed. *)
Definition add_kernel_host_check (interface : string) (host : option string) : outcome unit :=
  if String.eqb interface "ssh" then
    match host with
    | None => Raised (KeyError "A host is required for ssh.")
    | Some _ => Returned tt
    end
  else Returned tt.

(** ** What a tunnel command looks like *)

(** The text [tunnel_cmd] returns (it also logs it), before the ports are
    filled in. *)
Definition tunnel_template (me : RemoteIKernel) : outcome string :=
  let jumps :=
    match tunnel_hosts me with
    | Some (h :: hosts) => "-J " +:+ join "," (h :: hosts)
    | _ => EmptyString
    end in
  match host me with
  | None => Raised (TypeError "argument of type 'NoneType' is not iterable")
  | Some h =>
      if has_char ":" h then
        match split_pair h with
        | Returned hp =>
            Returned (("ssh -o StrictHostKeyChecking=no -p " +:+ snd hp) +:+ " " +:+ jumps +:+
                      " -S none " +:+ ports_str +:+ " " +:+ fst hp +:+ " sleep 600")
        | Raised e => Raised e
        | Stuck => Stuck
        end
      else
        Returned ("ssh -o StrictHostKeyChecking=no" +:+ " " +:+ jumps +:+
                  " -S none " +:+ ports_str +:+ " " +:+ h +:+ " sleep 600")
  end.

(** One local port forwarded to the same port of the remote loopback. *)
Definition forward (port : string) : string :=
  "-L 127.0.0.1:" +:+ port +:+ ":127.0.0.1:" +:+ port.

(** The forwards of a list of ports, as one run of options. *)
Definition forwards (ports : list string) : string := join " " (map forward ports).

Definition brace_free (s : string) : bool :=
  negb (has_char "{" s) && negb (has_char "}" s).

Definition starts_process (e : event) : bool :=
  match e with
  | Spawned _ _ | Popened _ _ => true
  | _ => false
  end.

Definition no_start (e : event) : Prop := starts_process e = false.

(** From [s] to [s'] the object and the process counter are unchanged, no
    process was started, replies were only consumed, and process [p] is
    still alive if it was and no reply reported its exit. *)
Definition stays (p : pid) (s s' : state) : Prop :=
  obj s' = obj s /\
  next_pid (env s') = next_pid (env s) /\
  (exists d, trace (env s') = trace (env s) ++ d /\ Forall no_start d) /\
  (exists k, tape (env s) = k ++ tape (env s')) /\
  ((forall r, In r (tape (env s)) -> ~ In p (exits r)) ->
   p ∈ alive (env s) -> p ∈ alive (env s')).
(** ** The entry point: [safe_eval] and the parsed command line *)


(** [s.endswith(p)] *)
Definition endswith (p s : string) : bool :=
  let n := String.length s in
  let m := String.length p in
  (m <=? n)%nat && String.eqb (String.substring (n - m) m s) p.

(** The position a slice bound denotes in a text of length [len]: a
    negative bound counts from the end, and both ends are clamped. *)
Definition slice_index (len i : Z) : Z :=
  if i <? 0 then Z.max 0 (len + i) else Z.min i len.

(** [s[a:b]] *)
Definition slice (a b : Z) (s : string) : string :=
  let len := Z.of_nat (String.length s) in
  let a' := slice_index len a in
  let b' := slice_index len b in
  String.substring (Z.to_nat a') (Z.to_nat (b' - a')) s.

(** The two quote characters. *)
Definition dquote : string := String "034" EmptyString.
Definition squote : string := "'".

(** [safe_eval(s)] *)
Definition safe_eval (s : string) : string :=
  if startswith dquote s && endswith dquote s then slice 1 (-1) s
  else if startswith squote s && endswith squote s then slice 1 (-1) s
  else if startswith ("b" +:+ dquote) s && endswith dquote s then slice 2 (-1) s
  else if startswith ("b" +:+ squote) s && endswith squote s then slice 2 (-1) s
  else s.

(** What [parser.parse_args()] hands to [start_remote_kernel]. *)
Module Namespace.
Record t := make {
  f : option string;
  interface : string;
  cpus : Z;
  mem : option string;
  time : option string;
  pe : string;
  kernel_cmd : string;
  workdir : option string;
  host : option string;
  precmd : option string;
  launch_args : option string;
  verbose : bool;
  tunnel_hosts : option (list string);
  runtimedir : option string;
  hb : Z;
  shell : Z;
  iopub : Z;
  stdin : Z;
  control : Z;
  ip : option string;
  signature_scheme : option string;
  key : option string;
  transport : option string
}.
End Namespace.

(** [getattr(args, name)] for the port options, which hold an [int]. *)
Definition getattr (args : Namespace.t) (name : string) : outcome Z :=
  if String.eqb name "hb" then Returned (Namespace.hb args)
  else if String.eqb name "shell" then Returned (Namespace.shell args)
  else if String.eqb name "iopub" then Returned (Namespace.iopub args)
  else if String.eqb name "stdin" then Returned (Namespace.stdin args)
  else if String.eqb name "control" then Returned (Namespace.control args)
  else Raised (AttributeError name).

(** The loop
    [for port in PORT_NAMES: arg = getattr(args, port[:-5]); if args.hb: connection_info[port] = arg] *)
Fixpoint port_arguments (args : Namespace.t) (names : list string)
    (connection_info : gmap string pyval) : outcome (gmap string pyval) :=
  match names with
  | [] => Returned connection_info
  | port :: names' =>
      match getattr args (slice 0 (-5) port) with
      | Returned arg =>
          port_arguments args names'
            (if Namespace.hb args =? 0 then connection_info
             else <[port := PyInt arg]> connection_info)
      | Raised e => Raised e
      | Stuck => Stuck
      end
  end.

(** [if v: connection_info[key] = convert(v)] *)
Definition set_if_given (key : string) (v : option string) (convert : string -> string)
    (connection_info : gmap string pyval) : gmap string pyval :=
  if truthy v then <[key := PyStr (convert (default EmptyString v))]> connection_info
  else connection_info.

(** The dictionary [start_remote_kernel] builds from the options. *)
Definition connection_info_of (args : Namespace.t) : outcome (gmap string pyval) :=
  match port_arguments args PORT_NAMES ∅ with
  | Returned info =>
      let info := set_if_given "ip" (Namespace.ip args) (fun v => v) info in
      let info := set_if_given "signature_scheme" (Namespace.signature_scheme args)
                    safe_eval info in
      let info := set_if_given "key" (Namespace.key args) safe_eval info in
      let info := set_if_given "transport" (Namespace.transport args) safe_eval info in
      Returned info
  | Raised e => Raised e
  | Stuck => Stuck
  end.

(** The arguments [start_remote_kernel] passes to the constructor; [tunnel]
    is left at its default. *)
Definition constructor_args (args : Namespace.t) (connection_info : gmap string pyval)
    (u : N) : Args.t :=
  Args.make (Namespace.f args) connection_info (Namespace.interface args)
    (Namespace.cpus args) (Namespace.mem args) (Namespace.time args) (Namespace.pe args)
    (Namespace.kernel_cmd args) (Namespace.workdir args) true (Namespace.host args)
    (Namespace.precmd args) (Namespace.launch_args args) (Namespace.verbose args)
    (Namespace.tunnel_hosts args) (Namespace.runtimedir args) (Some u).

(** [start_remote_kernel] from the parsed options on; [random] is what the
    entropy source yields if [get_uuid] asks for it. *)
Definition start_remote_kernel_from (args : Namespace.t) (random : N) : M unit :=
  connection_info <- lift (connection_info_of args) ;;
  u <- lift (get_uuid random (Namespace.f args)) ;;
  start_remote_kernel (constructor_args args connection_info u).

(** ** Counting *)

(** [s.count(c)] for a single character. *)
Fixpoint count_char (c : ascii) (s : string) : nat :=
  match s with
  | EmptyString => O
  | String d s' => (if Ascii.eqb d c then 1 else 0)%nat + count_char c s'
  end.
(** * [manage.py]: the kernel specification [add_kernel] installs *)

(** [\w] on a [str], for the code points below 256: letters, digits of any
    kind and the underscore. *)
Definition is_word (c : ascii) : bool :=
  let n := N_of_ascii c in
  (((48 <=? n) && (n <=? 57)) || ((65 <=? n) && (n <=? 90)) || (n =? 95) ||
   ((97 <=? n) && (n <=? 122)) ||
   (n =? 170) || (n =? 178) || (n =? 179) || (n =? 181) || (n =? 185) || (n =? 186) ||
   ((188 <=? n) && (n <=? 190)) ||
   ((192 <=? n) && (n <=? 214)) || ((216 <=? n) && (n <=? 246)) || (248 <=? n))%N.

(** [re.sub(r'\W', repl, s)], for a [repl] without escapes. *)
Fixpoint sub_nonword (repl : string) (s : string) : string :=
  match s with
  | EmptyString => EmptyString
  | String c s' =>
      (if is_word c then String c EmptyString else repl) +:+ sub_nonword repl s'
  end.

Definition lower_char (c : ascii) : ascii :=
  let n := N_of_ascii c in
  if (((65 <=? n) && (n <=? 90)) || ((192 <=? n) && (n <=? 214)) ||
      ((216 <=? n) && (n <=? 222)))%N
  then ascii_of_N (n + 32)
  else c.

(** [s.lower()], for the code points below 256. *)
Fixpoint lower (s : string) : string :=
  match s with
  | EmptyString => EmptyString
  | String c s' => String (lower_char c) (lower s')
  end.

(** [s.replace(old, new)] for a non-empty [old]: occurrences are replaced
    from the left and do not overlap; [skip] counts the characters of the
    occurrence just replaced that are still to be passed over. *)
Fixpoint replace_from (skip : nat) (old new s : string) : string :=
  match s with
  | EmptyString => EmptyString
  | String c s' =>
      match skip with
      | S k => replace_from k old new s'
      | O =>
          if startswith old s
          then new +:+ replace_from (String.length old - 1) old new s'
          else String c (replace_from 0 old new s')
      end
  end.

(** With an empty [old], [new] is put before every character and at the end. *)
Fixpoint intersperse (new s : string) : string :=
  match s with
  | EmptyString => new
  | String c s' => new +:+ String c (intersperse new s')
  end.

Definition replace (old new s : string) : string :=
  match old with
  | EmptyString => intersperse new s
  | String _ _ => replace_from 0 old new s
  end.

Module AddKernel.

(** The arguments of [add_kernel]; what [manage] passes comes from optional
    command-line options, so all but the two switches may be [None]. *)
Record t := make {
  interface : option string;
  name : option string;
  kernel_cmd : option string;
  cpus : option Z;
  mem : option string;
  time : option string;
  pe : option string;
  language : option string;
  system : bool;
  workdir : option string;
  host : option string;
  precmd : option string;
  launch_args : option string;
  tunnel_hosts : option (list string);
  verbose : bool;
  runtimedir : option string
}.

(** The three lists [add_kernel] appends to. *)
Record lists := mkLists {
  kernel_name : list string;
  display_name : list string;
  argv : list string
}.

Definition name_append (x : string) (l : lists) : lists :=
  mkLists (kernel_name l ++ [x]) (display_name l) (argv l).

Definition display_append (x : string) (l : lists) : lists :=
  mkLists (kernel_name l) (display_name l ++ [x]) (argv l).

Definition argv_extend (x : list string) (l : lists) : lists :=
  mkLists (kernel_name l) (display_name l) (argv l ++ x).

(** The [kernel.json] written for the new kernel. *)
Record kernel_json := mkJson {
  json_display_name : string;
  json_argv : list string;
  json_language : option string;
  ikernel_remote_argv : list string
}.

(** [if v is not None: argv.extend([opt, v])] *)
Definition option_given (opt : string) (v : option string) (l : lists) : lists :=
  match v with
  | Some v => argv_extend [opt; v] l
  | None => l
  end.

(** The [if interface == ...] chain. *)
Definition how_to_connect (a : t) (l : lists) : outcome lists :=
  let chosen name := bool_decide (interface a = Some name) in
  if chosen "local" then
    Returned (display_append "Local" (name_append "local"
               (argv_extend ["--interface"; "local"] l)))
  else if chosen "pbs" then
    Returned (display_append "PBS" (argv_extend ["--interface"; "pbs"] l))
  else if chosen "sge" then
    Returned (display_append "GridEngine" (name_append "sge"
               (argv_extend ["--interface"; "sge"] l)))
  else if chosen "ssh" then
    match host a with
    | None => Raised (KeyError "A host is required for ssh.")
    | Some h =>
        Returned (display_append h (display_append "SSH"
                   (name_append h (name_append "ssh"
                     (argv_extend ["--host"; h] (argv_extend ["--interface"; "ssh"] l))))))
    end
  else if chosen "slurm" then
    Returned (display_append "SLURM" (name_append "slurm"
               (argv_extend ["--interface"; "slurm"] l)))
  else Raised (ValueError ("Unknown interface " +:+ str_opt (interface a))).

(** From [display_name.append(name)] to the last [argv.extend]; [re.sub]
    refuses a [name] that is [None]. *)
Definition describe (a : t) (l : lists) : outcome lists :=
  match name a with
  | None => Raised (TypeError "expected string or bytes-like object")
  | Some n =>
      let l := name_append (lower (sub_nonword "" n)) (display_append n l) in
      let l :=
        match pe a with
        | Some p => display_append p (name_append p (argv_extend ["--pe"; p] l))
        | None => l
        end in
      let l :=
        match cpus a with
        | Some c =>
            if (negb (c =? 0)) && (1 <? c)
            then display_append (str_int c +:+ " CPUs")
                   (name_append (str_int c +:+ "cpus")
                     (argv_extend ["--cpus"; str_int c] l))
            else l
        | None => l
        end in
      let l :=
        match mem a with
        | Some m => display_append m (name_append (lower m) (argv_extend ["--mem"; m] l))
        | None => l
        end in
      let l :=
        match time a with
        | Some t =>
            display_append t
              (name_append ("t" +:+ lower (sub_nonword "" t))
                (argv_extend ["--time"; t] l))
        | None => l
        end in
      let l := option_given "--workdir" (workdir a) l in
      let l := option_given "--runtimedir" (runtimedir a) l in
      let l := option_given "--precmd" (precmd a) l in
      let l := option_given "--launch-args" (launch_args a) l in
      let l := if verbose a then argv_extend ["--verbose"] l else l in
      let l :=
        option_given "--kernel_cmd"
          (replace "{connection_file}" "{host_connection_file}" <$> kernel_cmd a) l in
      let l :=
        match tunnel_hosts a with
        | Some (h :: hosts) =>
            argv_extend ("--tunnel-hosts" :: h :: hosts)
              (display_append ("(via " +:+ join " " (h :: hosts) +:+ ")")
                (name_append ("via_" +:+ join "_" (h :: hosts)) l))
        | _ => l
        end in
      Returned (argv_extend ["-f"; "{connection_file}"] l)
  end.

End AddKernel.

(** [add_kernel] up to the installation: the name the kernel is installed
    under, which is also what the function returns, and its [kernel.json].
    [executable] is [sys.executable], [sys_argv] is [sys.argv].  Writing the
    file and registering it are left to the kernel specification manager. *)
Definition add_kernel (executable : string) (sys_argv : list string) (a : AddKernel.t)
  : outcome (string * AddKernel.kernel_json) :=
  match AddKernel.how_to_connect a
          (AddKernel.mkLists [] [] [executable; "-m"; "ikernel_remote"]) with
  | Returned l =>
      match AddKernel.describe a l with
      | Returned l =>
          let kernel_name := "remote_" +:+ join "_" (AddKernel.kernel_name l) in
          let kernel_name := sub_nonword "_" kernel_name in
          Returned (kernel_name,
                    AddKernel.mkJson (join " " (AddKernel.display_name l))
                      (AddKernel.argv l) (AddKernel.language a) sys_argv)
      | Raised e => Raised e
      | Stuck => Stuck
      end
  | Raised e => Raised e
  | Stuck => Stuck
  end.
(** ** Notions used to state properties of the entry point and the constructor *)

(** The four tests of [safe_eval], as the opening mark and the quote that
    closes it. *)
Definition quotings : list (string * ascii) :=
  [ (dquote, "034"%char); (squote, "'"%char);
    ("b" +:+ dquote, "034"%char); ("b" +:+ squote, "'"%char) ].

(** What the constructor takes from the connection file at [path]: the
    dictionary stored there, or nothing when the file is missing or cannot be
    parsed. *)
Definition loaded_from (s : state) (path : string) : gmap string pyval :=
  match files (env s) !! path with
  | Some (Some (JObject d)) => d
  | _ => ∅
  end.

(** The file at [path], if there is one, holds a JSON object or nothing
    that parses: what [json.load] gives, if anything, is a [dict]. *)
Definition loads_as_dict (s : state) (path : string) : Prop :=
  forall v, files (env s) !! path = Some (Some v) -> exists d, v = JObject d.

(** The state after a [json.dump(d, open(path, 'w'))] that went through. *)
Definition written (path : string) (d : gmap string pyval) (s : state) : state :=
  on_env (fun w => set_trace (trace w ++ [Wrote path])
                     (set_files (<[path := Some (JObject d)]> (files w)) w)) s.

(** The events recorded between two states. *)
Definition recorded (s s' : state) (d : list event) : Prop :=
  trace (env s') = trace (env s) ++ d.

Definition known_interfaces : list string := ["local"; "pbs"; "sge"; "ssh"; "slurm"].

(** A session [p] that is in place before is the session afterwards. *)
Definition holds_session (p : pid) (s s' : state) : Prop :=
  connection (obj s) = Some p -> connection (obj s') = Some p.

(** A line of the session's last output, logged as an error. *)
Definition error_line (e : event) : Prop := exists line, e = Logged ERROR line.

(** An interrupt, if [e] is one, is Ctrl-C sent to process [p]. *)
Definition interrupts_only (p : pid) (e : event) : Prop :=
  forall q c, e = SentControl q c -> q = p /\ c = "c".

(** The lines sent to processes, in order, among the events [d]. *)
Definition sent_lines (d : list event) : list (pid * string) :=
  flat_map (fun e => match e with SentLine p line => [(p, line)] | _ => [] end) d.

(** The file on the remote host that [start_kernel] writes the connection
    information to, when the kernel command asks for one. *)
Definition host_file (me : RemoteIKernel) : string :=
  path_join (runtimedir me)
    ("kernel-remote-" +:+ default "None" (str_uuid <$> uuid me) +:+ ".json").

(** Where [start_kernel] changes directory to. *)
Definition start_directory (me : RemoteIKernel) : string :=
  if truthy (workdir me) then str_opt (workdir me) else cwd me.

(** Between [s] and [s'] the lines [ls] were sent, and [json.dumps] is what
    it was. *)
Definition did (s s' : state) (ls : list (pid * string)) : Prop :=
  dumps (env s') = dumps (env s) /\
  exists d, recorded s s' d /\ sent_lines d = ls.

(** The events of a password dialogue with process [c]: every line sent goes
    to [c] and answers a question put to the askpass helper just before; a
    last question may be left without its line. *)
Fixpoint asks_then_sends (c : pid) (d : list event) : bool :=
  match d with
  | [] => true
  | Asked _ :: d' =>
      match d' with
      | [] => true
      | SentLine p _ :: d'' => Nat.eqb p c && asks_then_sends c d''
      | _ => false
      end
  | _ => false
  end.

(** The text holds a passphrase or a password prompt. *)
Definition prompts (text : string) : bool :=
  bool_decide (Re.search passphrase_pattern text <> None) ||
  bool_decide (Re.search password_pattern text <> None).

(** From [s] to [s'] the object and the process counter are unchanged and
    the events [d] were recorded. *)
Definition ran (s s' : state) (d : list event) : Prop :=
  obj s' = obj s /\ next_pid (env s') = next_pid (env s) /\ recorded s s' d.

(** The interface given to [add_kernel] is one it knows. *)
Definition known_interface (a : AddKernel.t) : Prop :=
  exists i, AddKernel.interface a = Some i /\ In i known_interfaces.

(** An ssh kernel comes with a host. *)
Definition host_if_ssh (a : AddKernel.t) : Prop :=
  AddKernel.interface a = Some "ssh" -> AddKernel.host a <> None.

(** The askpass helper was not run. *)
Definition not_asked (e : event) : Prop := forall prompt, e <> Asked prompt.

(** What [sendline] raises when it is handed [bytes]. *)
Definition bytes_refused : exn := TypeError "can't concat str to bytes".

(** However [m] goes, either the askpass helper was never run, or [m] has
    ended with the [TypeError] of [sendline]. *)
Definition asking_fails {A} (m : M A) : Prop :=
  forall s, exists d, recorded s (snd (m s)) d /\
    (Forall not_asked d \/ fst (m s) = Raised bytes_refused).

(** [read_nonblocking] found nothing to answer: it timed out, or the text
    holds no prompt. *)
Definition nothing_asked (a : answer) : Prop :=
  a = Throws TIMEOUT \/ exists text, a = Text text /\ prompts text = false.

(** [[str(self.connection_info[port_name]) for port_name in PORT_NAMES]] when
    every port is there. *)
Definition port_texts (d : gmap string pyval) (names : list string) : list string :=
  map (fun n => default EmptyString (str_val <$> d !! n)) names.
(** * Properties *)

(** ** Facts about text *)

Section TextFacts.

Lemma append_cons c a b : String c a +:+ b = String c (a +:+ b).
Proof. reflexivity. Qed.

Lemma append_nil_l a : "" +:+ a = a.
Proof. reflexivity. Qed.

Lemma append_nil_r a : a +:+ "" = a.
Proof. induction a as [|c a IH]; [reflexivity|]. rewrite append_cons, IH. reflexivity. Qed.

Lemma append_assoc a b c : (a +:+ b) +:+ c = a +:+ (b +:+ c).
Proof.
  induction a as [|x a IH]; [reflexivity|].
  rewrite !append_cons, IH. reflexivity.
Qed.

Lemma append_eq_nil a b : a +:+ b = "" -> a = "" /\ b = "".
Proof. destruct a; [rewrite append_nil_l; auto | rewrite append_cons; discriminate]. Qed.

(** Two ways of cutting the same text overlap in a common middle piece. *)
Lemma append_eq_append a b c d :
  a +:+ b = c +:+ d ->
  exists l, (a = c +:+ l /\ d = l +:+ b) \/ (c = a +:+ l /\ b = l +:+ d).
Proof.
  revert c. induction a as [|x a IH]; intros c H.
  - exists c. right. rewrite !append_nil_l in *. auto.
  - destruct c as [|y c].
    + exists (String x a). left. rewrite append_nil_l in *. auto.
    + rewrite !append_cons in H. injection H as -> H.
      destruct (IH _ H) as [l [[-> ->]|[-> ->]]]; exists l; [left|right];
        rewrite ?append_cons; auto.
Qed.

Lemma startswith_spec p s : startswith p s = true <-> exists r, s = p +:+ r.
Proof.
  revert s. induction p as [|a p IH]; intros s; simpl.
  - split; [intros _; exists s; reflexivity | auto].
  - destruct s as [|b s].
    + split; [discriminate | intros [r Hr]; rewrite append_cons in Hr; discriminate].
    + rewrite andb_true_iff, Ascii.eqb_eq, IH. split.
      * intros [-> [r ->]]. exists r. reflexivity.
      * intros [r Hr]. rewrite append_cons in Hr. injection Hr as -> ->. eauto.
Qed.

Lemma contains_spec n h :
  contains n h = true <-> exists p s, h = p +:+ n +:+ s.
Proof.
  induction h as [|c h IH].
  - simpl. rewrite orb_false_r, startswith_spec. split.
    + intros [r Hr]. exists "", r. rewrite append_nil_l. exact Hr.
    + intros [p [s H]]. symmetry in H.
      apply append_eq_nil in H as [-> H].
      exists s. symmetry. exact H.
  - simpl. rewrite orb_true_iff, IH, startswith_spec. split.
    + intros [[r Hr]|[p [s Hps]]].
      * exists "", r. rewrite append_nil_l. exact Hr.
      * exists (String c p), s. rewrite append_cons, Hps. reflexivity.
    + intros [[|x p] [s H]].
      * left. exists s. rewrite append_nil_l in H. exact H.
      * right. rewrite append_cons in H. injection H as -> ->. eauto.
Qed.

Lemma contains_app_intro_l n a b : contains n a = true -> contains n (a +:+ b) = true.
Proof.
  rewrite !contains_spec. intros [p [s ->]]. exists p, (s +:+ b).
  rewrite !append_assoc. reflexivity.
Qed.

Lemma contains_app_intro_r n a b : contains n b = true -> contains n (a +:+ b) = true.
Proof.
  rewrite !contains_spec. intros [p [s ->]]. exists (a +:+ p), s.
  rewrite !append_assoc. reflexivity.
Qed.

Lemma contains_self_app n s : contains n (n +:+ s) = true.
Proof. apply contains_spec. exists "", s. reflexivity. Qed.

(** A text containing [n +:+ r] contains [n]. *)
Lemma contains_weaken n r h : contains (n +:+ r) h = true -> contains n h = true.
Proof.
  rewrite !contains_spec. intros [p [s ->]]. exists p, (r +:+ s).
  rewrite !append_assoc. reflexivity.
Qed.

Lemma has_char_cons c d s : has_char c (String d s) = Ascii.eqb c d || has_char c s.
Proof. reflexivity. Qed.

Lemma has_char_app c a b : has_char c (a +:+ b) = has_char c a || has_char c b.
Proof.
  induction a as [|x a IH]; [reflexivity|].
  rewrite append_cons. simpl. rewrite IH, orb_assoc. reflexivity.
Qed.

Lemma last_char_app p l : l <> "" -> last_char (p +:+ l) = last_char l.
Proof.
  intros Hl. induction p as [|y p IH]; [reflexivity|].
  rewrite append_cons. simpl. rewrite IH.
  destruct (p +:+ l) eqn:E; [|reflexivity].
  apply append_eq_nil in E as [_ E]. congruence.
Qed.

Lemma last_char_some l : l <> "" -> exists y, last_char l = Some y.
Proof.
  induction l as [|c l IH]; [congruence|]. intros _.
  destruct l as [|d l]; [exists c; reflexivity|].
  destruct IH as [y IH]; [discriminate|]. exists y. exact IH.
Qed.

Lemma last_char_in_drop_last l r y :
  last_char l = Some y -> r <> "" -> has_char y (drop_last (l +:+ r)) = true.
Proof.
  intros Hy Hr. induction l as [|c l IH]; [discriminate|].
  rewrite append_cons. destruct l as [|d l].
  - injection Hy as ->. rewrite append_nil_l.
    destruct r as [|x r]; [congruence|]. simpl.
    rewrite Ascii.eqb_refl. reflexivity.
  - change (drop_last (String c (String d l +:+ r)))
      with (String c (drop_last (String d l +:+ r))).
    rewrite has_char_cons, IH; [apply orb_true_r | exact Hy].
Qed.

Lemma last_char_in_drop_last_app l x r :
  has_char x (tail (l +:+ String x r)) = true \/ l = "".
Proof.
  destruct l as [|y l]; [auto|]. left.
  rewrite append_cons. simpl tail. rewrite has_char_app. simpl.
  rewrite Ascii.eqb_refl. rewrite orb_true_r. reflexivity.
Qed.

(** An occurrence of [n] in [a +:+ b] lies in [a], lies in [b], or
    straddles the seam with a proper, non-empty part on either side. *)
Lemma contains_app_cases n a b :
  contains n (a +:+ b) = true ->
  contains n a = true \/ contains n b = true \/
  exists l r, n = l +:+ r /\ l <> "" /\ r <> "" /\
              (exists p, a = p +:+ l) /\ (exists s, b = r +:+ s).
Proof.
  rewrite !contains_spec. intros [p [s H]].
  destruct (append_eq_append _ _ _ _ H) as [l [[Ha Hns]|[Hp Hb]]].
  - symmetry in Hns.
    destruct (append_eq_append _ _ _ _ Hns) as [r [[Hl Hs]|[Hn Hbb]]].
    + left. exists p, r. rewrite Ha, Hl. reflexivity.
    + destruct l as [|x l].
      * right. left. rewrite append_nil_l in *. subst. exists "", s. reflexivity.
      * destruct r as [|y r].
        -- left. rewrite append_nil_r in Hn. subst. exists p, "".
           rewrite append_nil_r. reflexivity.
        -- right. right. exists (String x l), (String y r).
           repeat split; try congruence; eauto.
  - right. left. exists l, s. exact Hb.
Qed.

Lemma contains_app_opens n a b :
  opens n b = true -> contains n (a +:+ b) = contains n a || contains n b.
Proof.
  intros Ho. destruct (contains n (a +:+ b)) eqn:E.
  - symmetry. apply orb_true_iff.
    destruct (contains_app_cases _ _ _ E) as [H|[H|H]]; auto.
    destruct H as (l & r & -> & Hl & Hr & _ & [s ->]).
    destruct r as [|x r]; [congruence|]. rewrite append_cons in Ho.
    unfold opens in Ho. exfalso.
    destruct (last_char_in_drop_last_app l x r) as [Hh| ->]; [|congruence].
    rewrite Hh in Ho. discriminate.
  - symmetry. apply orb_false_iff. split.
    + destruct (contains n a) eqn:Ea; [|reflexivity].
      rewrite (contains_app_intro_l _ _ b Ea) in E. discriminate.
    + destruct (contains n b) eqn:Eb; [|reflexivity].
      rewrite (contains_app_intro_r _ a _ Eb) in E. discriminate.
Qed.

Lemma contains_app_closes n a b :
  closes n a = true -> contains n (a +:+ b) = contains n a || contains n b.
Proof.
  intros Hc. destruct (contains n (a +:+ b)) eqn:E.
  - symmetry. apply orb_true_iff.
    destruct (contains_app_cases _ _ _ E) as [H|[H|H]]; auto.
    destruct H as (l & r & -> & Hl & Hr & [p ->] & _).
    exfalso. unfold closes in Hc.
    destruct (last_char_some l Hl) as [y Hy].
    rewrite (last_char_app p l Hl), Hy in Hc.
    rewrite (last_char_in_drop_last l r y Hy Hr) in Hc. discriminate.
  - symmetry. apply orb_false_iff. split.
    + destruct (contains n a) eqn:Ea; [|reflexivity].
      rewrite (contains_app_intro_l _ _ b Ea) in E. discriminate.
    + destruct (contains n b) eqn:Eb; [|reflexivity].
      rewrite (contains_app_intro_r _ a _ Eb) in E. discriminate.
Qed.

End TextFacts.


(** ** Launch command lines (C1) *)

Section DecimalText.

Lemma all_chars_uint d : all_chars is_digit (NilEmpty.string_of_uint d) = true.
Proof. induction d; simpl; auto. Qed.

Lemma str_int_digits z : 0 < z -> all_chars is_digit (str_int z) = true.
Proof.
  destruct z as [|p|p]; try lia. intros _.
  unfold str_int. simpl. apply all_chars_uint.
Qed.

Lemma startswith_all_chars P c n s :
  all_chars P s = true -> P c = false -> startswith (String c n) s = false.
Proof.
  destruct s as [|d s]; [reflexivity|]. simpl.
  intros H Hc. apply andb_true_iff in H as [Hd _].
  destruct (Ascii.eqb_spec c d) as [->|]; [congruence|reflexivity].
Qed.

Lemma contains_all_chars P c n s :
  all_chars P s = true -> P c = false -> contains (String c n) s = false.
Proof.
  intros H Hc. induction s as [|d s IH].
  - reflexivity.
  - cbn [contains]. rewrite (startswith_all_chars P c n _ H Hc).
    simpl in H. apply andb_true_iff in H as [_ H]. rewrite IH by exact H. reflexivity.
Qed.

Lemma contains_str_int c n z :
  1 < z -> is_digit c = false -> contains (String c n) (str_int z) = false.
Proof. intros Hz Hc. eapply contains_all_chars; [apply str_int_digits; lia|exact Hc]. Qed.

Lemma contains_here n h : startswith n h = true -> contains n h = true.
Proof. intros H. destruct h; simpl; rewrite H; reflexivity. Qed.

Lemma contains_skip c n h : contains n h = true -> contains n (String c h) = true.
Proof. intros H. simpl. rewrite H. apply orb_true_r. Qed.

Lemma startswith_app_same a n h : startswith (a +:+ n) (a +:+ h) = startswith n h.
Proof.
  induction a as [|c a IH]; [reflexivity|].
  rewrite !append_cons. simpl. rewrite Ascii.eqb_refl. exact IH.
Qed.

Lemma startswith_refl a h : startswith a (a +:+ h) = true.
Proof.
  induction a as [|c a IH]; [reflexivity|].
  rewrite !append_cons. simpl. rewrite Ascii.eqb_refl. exact IH.
Qed.

Lemma startswith_cons_same c n h : startswith (String c n) (String c h) = startswith n h.
Proof. simpl. rewrite Ascii.eqb_refl. reflexivity. Qed.

End DecimalText.

(** Deciding occurrences in a text assembled from fixed pieces and
    caller-supplied pieces: cut at every seam no occurrence can cross. *)
Ltac flatten_text :=
  rewrite ?append_assoc, ?append_nil_l, ?append_nil_r.

Ltac split_contains :=
  repeat first [ rewrite contains_app_opens by reflexivity
               | rewrite contains_app_closes by reflexivity ].

Ltac use_absent :=
  repeat match goal with
         | H : contains ?n ?v = false |- context [contains ?n ?v] => rewrite H
         end.

Ltac absent := flatten_text; split_contains; use_absent; reflexivity.

Ltac starts_here :=
  repeat first [ rewrite startswith_cons_same | rewrite startswith_app_same ];
  first [ reflexivity | apply startswith_refl ].

Ltac occurs :=
  first [ apply contains_here; solve [starts_here]
        | apply contains_skip; occurs
        | apply contains_app_intro_r; occurs ].

Ltac present :=
  flatten_text; repeat rewrite append_cons; rewrite ?append_nil_l; occurs.

Ltac launch_cases self :=
  unfold launch_command, pbs_cmd, pbs_res, sge_cmd, sge_res, pe_string, srun_cmd,
    slurm_opts, res_string, requested, job_name, unambiguous, user_texts,
    flag, flag_value in *;
  cbn [marker String.eqb Ascii.eqb Bool.eqb] in *;
  let a := fresh "a" in
  let d := fresh "d" in
  set (a := args_string self) in *; clearbody a;
  set (d := str_int (cpus self)) in *; clearbody d;
  destruct (Z.ltb_spec 1 (cpus self)), (mem self), (time self);
  cbn [app join forallb] in *;
  rewrite ?andb_true_r, ?andb_true_iff, ?negb_true_iff in *.

Lemma marker_not_digit iface r :
  exists c n, marker iface r = String c n /\ is_digit c = false.
Proof.
  unfold marker. destruct (String.eqb iface "pbs"), (String.eqb iface "sge"), r;
    eexists _, _; split; reflexivity.
Qed.

(** A resource that is not requested leaves no trace of its option name. *)
Lemma marker_absent iface pr pl self r cmd :
  In iface ["pbs"; "sge"; "slurm"] ->
  unambiguous iface self = true ->
  requested r self = false ->
  launch_command iface pr pl self = Some cmd ->
  contains (marker iface r) cmd = false.
Proof.
  intros Hi Hu Hr Hcmd.
  assert (Hd : 1 < cpus self -> contains (marker iface r) (str_int (cpus self)) = false).
  { destruct (marker_not_digit iface r) as (c & n & -> & Hc).
    intros. apply contains_str_int; auto. }
  simpl in Hi. destruct Hi as [<-|[<-|[<-|[]]]]; destruct r; launch_cases self.
  all: try discriminate.
  all: try (exfalso; lia).
  all: injection Hcmd as <-.
  all: repeat match goal with H : _ /\ _ |- _ => destruct H end.
  all: try specialize (Hd ltac:(assumption)).
  all: absent.
Qed.

(** A requested resource is written out in full. *)
Lemma flag_written iface pr pl self r cmd :
  In iface ["pbs"; "sge"; "slurm"] ->
  requested r self = true ->
  launch_command iface pr pl self = Some cmd ->
  contains (flag iface r self) cmd = true.
Proof.
  intros Hi Hr Hcmd.
  simpl in Hi. destruct Hi as [<-|[<-|[<-|[]]]]; destruct r; launch_cases self.
  all: try discriminate.
  all: try (exfalso; lia).
  all: injection Hcmd as <-.
  all: present.
Qed.

Lemma flag_iff_requested iface pr pl self r cmd :
  In iface ["pbs"; "sge"; "slurm"] ->
  unambiguous iface self = true ->
  launch_command iface pr pl self = Some cmd ->
  contains (flag iface r self) cmd = requested r self.
Proof.
  intros Hi Hu Hcmd. destruct (requested r self) eqn:Hr.
  - eapply flag_written; eauto.
  - destruct (contains (flag iface r self) cmd) eqn:E; [|reflexivity].
    unfold flag in E. apply contains_weaken in E.
    rewrite (marker_absent _ _ _ _ _ _ Hi Hu Hr Hcmd) in E. discriminate.
Qed.

Lemma queue_command_total iface pr pl self :
  In iface ["pbs"; "sge"; "slurm"] -> is_Some (launch_command iface pr pl self).
Proof. simpl. intros [<-|[<-|[<-|[]]]]; eexists; reflexivity. Qed.

(** C1 (as amended).  For the three queueing interfaces (pbs, sge, slurm) a
    command line is always built, and -- provided the caller's free-form
    texts do not themselves spell an option name -- it contains the cpu flag
    exactly when [cpus > 1], the memory flag exactly when [mem] is not
    [None], and the walltime flag exactly when [time] is not [None].  The
    local and ssh command lines are the same whatever resources are asked
    for. *)
Theorem launch_flags_follow_request iface pr pl self :
  In iface ["pbs"; "sge"; "slurm"] ->
  unambiguous iface self = true ->
  (exists cmd, launch_command iface pr pl self = Some cmd /\
     (contains (flag iface Cpu self) cmd = true <-> 1 < cpus self) /\
     (contains (flag iface Memory self) cmd = true <-> mem self <> None) /\
     (contains (flag iface Walltime self) cmd = true <-> time self <> None)) /\
  (forall c m t,
     launch_command "local" pr pl (set_resources c m t self)
       = launch_command "local" pr pl self /\
     launch_command "ssh" pr pl (set_resources c m t self)
       = launch_command "ssh" pr pl self).
Proof.
  intros Hi Hu. split.
  - destruct (queue_command_total iface pr pl self Hi) as [cmd Hcmd].
    exists cmd. split; [exact Hcmd|].
    rewrite !(flag_iff_requested _ _ _ _ _ _ Hi Hu Hcmd). simpl.
    rewrite Z.ltb_lt, !bool_decide_eq_true. tauto.
  - intros c m t. split; reflexivity.
Qed.

Definition sample_request : RemoteIKernel :=
  mkKernel None None false "sge" 4 (Some "16G") None "smp" "ipython kernel"
    None None None None true ∅ None (Some "-q short.q") "/home/u" None
    "~/.local/share/jupyter/runtime" ∅.

Lemma launch_flags_follow_request_witness :
  (exists cmd, launch_command "sge" 0 0 sample_request = Some cmd /\
     (contains (flag "sge" Cpu sample_request) cmd = true <-> 1 < cpus sample_request) /\
     (contains (flag "sge" Memory sample_request) cmd = true <-> mem sample_request <> None) /\
     (contains (flag "sge" Walltime sample_request) cmd = true <-> time sample_request <> None)) /\
  (forall c m t,
     launch_command "local" 0 0 (set_resources c m t sample_request)
       = launch_command "local" 0 0 sample_request /\
     launch_command "ssh" 0 0 (set_resources c m t sample_request)
       = launch_command "ssh" 0 0 sample_request).
Proof.
  apply (launch_flags_follow_request "sge" 0 0 sample_request).
  - simpl. auto.
  - vm_compute. reflexivity.
Defined.

Example sample_request_command :
  launch_command "sge" 0 0 sample_request
  = Some "qlogin -now n -pe smp 4 -l h_vmem=16G -N ikernel_remote -q short.q".
Proof. vm_compute. reflexivity. Qed.

(** C1 as stated fails for the local interface: a request for four cpus,
    memory and walltime launches the very command line of an empty request,
    so no flag text whatever is present exactly when cpus are requested. *)
Lemma local_command_ignores_request :
  let asked := set_resources 4 (Some "16G") (Some "1:00:00") sample_request in
  let plain := set_resources 1 None None sample_request in
  launch_command "local" 0 0 asked = Some "/bin/bash -q short.q" /\
  launch_command "local" 0 0 plain = Some "/bin/bash -q short.q" /\
  requested Cpu asked = true /\ requested Memory asked = true /\
  requested Walltime asked = true /\
  ~ (exists f : string, forall self cmd,
       launch_command "local" 0 0 self = Some cmd ->
       (contains f cmd = true <-> 1 < cpus self)).
Proof.
  cbv zeta. repeat split; try (vm_compute; reflexivity).
  intros [f H].
  pose proof (H (set_resources 4 (Some "16G") (Some "1:00:00") sample_request)
                _ eq_refl) as [_ Ha].
  pose proof (H (set_resources 1 None None sample_request) _ eq_refl) as [Hp _].
  change (bash (set_resources 1 None None sample_request))
    with (bash (set_resources 4 (Some "16G") (Some "1:00:00") sample_request)) in Hp.
  specialize (Ha ltac:(simpl; lia)). specialize (Hp Ha). simpl in Hp. lia.
Qed.

(** Why the caller's texts must not spell an option name: extra launch
    arguments are appended verbatim, so they can put a cpu option on a
    command line for which no cpus were requested. *)
Example flag_from_launch_args :
  let self := mkKernel None None false "pbs" 1 None None "smp" "ipython kernel"
                None None None None true ∅ None (Some "-l ncpus=8") "/home/u" None
                "~/.local/share/jupyter/runtime" ∅ in
  launch_command "pbs" 0 0 self = Some "qsub -I  -N ikernel_remote -l ncpus=8" /\
  requested Cpu self = false /\
  contains (marker "pbs" Cpu) "qsub -I  -N ikernel_remote -l ncpus=8" = true /\
  unambiguous "pbs" self = false.
Proof. cbv zeta. repeat split; vm_compute; reflexivity. Qed.

(** ** Reasoning about computations *)

Local Open Scope py_scope.

Lemma bind_run {A B} (m : M A) (k : A -> M B) s :
  bind m k s =
  match m s with
  | (Returned a, s') => k a s'
  | (Raised e, s') => (Raised e, s')
  | (Stuck, s') => (Stuck, s')
  end.
Proof. reflexivity. Qed.

(** A computation that returns normally ran both halves of a [bind]. *)
Lemma bind_returned {A B} (m : M A) (k : A -> M B) s b s' :
  bind m k s = (Returned b, s') ->
  exists a s1, m s = (Returned a, s1) /\ k a s1 = (Returned b, s').
Proof.
  rewrite bind_run. destruct (m s) as [[a|e|] s1]; try discriminate. eauto.
Qed.

(** The state of the script after one reply has been taken. *)
Definition served (r : reply) (rest : list reply) (s : state) : state :=
  on_env (fun w => set_alive (alive w ∖ list_to_set (exits r)) (set_tape rest w)) s.

Lemma external_served s r rest :
  tape (env s) = r :: rest -> external s = (Returned (ans r), served r rest s).
Proof. unfold external. intros ->. reflexivity. Qed.

Lemma external_returned s a s' :
  external s = (Returned a, s') ->
  exists r rest, tape (env s) = r :: rest /\ a = ans r /\ s' = served r rest s.
Proof.
  unfold external. destruct (tape (env s)) as [|r rest] eqn:E; [discriminate|].
  intros [= <- <-]. eauto.
Qed.

(** [R] relates the state before a computation to the state after it,
    however the computation ends. *)
Definition steps (R : state -> state -> Prop) {A} (m : M A) : Prop :=
  forall s, R s (snd (m s)).

(** A relation between states that computations can be followed along:
    a preorder that survives a reply being taken and an [allowed] event
    being recorded. *)
Record step_rel := mkStepRel {
  rel :> state -> state -> Prop;
  allowed : event -> Prop;
  rel_refl : forall s, rel s s;
  rel_trans : forall s1 s2 s3, rel s1 s2 -> rel s2 s3 -> rel s1 s3;
  rel_served : forall s r rest, tape (env s) = r :: rest -> rel s (served r rest s);
  rel_emit : forall s e,
    allowed e -> rel s (on_env (fun w => set_trace (trace w ++ [e]) w) s)
}.

Section Steps.

Variable R : step_rel.

Let R_refl := rel_refl R.
Let R_trans := rel_trans R.
Let R_served := rel_served R.
Let R_emit := rel_emit R.
Let allowed := allowed R.

Lemma steps_ret {A} (a : A) : steps R (ret a).
Proof. intros s. apply R_refl. Qed.

Lemma steps_raise {A} e : steps R (@raise A e).
Proof. intros s. apply R_refl. Qed.

Lemma steps_stuck {A} : steps R (@stuck A).
Proof. intros s. apply R_refl. Qed.

Lemma steps_lift {A} (o : outcome A) : steps R (lift o).
Proof. intros s. apply R_refl. Qed.

Lemma steps_gets {A} (f : state -> A) : steps R (gets f).
Proof. intros s. apply R_refl. Qed.

Lemma steps_bind {A B} (m : M A) (k : A -> M B) :
  steps R m -> (forall a, steps R (k a)) -> steps R (bind m k).
Proof.
  intros Hm Hk s. rewrite bind_run. specialize (Hm s).
  destruct (m s) as [[a|e|] s1]; simpl in *; auto.
  eapply R_trans; [exact Hm | apply Hk].
Qed.

Lemma steps_try {A} (m : M A) handler :
  steps R m -> (forall e h, handler e = Some h -> steps R h) ->
  steps R (try_except m handler).
Proof.
  intros Hm Hh s. unfold try_except. specialize (Hm s).
  destruct (m s) as [[a|e|] s1]; simpl in *; auto.
  destruct (handler e) as [h|] eqn:E; simpl; auto.
  eapply R_trans; [exact Hm | eapply Hh; eauto].
Qed.

Lemma steps_when b (m : M unit) : steps R m -> steps R (when b m).
Proof. destruct b; simpl; auto using steps_ret. Qed.

Lemma steps_if {A} (b : bool) (m1 m2 : M A) :
  steps R m1 -> steps R m2 -> steps R (if b then m1 else m2).
Proof. destruct b; auto. Qed.

Lemma steps_external : steps R external.
Proof.
  intros s. unfold external. destruct (tape (env s)) as [|r rest] eqn:E.
  - apply R_refl.
  - apply (R_served _ _ _ E).
Qed.

Lemma steps_emit e : allowed e -> steps R (emit e).
Proof. intros He s. apply R_emit, He. Qed.

Lemma steps_call m : steps R m -> steps R (call m).
Proof.
  intros Hm. apply steps_bind; [apply steps_external|].
  intros []; auto using steps_raise, steps_stuck.
Qed.

Lemma steps_sendline p l : allowed (SentLine p l) -> steps R (sendline p l).
Proof. intros. apply steps_call, steps_emit. assumption. Qed.

Lemma steps_sendline_bytes p l : steps R (sendline_bytes p l).
Proof. apply steps_raise. Qed.

Lemma steps_sendcontrol p c : allowed (SentControl p c) -> steps R (sendcontrol p c).
Proof. intros. apply steps_call, steps_emit. assumption. Qed.

Lemma steps_sleep z : allowed (Slept z) -> steps R (sleep z).
Proof. intros. apply steps_call, steps_emit. assumption. Qed.

Lemma steps_log l msg : allowed (Logged l msg) -> steps R (log l msg).
Proof. apply steps_emit. Qed.

Lemma steps_isalive p : (forall b, allowed (Polled p b)) -> steps R (isalive p).
Proof.
  intros H. apply steps_bind; [apply steps_external|].
  intros []; auto using steps_raise, steps_stuck.
  apply steps_bind; [apply steps_gets|]. intros b.
  apply steps_bind; [apply steps_emit, H|]. intros _. apply steps_ret.
Qed.

Lemma steps_read_nonblocking p : steps R (read_nonblocking p).
Proof.
  apply steps_bind; [apply steps_external|].
  intros []; auto using steps_raise, steps_stuck, steps_ret.
Qed.

Lemma steps_readlines p : steps R (readlines p).
Proof.
  apply steps_bind; [apply steps_external|].
  intros []; auto using steps_raise, steps_stuck, steps_ret.
Qed.

Lemma steps_expect p pat : steps R (expect p pat).
Proof.
  apply steps_bind; [apply steps_external|].
  intros []; auto using steps_raise, steps_stuck, steps_ret.
Qed.

Lemma steps_randint lo hi : steps R (randint lo hi).
Proof.
  apply steps_bind; [apply steps_external|].
  intros []; auto using steps_raise, steps_stuck, steps_ret.
  apply steps_if; auto using steps_stuck, steps_ret.
Qed.

Lemma steps_token_urlsafe : steps R token_urlsafe.
Proof.
  apply steps_bind; [apply steps_external|].
  intros []; auto using steps_raise, steps_stuck, steps_ret.
Qed.

Lemma steps_get_password prompt : allowed (Asked prompt) -> steps R (get_password prompt).
Proof.
  intros H. apply steps_bind; [apply steps_gets|]. intros [a|]; [|apply steps_raise].
  apply steps_bind; [apply steps_external|].
  intros []; auto using steps_raise, steps_stuck.
  apply steps_bind; [apply steps_emit, H|]. intros _. apply steps_ret.
Qed.

Lemma steps_first_group g : steps R (first_group g).
Proof. destruct g; [apply steps_raise | apply steps_ret]. Qed.

Lemma steps_port_values d names : steps R (port_values d names).
Proof.
  induction names as [|n names IH]; simpl; [apply steps_ret|].
  destruct (d !! n); [|apply steps_raise].
  apply steps_bind; [exact IH|]. intros. apply steps_ret.
Qed.

Hypothesis allow_asked : forall prompt, allowed (Asked prompt).

Lemma steps_check_password_loop fuel c : steps R (check_password_loop fuel c).
Proof.
  induction fuel as [|fuel IH]; [apply steps_stuck|]. simpl.
  apply steps_bind.
  { apply steps_try.
    - apply steps_bind; [apply steps_read_nonblocking|]. intros. apply steps_ret.
    - intros e h. destruct e; intros [= <-]. apply steps_ret. }
  intros [text|]; [|apply steps_ret].
  destruct (Re.search passphrase_pattern text) as [m|].
  - apply steps_bind; [apply steps_get_password, allow_asked|]. intros pw.
    apply steps_bind; [apply steps_sendline_bytes|]. intros _. exact IH.
  - destruct (Re.search password_pattern text) as [m|]; [|apply steps_ret].
    apply steps_bind; [apply steps_get_password, allow_asked|]. intros pw.
    apply steps_bind; [apply steps_sendline_bytes|]. intros _. exact IH.
Qed.

Lemma steps_check_password c : steps R (check_password c).
Proof. intros s. apply steps_check_password_loop. Qed.

Hypothesis allow_sent : forall p l, allowed (SentLine p l).
Hypothesis allow_logged_low : forall l msg, l <> ERROR -> allowed (Logged l msg).

Lemma steps_start_kernel : steps R start_kernel.
Proof.
  unfold start_kernel.
  apply steps_bind; [apply steps_gets|]. intros me.
  destruct (connection me) as [conn|]; [|apply steps_raise].
  repeat first
    [ apply steps_ret | apply steps_raise | apply steps_gets | apply steps_lift
    | apply steps_when | apply steps_expect
    | apply steps_sendline, allow_sent
    | apply steps_log, allow_logged_low; discriminate
    | apply steps_bind; [|intros ?]
    | match goal with
      | |- steps _ (match ?x with _ => _ end) => destruct x
      end ].
Qed.

Lemma steps_tunnel_cmd : steps R tunnel_cmd.
Proof.
  apply steps_bind; [apply steps_gets|]. intros me.
  destruct (host me) as [h|]; [|apply steps_raise].
  apply steps_bind.
  { destruct (has_char ":" h); [|apply steps_ret].
    apply steps_bind; [apply steps_lift|]. intros. apply steps_ret. }
  intros target. apply steps_bind; [|intros; apply steps_ret].
  apply steps_log, allow_logged_low. discriminate.
Qed.

End Steps.

(** ** Password prompts (C2) *)


Definition both_prompts : string :=
  "Enter passphrase for key '/home/u/.ssh/id_rsa': " +:+
  String Re.newline "user@login's password: ".

(** A chunk can match both patterns, for instance when two prompts arrive
    in one read. *)
Lemma both_patterns_match :
  Re.search passphrase_pattern both_prompts
    = Some ("Enter passphrase for key '/home/u/.ssh/id_rsa':", "") /\
  Re.search password_pattern both_prompts = Some ("user@login's password:", "").
Proof. split; vm_compute; reflexivity. Qed.

(** What [check_password] makes of a chunk it reads: the passphrase
    pattern is tried first. *)
Definition classified (text : string) : option string :=
  match Re.search passphrase_pattern text with
  | Some m => Some (fst m)
  | None => fst <$> Re.search password_pattern text
  end.

Lemma classified_prompts text : prompts text = true -> classified text <> None.
Proof.
  unfold prompts, classified.
  destruct (Re.search passphrase_pattern text) as [m|]; [discriminate|].
  destruct (Re.search password_pattern text) as [m|]; [discriminate|].
  rewrite !bool_decide_eq_false_2 by (intros H; apply H; reflexivity). discriminate.
Qed.

(** A prompt met with the helper at hand: the question is put, and the
    answer is refused by [sendline]. *)
Lemma check_password_prompted c s r1 r2 rest text secret :
  askpass (env s) <> None ->
  tape (env s) = r1 :: r2 :: rest ->
  ans r1 = Text text ->
  ans r2 = Text secret ->
  prompts text = true ->
  exists prompt s',
    classified text = Some prompt /\
    check_password c s = (Raised (TypeError "can't concat str to bytes"), s') /\
    obj s' = obj s /\
    trace (env s') = trace (env s) ++ [Asked prompt] /\
    tape (env s') = rest /\
    alive (env s') = alive (env s) ∖ list_to_set (exits r1) ∖ list_to_set (exits r2).
Proof.
  intros Hask Htape H1 H2 Hprompt.
  pose proof (classified_prompts text Hprompt) as Hsome.
  destruct (classified text) as [prompt|] eqn:Hc; [clear Hsome|congruence].
  exists prompt.
  destruct s as [o w]. destruct w as [tp tr np al fl ap cw dm ve fi lk].
  cbn [env tape askpass] in *. subst tp.
  destruct ap as [prog|]; [clear Hask|congruence].
  destruct r1 as [e1 a1], r2 as [e2 a2]. cbn [ans] in H1, H2. subst a1 a2.
  unfold check_password, classified in *. cbn [env tape length].
  cbn -[Re.search passphrase_pattern password_pattern difference list_to_set].
  destruct (Re.search passphrase_pattern text) as [m|].
  - injection Hc as <-. eexists. split; [reflexivity|]. split; [reflexivity|].
    repeat split; reflexivity.
  - destruct (Re.search password_pattern text) as [m|]; [|discriminate].
    injection Hc as <-. eexists. split; [reflexivity|]. split; [reflexivity|].
    repeat split; reflexivity.
Qed.


Definition prompted : state :=
  mkState sample_request
    (mkWorld [mkReply [] (Text both_prompts); mkReply [] (Text "hunter2");
              mkReply [] Done; mkReply [] (Throws TIMEOUT)]
       [] 7%nat {[ 3%nat ]} ∅ (Some "/usr/bin/ssh-askpass") "/home/u"
       (fun _ => "{}") "0.0" "kernel.py" ∅).


(** The prompt put to the helper in that run is the passphrase prompt. *)
Example prompted_for_passphrase :
  classified both_prompts = Some "Enter passphrase for key '/home/u/.ssh/id_rsa':" /\
  trace (env (snd (check_password 3%nat prompted)))
  = [Asked "Enter passphrase for key '/home/u/.ssh/id_rsa':"].
Proof. split; vm_compute; reflexivity. Qed.

(** ** Extracting the kernel UUID (C10) *)

Section Matching.

Lemma take_some c ing r m g :
  Re.take c ing r = Some (m, g) ->
  exists m' g', r = Some (m', g') /\ m = String c m' /\
                g = if ing then String c g' else g'.
Proof.
  destruct r as [[m' g']|]; [|discriminate]. simpl. intros [= <- <-]. eauto.
Qed.

(** The matcher only captures what the pattern allows. *)
Lemma match_here_captured re : forall ing s m g,
  Re.match_here re ing s = Some (m, g) -> captured re ing g.
Proof.
  induction re as [|it re IH]; intros ing s m g H.
  - simpl in H. injection H as <- <-. reflexivity.
  - destruct it as [k|k|k| |].
    + simpl in H. destruct s as [|c s]; [discriminate|].
      destruct (Re.accepts k c) eqn:Ek; [|discriminate].
      apply take_some in H as (m' & g' & H & -> & ->).
      apply IH in H. simpl. destruct ing; eauto.
    + cbn [Re.match_here] in H.
      set (star := fix star (s : string) : option Re.found :=
             match s with
             | String c s' =>
                 if Re.accepts k c then
                   match Re.take c ing (star s') with
                   | Some r => Some r
                   | None => Re.match_here re ing s
                   end
                 else Re.match_here re ing s
             | EmptyString => Re.match_here re ing s
             end) in H.
      revert m g H. induction s as [|c s IHs]; intros m g H.
      * simpl in H. apply IH in H. simpl. exists "", g.
        repeat split; [destruct ing; reflexivity | exact H].
      * cbn [star] in H. fold star in H.
        destruct (Re.accepts k c) eqn:Ek.
        -- destruct (Re.take c ing (star s)) as [[m1 g1]|] eqn:Et.
           ++ injection H as <- <-.
              apply take_some in Et as (m' & g' & Hs & -> & ->).
              apply IHs in Hs. simpl in Hs.
              destruct Hs as (cs & g2 & -> & Hcs & Hc).
              simpl. destruct ing.
              ** exists (String c cs), g2. repeat split; [|exact Hc].
                 simpl. rewrite Ek, Hcs. reflexivity.
              ** exists "", (cs +:+ g2). subst cs. repeat split. exact Hc.
           ++ apply IH in H. simpl. exists "", g.
              repeat split; [destruct ing; reflexivity | exact H].
        -- apply IH in H. simpl. exists "", g.
           repeat split; [destruct ing; reflexivity | exact H].
    + simpl in H. destruct s as [|c s].
      * apply IH in H. simpl. auto.
      * destruct (Re.accepts k c) eqn:Ek.
        -- destruct (Re.take c ing (Re.match_here re ing s)) as [[m1 g1]|] eqn:Et.
           ++ injection H as <- <-.
              apply take_some in Et as (m' & g' & Hs & -> & ->).
              apply IH in Hs. simpl. destruct ing.
              ** right. split; [reflexivity|]. eauto.
              ** left. exact Hs.
           ++ apply IH in H. simpl. auto.
        -- apply IH in H. simpl. auto.
    + simpl in H. apply IH in H. exact H.
    + simpl in H. apply IH in H. exact H.
Qed.

End Matching.

Section Digits.

Lemma digits_captured grp : forall rest g,
  Forall digit_or_hyphen grp ->
  captured (grp ++ rest) true g ->
  exists g1 g2, g = g1 +:+ g2 /\
    String.length (drop_hyphens g1) = count_ones grp /\
    (forall acc, int16 acc (drop_hyphens g1) <> None) /\
    captured rest true g2.
Proof.
  induction grp as [|it grp IH]; intros rest g Hok H.
  - exists "", g. repeat split; [discriminate | exact H].
  - apply Forall_cons in Hok as [Hit Hok].
    destruct it as [k|k|k| |]; simpl in Hit; try contradiction.
    + simpl in H. destruct H as (c & g' & -> & Hc & H).
      destruct (IH _ _ Hok H) as (g1 & g2 & -> & Hlen & Hint & Hrest).
      destruct (Hit c Hc) as [Hh Hv].
      exists (String c g1), g2. simpl. rewrite Hh. simpl.
      repeat split; [congruence | | exact Hrest].
      intros acc. destruct (hex_value c); [apply Hint | congruence].
    + simpl in H. destruct H as [H|[_ (c & g' & -> & Hc & H)]].
      * destruct (IH _ _ Hok H) as (g1 & g2 & -> & Hlen & Hint & Hrest).
        exists g1, g2. auto.
      * destruct (IH _ _ Hok H) as (g1 & g2 & -> & Hlen & Hint & Hrest).
        rewrite (Hit c Hc). exists (String "-" g1), g2. simpl. auto.
Qed.

Lemma has_char_cases c s :
  has_char c s = true -> exists p q, s = p +:+ String c q.
Proof.
  induction s as [|d s IH]; [discriminate|]. simpl.
  destruct (Ascii.eqb_spec c d) as [->|_]; simpl.
  - intros _. exists "", s. reflexivity.
  - intros H. destruct (IH H) as (p & q & ->). exists (String d p), q. reflexivity.
Qed.

Lemma hex_char c :
  has_char c "0123456789abcdef" = true -> Ascii.eqb c "-" = false /\ hex_value c <> None.
Proof.
  simpl. rewrite !orb_true_iff, !Ascii.eqb_eq.
  intros H. repeat destruct H as [H|H]; try discriminate.
  all: subst c; split; vm_compute; congruence.
Qed.

Lemma uuid_group_digits : Forall digit_or_hyphen uuid_group.
Proof.
  assert (Hhex : forall n, Forall digit_or_hyphen (Re.times n hex)).
  { intros n. apply Forall_forall. intros x Hx.
    apply list_elem_of_In, repeat_spec in Hx. subst x. exact hex_char. }
  unfold uuid_group. rewrite !Forall_app. repeat split; try apply Hhex.
  all: repeat (apply Forall_cons; split; [simpl; intros c Hc|]); try apply Forall_nil.
  all: try (apply Ascii.eqb_eq in Hc; subst c; try reflexivity;
            split; vm_compute; congruence).
  all: try exact I.
  rewrite !orb_true_iff, !Ascii.eqb_eq in Hc.
  repeat destruct Hc as [Hc|Hc]; try discriminate.
  all: subst c; split; vm_compute; congruence.
Qed.

(** Whatever the pattern of [get_uuid] captures is read by [UUID]. *)
Lemma captured_uuid_reads name m g :
  Re.match_ uuid_pattern name = Some (m, g) -> exists n, UUID g = Returned n.
Proof.
  intros H. apply match_here_captured in H.
  unfold uuid_pattern in H. cbn -[uuid_group] in H.
  destruct H as (cs & g' & -> & -> & H).
  change (String.append "" g') with g'.
  apply digits_captured in H; [|exact uuid_group_digits].
  destruct H as (g1 & g2 & -> & Hlen & Hint & H).
  simpl in H. subst g2. rewrite append_nil_r.
  unfold UUID. rewrite Hlen. change (count_ones uuid_group) with 32%nat.
  rewrite Nat.eqb_refl. specialize (Hint 0%N).
  destruct (int16 0 (drop_hyphens g1)) as [n|]; [eauto | congruence].
Qed.

End Digits.

Section Embedded.

Lemma takes_some a ing m g :
  takes a ing (Some (m, g)) = Some (a +:+ m, if ing then a +:+ g else g).
Proof.
  induction a as [|c a IH]; simpl.
  - destruct ing; reflexivity.
  - rewrite IH. simpl. destruct ing; reflexivity.
Qed.

Lemma match_lit a re ing s :
  Re.match_here (Re.lit a ++ re) ing (a +:+ s) = takes a ing (Re.match_here re ing s).
Proof.
  induction a as [|c a IH]; [reflexivity|].
  rewrite append_cons. simpl. rewrite Ascii.eqb_refl, IH. reflexivity.
Qed.

Lemma match_run k n : forall a re ing s,
  run_of k n a = true ->
  Re.match_here (Re.times n k ++ re) ing (a +:+ s) = takes a ing (Re.match_here re ing s).
Proof.
  unfold run_of. induction n as [|n IH]; intros a re ing s H.
  - destruct a; [reflexivity|discriminate].
  - destruct a as [|c a]; [discriminate|].
    simpl in H. apply andb_true_iff in H as [Hn H].
    apply andb_true_iff in H as [Hc Ha].
    rewrite append_cons. simpl. rewrite Hc, IH; [reflexivity|].
    rewrite Hn, Ha. reflexivity.
Qed.

Lemma match_one k c re ing s :
  Re.accepts k c = true ->
  Re.match_here (Re.One k :: re) ing (String c s) = Re.take c ing (Re.match_here re ing s).
Proof. intros H. simpl. rewrite H. reflexivity. Qed.

Lemma match_opt_taken k c re ing s r :
  Re.accepts k c = true ->
  Re.take c ing (Re.match_here re ing s) = Some r ->
  Re.match_here (Re.Opt k :: re) ing (String c s) = Some r.
Proof. intros H Hr. simpl. rewrite H, Hr. reflexivity. Qed.

Lemma has_char_all_chars P c a :
  all_chars P a = true -> P c = false -> has_char c a = false.
Proof.
  intros Ha Hc. induction a as [|d a IH]; [reflexivity|].
  simpl in *. apply andb_true_iff in Ha as [Hd Ha].
  rewrite IH by exact Ha. destruct (Ascii.eqb_spec c d) as [->|]; [congruence|reflexivity].
Qed.

Lemma run_of_chars k n a : run_of k n a = true -> all_chars (Re.accepts k) a = true.
Proof. unfold run_of. intros H. apply andb_true_iff in H as [_ H]. exact H. Qed.

(** [.*] followed by a literal character gives up on a text without it. *)
Lemma star_misses k c re ing s :
  has_char c s = false ->
  Re.match_here (Re.Star k :: Re.One (Re.Chr c) :: re) ing s = None.
Proof.
  induction s as [|d s IH]; intros H; [reflexivity|].
  simpl in H. apply orb_false_iff in H as [Hd H]. specialize (IH H).
  cbn [Re.match_here] in IH |- *. cbn [Re.match_here]. rewrite IH.
  assert (Hn : Re.accepts (Re.Chr c) d = false).
  { simpl. rewrite Ascii.eqb_sym. exact Hd. }
  rewrite Hn. simpl. destruct (Re.accepts k d); reflexivity.
Qed.

(** Greedy [.*] keeps a match found further to the right. *)
Lemma star_keeps dir re ing t r :
  all_chars (Re.accepts Re.Dot) dir = true ->
  Re.match_here (Re.Star Re.Dot :: re) ing t = Some r ->
  Re.match_here (Re.Star Re.Dot :: re) ing (dir +:+ t) = takes dir ing (Some r).
Proof.
  intros Hd Ht. induction dir as [|c dir IH]; [exact Ht|].
  cbn [all_chars] in Hd. apply andb_true_iff in Hd as [Hc Hd]. specialize (IH Hd).
  rewrite append_cons. cbn [Re.match_here] in IH |- *. cbn [takes].
  rewrite Hc, IH. destruct r as [m g]. rewrite takes_some. reflexivity.
Qed.

End Embedded.

Section GetUuid.

Lemma run_then k n a re s m g :
  run_of k n a = true ->
  Re.match_here re true s = Some (m, g) ->
  Re.match_here (Re.times n k ++ re) true (a +:+ s) = Some (a +:+ m, a +:+ g).
Proof. intros Ha Hr. rewrite (match_run _ _ _ _ _ _ Ha), Hr, takes_some. reflexivity. Qed.

Lemma one_then k c re s m g :
  Re.accepts k c = true ->
  Re.match_here re true s = Some (m, g) ->
  Re.match_here (Re.One k :: re) true (String c s) = Some (String c m, String c g).
Proof. intros Hc Hr. rewrite (match_one _ _ _ _ _ Hc), Hr. reflexivity. Qed.

Lemma opt_then k c re s m g :
  Re.accepts k c = true ->
  Re.match_here re true s = Some (m, g) ->
  Re.match_here (Re.Opt k :: re) true (String c s) = Some (String c m, String c g).
Proof. intros Hc Hr. apply match_opt_taken; [exact Hc|]. rewrite Hr. reflexivity. Qed.

Lemma group_matches a b c v d e :
  uuid4_shape a b c v d e = true ->
  Re.match_here (uuid_group ++ [Re.Close; Re.One Re.Dot] ++ Re.lit "json") true
    (uuid4_text a b c v d e +:+ ".json")
  = Some (uuid4_text a b c v d e +:+ ".json", uuid4_text a b c v d e).
Proof.
  unfold uuid4_shape. rewrite !andb_true_iff.
  intros [[[[[Ha Hb] Hc] Hv] Hd] He].
  assert (H0 : Re.match_here ([Re.Close; Re.One Re.Dot] ++ Re.lit "json") true ".json"
               = Some (".json", "")) by reflexivity.
  pose proof (run_then _ _ _ _ _ _ _ He H0) as H1.
  pose proof (opt_then (Re.Chr "-") "-" _ _ _ _ eq_refl H1) as H2.
  pose proof (run_then _ _ _ _ _ _ _ Hd H2) as H3.
  pose proof (one_then _ _ _ _ _ _ Hv H3) as H4.
  pose proof (opt_then (Re.Chr "-") "-" _ _ _ _ eq_refl H4) as H5.
  pose proof (run_then _ _ _ _ _ _ _ Hc H5) as H6.
  pose proof (one_then (Re.Chr "4") "4" _ _ _ _ eq_refl H6) as H7.
  pose proof (opt_then (Re.Chr "-") "-" _ _ _ _ eq_refl H7) as H8.
  pose proof (run_then _ _ _ _ _ _ _ Hb H8) as H9.
  pose proof (opt_then (Re.Chr "-") "-" _ _ _ _ eq_refl H9) as H10.
  pose proof (run_then _ _ _ _ _ _ _ Ha H10) as H11.
  unfold uuid4_text. rewrite ?append_assoc, ?append_cons, ?append_nil_l.
  rewrite ?append_assoc, ?append_cons, ?append_nil_l, ?append_nil_r in H11.
  exact H11.
Qed.

(** The pattern finds the UUID of a file named [kernel-<uuid>.json], in any
    directory whose name has no line break. *)
Lemma pattern_finds_uuid dir a b c v d e :
  all_chars (Re.accepts Re.Dot) dir = true ->
  uuid4_shape a b c v d e = true ->
  exists m,
    Re.match_ uuid_pattern (dir +:+ "kernel-" +:+ uuid4_text a b c v d e +:+ ".json")
    = Some (m, uuid4_text a b c v d e).
Proof.
  intros Hdir Hu.
  pose proof (group_matches _ _ _ _ _ _ Hu) as Hg.
  set (u := uuid4_text a b c v d e) in *.
  set (inner := uuid_group ++ [Re.Close; Re.One Re.Dot] ++ Re.lit "json") in *.
  assert (Hk : Re.match_here (Re.lit "kernel-" ++ Re.Open :: inner) false
                 ("kernel-" +:+ u +:+ ".json")
               = Some ("kernel-" +:+ u +:+ ".json", u)).
  { rewrite match_lit. cbn [Re.match_here]. rewrite Hg, takes_some. reflexivity. }
  assert (Hnok : has_char "k" ("ernel-" +:+ u +:+ ".json") = false).
  { unfold uuid4_shape in Hu. rewrite !andb_true_iff in Hu.
    destruct Hu as [[[[[Ha Hb] Hc] Hv] Hd] He].
    assert (Hh : forall n x, run_of hex n x = true -> has_char "k" x = false).
    { intros n x Hx. eapply has_char_all_chars; [eapply run_of_chars, Hx|reflexivity]. }
    assert (Hvk : Ascii.eqb "k" v = false).
    { destruct (Ascii.eqb_spec "k" v) as [<-|]; [discriminate Hv|reflexivity]. }
    subst u. unfold uuid4_text.
    repeat first [rewrite has_char_app | rewrite has_char_cons].
    rewrite (Hh _ _ Ha), (Hh _ _ Hb), (Hh _ _ Hc), (Hh _ _ Hd), (Hh _ _ He), Hvk.
    reflexivity. }
  assert (Hstar : Re.match_here (Re.Star Re.Dot :: Re.lit "kernel-" ++ Re.Open :: inner)
                    false ("kernel-" +:+ u +:+ ".json")
                  = Some ("kernel-" +:+ u +:+ ".json", u)).
  { pose proof (star_misses Re.Dot "k" (Re.lit "ernel-" ++ Re.Open :: inner) false _ Hnok)
      as Hmiss.
    change ("kernel-" +:+ u +:+ ".json") with (String "k" ("ernel-" +:+ u +:+ ".json")).
    change (Re.lit "kernel-" ++ Re.Open :: inner)
      with (Re.One (Re.Chr "k") :: Re.lit "ernel-" ++ Re.Open :: inner) in *.
    cbn [Re.match_here] in Hmiss |- *.
    change (Re.accepts Re.Dot "k") with true. cbn iota.
    rewrite Hmiss. cbn [Re.take]. exact Hk. }
  unfold Re.match_, uuid_pattern.
  change ([Re.Star Re.Dot] ++ Re.lit "kernel-" ++ [Re.Open] ++ uuid_group ++
          [Re.Close; Re.One Re.Dot] ++ Re.lit "json")
    with (Re.Star Re.Dot :: Re.lit "kernel-" ++ Re.Open :: inner).
  rewrite (star_keeps _ _ _ _ _ Hdir Hstar), takes_some. eauto.
Qed.

Lemma uuid4_is_version4 random : is_version4 (uuid4 random).
Proof.
  unfold is_version4, version, uuid4. repeat split.
  - rewrite N.lor_spec, N.ldiff_spec, N.lor_spec.
    change (N.testbit (N.shiftl 32768 48) 63) with true.
    rewrite orb_true_r. reflexivity.
  - rewrite N.lor_spec, N.ldiff_spec, N.lor_spec, N.ldiff_spec.
    change (N.testbit (N.shiftl 49152 48) 62) with true.
    rewrite andb_false_r. reflexivity.
  - apply N.bits_inj. intros i.
    rewrite N.land_spec, N.shiftr_spec', N.lor_spec, N.ldiff_spec.
    destruct (N.ltb_spec i 4) as [Hi|Hi].
    + assert (i = 0 \/ i = 1 \/ i = 2 \/ i = 3)%N as [-> | [-> | [-> | ->]]] by lia.
      all: cbn [N.add Pos.add Pos.succ].
      all: match goal with
           | |- context [N.testbit (N.shiftl 61440 64) ?k] =>
               change (N.testbit (N.shiftl 61440 64) k) with true
           end.
      all: rewrite andb_false_r; reflexivity.
    + assert (N.testbit 15 i = false) as ->.
      { apply (N.bits_above_log2 15 i). change (N.log2 15) with 3%N. lia. }
      assert (N.testbit 4 i = false) as ->.
      { apply (N.bits_above_log2 4 i). change (N.log2 4) with 2%N. lia. }
      rewrite andb_false_r. reflexivity.
Qed.

(** C10 (as amended).  [get_uuid] always returns a UUID, never [None] and
    never an exception.  For a file named [kernel-<uuid>.json], with
    [<uuid>] a version-4 UUID in lowercase hyphenated form, in a directory
    whose name has no line break, it returns the UUID that text denotes.
    Whenever the pattern does not match, in particular for [None], it returns
    a fresh version-4 UUID made from the random bytes. *)
Theorem get_uuid_total random :
  (forall filename, exists u, get_uuid random filename = Returned u) /\
  (forall dir a b c v d e,
     all_chars (Re.accepts Re.Dot) dir = true ->
     uuid4_shape a b c v d e = true ->
     get_uuid random (Some (dir +:+ "kernel-" +:+ uuid4_text a b c v d e +:+ ".json"))
     = UUID (uuid4_text a b c v d e)) /\
  (forall filename,
     (filename = None \/
      exists name, filename = Some name /\ Re.match_ uuid_pattern name = None) ->
     get_uuid random filename = Returned (uuid4 random) /\ is_version4 (uuid4 random)).
Proof.
  repeat split.
  - intros [name|]; simpl; [|eauto].
    destruct (Re.match_ uuid_pattern name) as [[m g]|] eqn:E; [|eauto].
    apply captured_uuid_reads in E. exact E.
  - intros dir a b c v d e Hdir Hu.
    destruct (pattern_finds_uuid dir a b c v d e Hdir Hu) as [m Hm].
    unfold get_uuid. rewrite Hm. reflexivity.
  - destruct H as [->|(name & -> & Hn)]; simpl; [|rewrite Hn]; reflexivity.
  - apply uuid4_is_version4.
  - apply uuid4_is_version4.
  - apply uuid4_is_version4.
Qed.

Lemma get_uuid_total_witness :
  get_uuid 0 (Some "/run/user/1000/jupyter/kernel-0123abcd-89ab-4def-8123-456789abcdef.json")
  = UUID "0123abcd-89ab-4def-8123-456789abcdef" /\
  UUID "0123abcd-89ab-4def-8123-456789abcdef" = Returned 0x0123abcd89ab4def8123456789abcdef%N /\
  get_uuid 7 None = Returned (uuid4 7).
Proof.
  split; [|split].
  - apply (proj1 (proj2 (get_uuid_total 0)) "/run/user/1000/jupyter/"
             "0123abcd" "89ab" "def" "8"%char "123" "456789abcdef");
      vm_compute; reflexivity.
  - vm_compute. reflexivity.
  - apply (proj2 (proj2 (get_uuid_total 7)) None). left. reflexivity.
Defined.

(** C10 as stated fails: a line break in the directory name hides the
    embedded UUID from the pattern, and a fresh one is returned. *)
Lemma get_uuid_line_break :
  let name := "/tmp/a" +:+ String Re.newline
              "b/kernel-0123abcd-89ab-4def-8123-456789abcdef.json" in
  get_uuid 0 (Some name) = Returned (uuid4 0) /\
  uuid4 0 <> 0x0123abcd89ab4def8123456789abcdef%N.
Proof. split; vm_compute; congruence. Qed.

End GetUuid.

(** ** Traces *)

(** Between [s] and [s'] only events satisfying [P] were recorded. *)
Definition adds_only (P : event -> Prop) (s s' : state) : Prop :=
  exists d, trace (env s') = trace (env s) ++ d /\ Forall P d.

Lemma adds_only_refl P s : adds_only P s s.
Proof. exists []. rewrite app_nil_r. auto. Qed.

Lemma adds_only_trans P s1 s2 s3 :
  adds_only P s1 s2 -> adds_only P s2 s3 -> adds_only P s1 s3.
Proof.
  intros (d1 & H1 & F1) (d2 & H2 & F2). exists (d1 ++ d2).
  rewrite H2, H1, app_assoc. split; [reflexivity|]. apply Forall_app. auto.
Qed.

Lemma adds_only_quiet P s s' : trace (env s') = trace (env s) -> adds_only P s s'.
Proof. intros H. exists []. rewrite app_nil_r. auto. Qed.

Definition adding (P : event -> Prop) : step_rel.
Proof.
  refine (mkStepRel (adds_only P) P (adds_only_refl P) (adds_only_trans P) _ _).
  - intros s r rest _. apply adds_only_quiet. reflexivity.
  - intros s e He. exists [e]. split; [reflexivity|]. apply Forall_cons. auto.
Defined.

Section Adding.

Variable P : event -> Prop.
Hypothesis P_spawned : forall p c, P (Spawned p c).
Hypothesis P_sent : forall p l, P (SentLine p l).
Hypothesis P_asked : forall prompt, P (Asked prompt).
Hypothesis P_polled : forall p b, P (Polled p b).
Hypothesis P_low : forall l msg, l <> ERROR -> P (Logged l msg).

Lemma adding_modify f :
  (forall s, trace (env (f s)) = trace (env s)) -> steps (adding P) (modify f).
Proof. intros H s. apply adds_only_quiet, H. Qed.

Lemma adding_fresh : steps (adding P) fresh.
Proof.
  apply steps_bind; [apply steps_gets|]. intros p.
  apply steps_bind; [apply adding_modify; reflexivity|]. intros _. apply steps_ret.
Qed.

Lemma adding_spawn c : steps (adding P) (pexpect_spawn c).
Proof.
  apply steps_bind; [apply steps_external|].
  intros []; try apply steps_raise; try apply steps_stuck.
  apply steps_bind; [apply adding_fresh|]. intros p.
  apply steps_bind; [apply steps_emit, P_spawned|]. intros _. apply steps_ret.
Qed.

Lemma adding_tunnel_connection : steps (adding P) tunnel_connection.
Proof.
  unfold tunnel_connection.
  repeat first
    [ apply steps_ret | apply steps_gets | apply steps_lift
    | apply adding_spawn
    | apply steps_tunnel_cmd, P_low
    | apply steps_check_password, P_asked
    | apply steps_port_values
    | apply steps_sendline, P_sent
    | apply steps_log, P_low; discriminate
    | apply adding_modify; reflexivity
    | apply steps_bind; [|intros ?] ].
Qed.

Lemma adding_check_tunnels : steps (adding P) check_tunnels.
Proof.
  apply steps_bind; [apply steps_gets|]. intros me.
  destruct (tunnels me !! "tunnel") as [t|]; [|apply steps_raise].
  apply steps_bind; [apply steps_isalive, P_polled|]. intros [|]; [apply steps_ret|].
  apply steps_bind; [apply steps_log, P_low; discriminate|]. intros _.
  apply adding_tunnel_connection.
Qed.

End Adding.

(** ** The keep-alive loop (C4) *)

(** The supervisor has found the session dead. *)
Definition died : event := Logged ERROR "Kernel died.".

Definition not_died (e : event) : Prop := e <> died.

Definition is_interrupt (e : event) : Prop := exists p c, e = SentControl p c.

Definition calm (e : event) : Prop := ~ is_interrupt e.

(** First events other than [died], then events other than interrupts. *)
Definition winds_down (s s' : state) : Prop :=
  exists d1 d2, trace (env s') = trace (env s) ++ d1 ++ d2 /\
                Forall not_died d1 /\ Forall calm d2.

Lemma winds_down_after s1 s2 s3 :
  adds_only not_died s1 s2 -> winds_down s2 s3 -> winds_down s1 s3.
Proof.
  intros (d & H & F) (d1 & d2 & H' & F1 & F2). exists (d ++ d1), d2.
  rewrite H', H, !app_assoc. repeat split; auto. apply Forall_app. auto.
Qed.

Lemma winds_down_exit s1 s2 s3 :
  adds_only not_died s1 s2 -> adds_only calm s2 s3 -> winds_down s1 s3.
Proof.
  intros (d & H & F) (d2 & H' & F2). exists d, d2.
  rewrite H', H, !app_assoc. auto.
Qed.

Lemma winds_down_still s1 s2 : adds_only not_died s1 s2 -> winds_down s1 s2.
Proof. intros H. eapply winds_down_exit; [exact H | apply adds_only_refl]. Qed.

Lemma log_lines_calm lines : steps (adding calm) (log_lines lines).
Proof.
  induction lines as [|l lines IH]; cbn [log_lines]; [apply steps_ret|].
  apply steps_bind; [|intros _; exact IH].
  apply steps_when, steps_log. intros (p & c & H). discriminate.
Qed.

Lemma keep_alive_loop_winds_down fuel conn : forall s,
  winds_down s (snd (keep_alive_loop fuel conn s)).
Proof.
  assert (Hlow : forall l msg, l <> ERROR -> not_died (Logged l msg)).
  { intros l msg Hl H. injection H as -> _. congruence. }
  induction fuel as [|fuel IH]; intros s.
  - apply winds_down_still, adds_only_refl.
  - cbn [keep_alive_loop]. rewrite bind_run.
    pose proof (steps_isalive (adding not_died) conn
                  ltac:(intros b; discriminate) s) as Hpoll.
    destruct (isalive conn s) as [[up|e|] s1]; simpl in Hpoll;
      try solve [apply winds_down_still; exact Hpoll].
    destruct up; cbn [negb].
    + rewrite bind_run.
      pose proof (adding_check_tunnels not_died
                    ltac:(discriminate) ltac:(discriminate) ltac:(discriminate)
                    ltac:(discriminate) Hlow s1) as Hct.
      destruct (check_tunnels s1) as [[[]|e|] s2]; simpl in Hct;
        try solve [apply winds_down_still; eapply adds_only_trans; eauto].
      rewrite bind_run.
      match goal with
      | |- context [try_except ?m ?h s2] =>
          assert (Hread : steps (adding not_died) (try_except m h))
      end.
      { apply steps_try.
        - apply steps_bind; [apply steps_readlines|]. intros. apply steps_ret.
        - intros e h. destruct e; intros [= <-]; [apply steps_ret|].
          apply steps_bind; [apply steps_log, Hlow; discriminate|]. intros _.
          apply steps_sendcontrol. discriminate. }
      specialize (Hread s2).
      match goal with
      | |- context [try_except ?m ?h s2] =>
          destruct (try_except m h s2) as [[[]|e|] s3]
      end; simpl in Hread;
        try solve [apply winds_down_still; eauto using adds_only_trans].
      eapply winds_down_after; [|apply IH].
      eauto using adds_only_trans.
    + eapply winds_down_exit; [exact Hpoll|].
      match goal with
      | |- adds_only _ _ (snd (?m s1)) => assert (Hexit : steps (adding calm) m)
      end.
      { apply steps_bind; [apply steps_log; intros (p & c & H); discriminate|].
        intros _. apply steps_bind; [apply steps_readlines|]. intros lines.
        apply log_lines_calm. }
      apply Hexit.
Qed.

(** C4.  In any run of [keep_alive], whatever the environment does, no
    interrupt is delivered after the supervisor has found the session dead
    (the [died] record): every event recorded after it is something other
    than a [sendcontrol].  Once [keep_alive] has returned or raised, it
    records nothing at all. *)
Theorem no_interrupt_after_exit timeout s :
  exists new, trace (env (snd (keep_alive timeout s))) = trace (env s) ++ new /\
    forall before after, new = before ++ died :: after -> Forall calm after.
Proof.
  assert (H : winds_down s (snd (keep_alive timeout s))).
  { unfold keep_alive. rewrite bind_run. cbn [self gets].
    destruct (connection (obj s)) as [conn|];
      [|apply winds_down_still, adds_only_refl].
    rewrite bind_run.
    pose proof (steps_sleep (adding not_died) (1000 * timeout)
                  ltac:(discriminate) s) as Hs.
    destruct (sleep (1000 * timeout) s) as [[[]|e|] s1]; simpl in Hs;
      try solve [apply winds_down_still; exact Hs].
    eapply winds_down_after; [exact Hs|]. apply keep_alive_loop_winds_down. }
  destruct H as (d1 & d2 & Ht & F1 & F2).
  exists (d1 ++ d2). split; [exact Ht|].
  intros before after Hsplit.
  apply app_eq_app in Hsplit as [l [[Hd1 Hd]|[_ Hd2]]].
  - (* the record would lie in [d1] *)
    destruct l as [|x l].
    + simpl in Hd. rewrite <- Hd in F2. apply Forall_cons in F2 as [_ F2]. exact F2.
    + injection Hd as <- _. rewrite Hd1 in F1. apply Forall_app in F1 as [_ F1].
      apply Forall_cons in F1 as [F1 _]. exfalso. apply F1. reflexivity.
  - (* the record lies in [d2] *)
    rewrite Hd2 in F2. apply Forall_app in F2 as [_ F2].
    apply Forall_cons in F2 as [_ F2]. exact F2.
Qed.

(** ** Runs on concrete scripts (C5, C6, C8) *)

Definition ok : reply := mkReply [] Done.

Definition script (tape : list reply) : world :=
  mkWorld tape [] 100%nat ∅ ∅ (Some "/usr/bin/ssh-askpass") "/home/u"
    (fun _ => "{}") "0.0" "kernel.py" ∅.

Definition nobody : RemoteIKernel :=
  mkKernel None None false "" 1 None None "" "" None None None None false ∅ None None
    "" None "" ∅.

Definition five_ports : gmap string pyval :=
  {[ "hb_port" := PyInt 5001; "shell_port" := PyInt 5002; "iopub_port" := PyInt 5003;
     "stdin_port" := PyInt 5004; "control_port" := PyInt 5005 ]}.

(** A launched kernel: session process 1, tunnel process 2, both alive. *)
Definition launched (tape : list reply) : state :=
  mkState
    (mkKernel None None false "ssh" 1 None None "smp" "ipython kernel"
       (Some "node7") (Some ["gate:2222"]) (Some 1%nat) None true
       {[ "tunnel" := 2%nat ]} None None
       "/home/u" None "~/.local/share/jupyter/runtime" five_ports)
    (mkWorld tape [] 3%nat {[ 1%nat; 2%nat ]} ∅ (Some "/usr/bin/ssh-askpass")
       "/home/u" (fun _ => "{}") "0.0" "kernel.py" ∅).

(** An interrupt that arrives while [readlines] is waiting is passed on, and
    the loop goes on until the session has exited. *)
Example interrupt_while_reading :
  let s := launched [ok; ok; ok; mkReply [] (Throws KeyboardInterrupt); ok;
                     mkReply [1%nat] Done; mkReply [] (Lines ["bye"])] in
  fst (keep_alive 5 s) = Returned tt /\
  trace (env (snd (keep_alive 5 s))) =
    [Slept 5000; Polled 1%nat true; Polled 2%nat true;
     Logged INFO "Caught interrupt; sending to kernel."; SentControl 1%nat "c";
     Polled 1%nat false; died; Logged ERROR "bye"].
Proof. split; vm_compute; reflexivity. Qed.

(** C5: the same interrupt arriving while the tunnel is being polled, or
    during the initial sleep, ends the supervisor: [keep_alive] raises
    [KeyboardInterrupt], nothing is sent to the session, and the session is
    still alive.  With the local interface, which stores no tunnel, the loop
    ends on a [KeyError] at its first turn. *)
Theorem interrupt_outside_read_ends_supervisor :
  let polling := launched [ok; ok; mkReply [] (Throws KeyboardInterrupt); ok; ok] in
  let sleeping := launched [mkReply [] (Throws KeyboardInterrupt); ok; ok] in
  let local := on_obj (set_tunnels ∅) (launched [ok; ok; ok; ok]) in
  (fst (keep_alive 5 polling) = Raised KeyboardInterrupt /\
   trace (env (snd (keep_alive 5 polling))) = [Slept 5000; Polled 1%nat true] /\
   bool_decide (1%nat ∈ alive (env (snd (keep_alive 5 polling)))) = true) /\
  (fst (keep_alive 5 sleeping) = Raised KeyboardInterrupt /\
   trace (env (snd (keep_alive 5 sleeping))) = [] /\
   bool_decide (1%nat ∈ alive (env (snd (keep_alive 5 sleeping)))) = true) /\
  (fst (keep_alive 5 local) = Raised (KeyError "tunnel") /\
   trace (env (snd (keep_alive 5 local))) = [Slept 5000; Polled 1%nat true] /\
   bool_decide (1%nat ∈ alive (env (snd (keep_alive 5 local)))) = true).
Proof. cbv zeta. repeat split; vm_compute; reflexivity. Qed.

Definition ssh_without_host : Args.t :=
  Args.make None ∅ "ssh" 1 None None "smp" "ipython kernel" None true None None None
    false None None None.

(** C6: with the ssh interface and no host, [__init__] raises nothing
    before spawning: the sftp helper is started, then an [ssh] whose target
    is the text [None]; the launch goes on through [start_kernel] and only
    fails, with a [TypeError], when the tunnel command is built.  Installing
    the same kernel through [add_kernel] is refused at once. *)
Theorem ssh_without_host_spawns :
  let s := mkState nobody
             (script ([mkReply [] (Number 1); mkReply [] (Number 2);
                       mkReply [] (Text "tok"); ok; ok; ok;
                       mkReply [] (Throws TIMEOUT)] ++ repeat ok 6 ++
                      [mkReply [] (Groups [])] ++ repeat ok 2)) in
  fst (__init__ ssh_without_host s)
    = Raised (TypeError "argument of type 'NoneType' is not iterable") /\
  List.filter starts_process
    (trace (env (snd (__init__ ssh_without_host s)))) =
    [Popened 100%nat ["ncat"; "-l"; "-p"; "35002"; "-e";
                      "/usr/lib/openssh/sftp-server -d /home/u"];
     Spawned 101%nat "ssh -R 34001:localhost:35002 -o StrictHostKeyChecking=no  None";
     Spawned 102%nat "ssh -o StrictHostKeyChecking=no None"] /\
  add_kernel_host_check (Args.interface ssh_without_host) (Args.host ssh_without_host)
    = Raised (KeyError "A host is required for ssh.").
Proof. cbv zeta. repeat split; vm_compute; reflexivity. Qed.

Definition own_connection_file : Args.t :=
  Args.make (Some "/run/user/1000/kernel-42.json") {[ "hb_port" := PyInt 5001 ]}
    "local" 1 None None "smp" "ipython kernel" None true None None None false None
    None None.

Definition after_init : state :=
  snd (__init__ own_connection_file
         (mkState nobody (script [ok; ok; ok; ok; mkReply [] (Groups [])]))).

Definition on_disk (path : string) (s : state) : bool :=
  bool_decide (is_Some (files (env s) !! path)).

(** C8: the class body defines [__del__] twice, and the name ends up bound
    to the second definition, which only stops the sftp helper.  A
    connection file the launcher created itself ([_delcf] set) is therefore
    still on disk after the object is destroyed; the first definition, which
    is never called, would have removed it. *)
Theorem connection_file_outlives_object :
  __del__ = __del__second /\
  _delcf (obj after_init) = true /\
  on_disk "/run/user/1000/kernel-42.json" after_init = true /\
  fst (__del__ after_init) = Returned tt /\
  on_disk "/run/user/1000/kernel-42.json" (snd (__del__ after_init)) = true /\
  on_disk "/run/user/1000/kernel-42.json" (snd (__del__first after_init)) = false.
Proof. repeat split; vm_compute; reflexivity. Qed.

(** ** The local interface never tunnels (C9) *)

(** Between [s] and [s'] the stored tunnels are untouched, a tunnel flag
    that is off stays off, the session once spawned stays the same, and the
    only process spawned, if any, is the session itself. *)
Definition keeps (s s' : state) : Prop :=
  tunnels (obj s') = tunnels (obj s) /\
  (tunnel (obj s) = false -> tunnel (obj s') = false) /\
  (connection (obj s) <> None -> connection (obj s') = connection (obj s)) /\
  exists d, trace (env s') = trace (env s) ++ d /\
    forall p c, In (Spawned p c) d ->
      connection (obj s) = None /\ connection (obj s') = Some p.

Definition not_spawn (e : event) : Prop := forall p c, e <> Spawned p c.

Lemma keeps_quiet s s' :
  obj s' = obj s -> trace (env s') = trace (env s) -> keeps s s'.
Proof.
  intros Ho Ht. unfold keeps. rewrite Ho. repeat split; auto.
  exists []. rewrite app_nil_r. split; [exact Ht|]. intros p c [].
Qed.

Lemma keeps_refl s : keeps s s.
Proof. apply keeps_quiet; reflexivity. Qed.

Lemma keeps_trans s1 s2 s3 : keeps s1 s2 -> keeps s2 s3 -> keeps s1 s3.
Proof.
  intros (T1 & F1 & C1 & d1 & H1 & S1) (T2 & F2 & C2 & d2 & H2 & S2).
  unfold keeps. repeat split.
  - congruence.
  - auto.
  - intros Hc. rewrite C2, C1; auto. rewrite C1; auto.
  - exists (d1 ++ d2). rewrite H2, H1, app_assoc. split; [reflexivity|].
    intros p c Hin. apply in_app_or in Hin as [Hin|Hin].
    + destruct (S1 p c Hin) as [Hn Hs]. split; [exact Hn|].
      rewrite C2; [exact Hs|]. rewrite Hs. discriminate.
    + destruct (S2 p c Hin) as [Hn Hs]. split; [|exact Hs].
      destruct (connection (obj s1)) as [q|] eqn:E; [|reflexivity].
      rewrite C1 in Hn; [exact Hn | discriminate].
Qed.

Definition keeping : step_rel.
Proof.
  refine (mkStepRel keeps not_spawn keeps_refl keeps_trans _ _).
  - intros s r rest _. apply keeps_quiet; reflexivity.
  - intros s e He. unfold keeps. cbn. repeat split; auto.
    exists [e]. split; [reflexivity|].
    intros p c [->|[]]. exfalso. exact (He p c eq_refl).
Defined.

Section Keeping.

Lemma keeping_modify f :
  (forall s, keeps s (f s)) -> steps keeping (modify f).
Proof. intros H s. apply H. Qed.

Lemma keeping_spawn command : steps keeping (_spawn command).
Proof.
  intros s. unfold _spawn. rewrite bind_run. cbn [self gets].
  destruct (connection (obj s)) as [p|] eqn:Ec.
  - refine (steps_bind keeping _ _ _ _ s).
    + apply steps_sendline. discriminate.
    + intros. apply steps_ret.
  - unfold pexpect_spawn, fresh. rewrite !bind_run. unfold external.
    destruct (tape (env s)) as [|r rest]; [apply keeps_refl|].
    destruct (ans r); try solve [apply keeps_quiet; reflexivity].
    cbn. unfold keeps. cbn. rewrite ?Ec. repeat split; try congruence.
    exists [Spawned (next_pid (env s)) command]. split; [reflexivity|].
    intros p c [[= <- <-]|[]]. auto.
Qed.

Lemma keeping_check_password c : steps keeping (check_password c).
Proof. apply steps_check_password; discriminate. Qed.

Lemma keeping_launch_local : steps keeping launch_local.
Proof.
  unfold launch_local.
  apply steps_bind; [apply steps_log; discriminate|]. intros _.
  apply steps_bind; [apply steps_gets|]. intros me.
  apply steps_bind; [apply keeping_spawn|]. intros _.
  apply keeping_modify. intros s. unfold keeps. cbn. repeat split; auto.
  exists []. rewrite app_nil_r. split; [reflexivity|]. intros p c [].
Qed.

Lemma keeping_launch_tunnel_hosts : steps keeping launch_tunnel_hosts.
Proof.
  unfold launch_tunnel_hosts.
  apply steps_bind; [apply steps_gets|]. intros me.
  apply steps_bind; [apply steps_lift|]. intros cmd.
  apply steps_bind; [apply steps_log; discriminate|]. intros _.
  destruct cmd as [cmd|]; [|apply steps_stuck].
  apply steps_bind; [apply keeping_spawn|]. intros c. apply keeping_check_password.
Qed.

Lemma keeping_start_kernel : steps keeping start_kernel.
Proof. apply steps_start_kernel; discriminate. Qed.

Lemma keeping_load_connection_info a : steps keeping (load_connection_info a).
Proof.
  unfold load_connection_info.
  destruct (Args.connection_file a) as [f|]; [|apply steps_ret].
  assert (Hdump : forall info, steps keeping (json_dump info f)).
  { intros info. apply steps_bind; [apply steps_gets|].
    intros [|]; [apply steps_raise|].
    apply steps_bind; [|intros; apply steps_emit; discriminate].
    apply keeping_modify. intros s. apply keeps_quiet; reflexivity. }
  assert (Hload : steps keeping (json_load f)).
  { apply steps_bind; [apply steps_gets|].
    intros [[d|]|]; auto using steps_ret, steps_raise. }
  apply steps_bind; [apply steps_gets|]. intros present.
  apply steps_bind.
  { destruct present; [|apply steps_ret].
    apply steps_bind; [|intros; apply steps_ret].
    apply steps_try; [exact Hload|].
    intros e h. destruct (is_Exception e); intros [= <-]. apply steps_ret. }
  intros loaded. destruct (fst loaded) as [d| |ty]; try apply steps_raise.
  apply steps_bind; [|intros; apply steps_ret].
  apply steps_when, steps_try; [apply Hdump|].
  intros e h. destruct (is_Exception e); intros [= <-]. apply steps_ret.
Qed.

(** A launch of the local interface that returns has switched the flag off. *)
Lemma launch_local_returned s s1 :
  launch_local s = (Returned tt, s1) -> tunnel (obj s1) = false.
Proof.
  unfold launch_local. intros H.
  apply bind_returned in H as (? & s2 & _ & H).
  apply bind_returned in H as (me & s3 & _ & H).
  apply bind_returned in H as (p & s4 & _ & H).
  injection H as <-. reflexivity.
Qed.

End Keeping.

Lemma bind_gets {A B} (f : state -> A) (k : A -> M B) s : bind (gets f) k s = k (f s) s.
Proof. reflexivity. Qed.

Lemma bind_self {B} (k : RemoteIKernel -> M B) s : bind self k s = k (obj s) s.
Proof. reflexivity. Qed.

Lemma bind_modify {B} (f : state -> state) (k : unit -> M B) s :
  bind (modify f) k s = k tt (f s).
Proof. reflexivity. Qed.

Lemma keeping_log_lines lines : steps keeping (log_lines lines).
Proof.
  induction lines as [|l lines IH]; cbn [log_lines]; [apply steps_ret|].
  apply steps_bind; [|intros _; exact IH].
  apply steps_when, steps_log. discriminate.
Qed.

(** Without a stored tunnel the keep-alive loop spawns nothing: its first
    tunnel check raises [KeyError]. *)
Lemma keep_alive_without_tunnel timeout s :
  tunnels (obj s) = ∅ -> keeps s (snd (keep_alive timeout s)).
Proof.
  intros Hnone. unfold keep_alive. rewrite bind_self.
  destruct (connection (obj s)) as [conn|]; [|apply keeps_refl].
  rewrite bind_run.
  pose proof (steps_sleep keeping (1000 * timeout) ltac:(discriminate) s) as Hs.
  destruct (sleep (1000 * timeout) s) as [[[]|e|] s1]; cbn [snd] in *; try exact Hs.
  eapply keeps_trans; [exact Hs|].
  cbn [keep_alive_loop]. rewrite bind_run.
  pose proof (steps_isalive keeping conn ltac:(discriminate) s1) as Hp.
  destruct (isalive conn s1) as [[up|e|] s2]; cbn [snd] in *; try exact Hp.
  eapply keeps_trans; [exact Hp|].
  destruct up; cbn [negb].
  - rewrite bind_run. unfold check_tunnels at 1. rewrite bind_self.
    assert (Ht : tunnels (obj s2) = ∅).
    { destruct Hs as [Hs _]. destruct Hp as [Hp _]. congruence. }
    rewrite Ht, lookup_empty. apply keeps_refl.
  - refine (steps_bind keeping _ _ _ _ s2).
    + apply steps_log. discriminate.
    + intros _. apply steps_bind; [apply steps_readlines|]. intros lines.
      apply keeping_log_lines.
Qed.

(** How a construction for the local interface ends. *)
Definition ends_local (s0 : state) (r : outcome unit * state) : Prop :=
  keeps s0 (snd r) /\ (fst r = Returned tt -> tunnel (obj (snd r)) = false).

Lemma init_local a s :
  Args.interface a = "local" ->
  exists s0,
    tunnels (obj s0) = ∅ /\ connection (obj s0) = None /\
    (exists d0, trace (env s0) = trace (env s) ++ d0 /\ Forall not_spawn d0) /\
    ends_local s0 (__init__ a s).
Proof.
  intros Hlocal. unfold __init__.
  rewrite bind_gets. unfold log at 1, emit at 1. rewrite bind_modify.
  rewrite bind_gets. unfold log at 1, emit at 1. rewrite bind_modify.
  rewrite bind_gets, bind_modify.
  match goal with
  | |- context [bind (load_connection_info a) ?k ?s0] =>
      set (rest := bind (load_connection_info a) k); set (start := s0)
  end.
  exists start. split; [reflexivity|]. split; [reflexivity|]. split.
  - eexists. split; [cbn; rewrite <- app_assoc; reflexivity|].
    repeat (apply Forall_cons; split; [discriminate|]). apply Forall_nil. exact I.
  - (* the rest of the construction, from [start] *)
    subst rest. rewrite bind_run.
    pose proof (keeping_load_connection_info a start) as H1.
    destruct (load_connection_info a start) as [[info|e|] s1]; cbn [snd fst] in H1;
      try solve [split; [exact H1 | discriminate]].
    rewrite bind_modify.
    match goal with
    | |- context [bind (when ?b launch_tunnel_hosts) ?k ?s2'] =>
        set (s2 := s2'); assert (H2 : keeps s1 s2)
    end.
    { unfold keeps. cbn. repeat split; auto. exists []. rewrite app_nil_r.
      split; [reflexivity|]. intros p c []. }
    rewrite bind_run.
    match goal with
    | |- context [when ?b launch_tunnel_hosts s2] =>
        pose proof (steps_when keeping b _ keeping_launch_tunnel_hosts s2) as H3;
        destruct (when b launch_tunnel_hosts s2) as [[[]|e|] s3]
    end; cbn [snd fst] in H3;
      try solve [split; [cbn [snd]; eauto using keeps_trans | discriminate]].
    rewrite Hlocal. cbn [String.eqb Ascii.eqb Bool.eqb].
    rewrite bind_run.
    pose proof (keeping_launch_local s3) as H4.
    destruct (launch_local s3) as [[[]|e|] s4] eqn:El; cbn [snd fst] in H4;
      try solve [split; [cbn [snd]; eauto using keeps_trans | discriminate]].
    pose proof (launch_local_returned _ _ El) as Hoff.
    rewrite bind_self.
    destruct (connection (obj s4)) as [c|].
    + rewrite bind_run.
      pose proof (keeping_start_kernel s4) as H5.
      destruct (start_kernel s4) as [[[]|e|] s5]; cbn [snd fst] in H5;
        try solve [split; [cbn [snd]; eauto 6 using keeps_trans | discriminate]].
      rewrite Hoff. cbn [when]. split; cbn [snd fst ret].
      * eauto 6 using keeps_trans.
      * intros _. destruct H5 as (_ & H5 & _). auto.
    + split; cbn [snd fst ret]; [eauto 6 using keeps_trans | auto].
Qed.

(** C9.  For the local interface, whatever the [tunnel] argument and
    whatever the environment does: a [launch_local] that returns leaves the
    tunnel flag off; a construction that returns leaves it off; and over the
    whole life of the launcher ([__init__] followed by [keep_alive]) no
    tunnel is ever stored and the only process spawned, if any, is the
    session itself -- [tunnel_connection] is never entered. *)
Theorem local_never_tunnels a s :
  Args.interface a = "local" ->
  (forall s0 s1, launch_local s0 = (Returned tt, s1) -> tunnel (obj s1) = false) /\
  (fst (__init__ a s) = Returned tt -> tunnel (obj (snd (__init__ a s))) = false) /\
  (let s' := snd (start_remote_kernel a s) in
   tunnels (obj s') = ∅ /\
   exists new, trace (env s') = trace (env s) ++ new /\
     forall p c, In (Spawned p c) new -> connection (obj s') = Some p).
Proof.
  intros Hlocal.
  destruct (init_local a s Hlocal) as (s0 & Hnone & Hconn & (d0 & Hd0 & Fd0) & Hk & Hoff).
  split; [exact launch_local_returned|]. split; [exact Hoff|].
  assert (Hrun : keeps s0 (snd (start_remote_kernel a s))).
  { unfold start_remote_kernel. rewrite bind_run.
    destruct (__init__ a s) as [[[]|e|] s1]; cbn [snd] in *; try exact Hk.
    eapply keeps_trans; [exact Hk|]. apply keep_alive_without_tunnel.
    destruct Hk as [Hk _]. congruence. }
  cbv zeta. destruct Hrun as (Ht & _ & _ & d & Hd & Hs). split; [congruence|].
  exists (d0 ++ d). rewrite Hd, Hd0, app_assoc. split; [reflexivity|].
  intros p c Hin. apply in_app_or in Hin as [Hin|Hin].
  - exfalso. rewrite Forall_forall in Fd0.
    apply (Fd0 (Spawned p c) ltac:(apply list_elem_of_In; exact Hin) p c eq_refl).
  - apply (Hs p c Hin).
Qed.

Definition local_with_tunnel : Args.t :=
  Args.make None ∅ "local" 1 None None "smp" "ipython kernel" None true None None None
    false None None None.

Lemma local_never_tunnels_witness :
  let s := mkState nobody (script [ok; ok; ok; ok; mkReply [] (Groups []); ok; ok]) in
  Args.tunnel local_with_tunnel = true /\
  fst (__init__ local_with_tunnel s) = Returned tt /\
  tunnel (obj (snd (__init__ local_with_tunnel s))) = false /\
  tunnels (obj (snd (start_remote_kernel local_with_tunnel s))) = ∅.
Proof.
  cbv zeta.
  pose proof (local_never_tunnels local_with_tunnel
                (mkState nobody (script [ok; ok; ok; ok; mkReply [] (Groups []); ok; ok]))
                eq_refl) as (_ & Hoff & Hnone & _).
  split; [reflexivity|]. split; [vm_compute; reflexivity|].
  split; [apply Hoff; vm_compute; reflexivity | exact Hnone].
Defined.

(** ** Tunnels (C3, C7) *)

Lemma stays_refl p s : stays p s s.
Proof.
  unfold stays. repeat split; auto.
  - exists []. rewrite app_nil_r. auto.
  - exists []. reflexivity.
Qed.

Lemma stays_trans p s1 s2 s3 : stays p s1 s2 -> stays p s2 s3 -> stays p s1 s3.
Proof.
  intros (O1 & N1 & (d1 & T1 & F1) & (k1 & K1) & A1)
         (O2 & N2 & (d2 & T2 & F2) & (k2 & K2) & A2).
  unfold stays. repeat split; try congruence.
  - exists (d1 ++ d2). rewrite T2, T1, app_assoc. split; [reflexivity|].
    apply Forall_app. auto.
  - exists (k1 ++ k2). rewrite K1, K2, app_assoc. reflexivity.
  - intros Hx Hp. apply A2; [|apply A1; auto].
    intros r Hr. apply Hx. rewrite K1. apply in_or_app. auto.
Qed.

Definition staying (p : pid) : step_rel.
Proof.
  refine (mkStepRel (stays p) no_start (stays_refl p) (stays_trans p) _ _).
  - intros s r rest Ht. unfold stays. cbn. repeat split.
    + exists []. rewrite app_nil_r. auto.
    + exists [r]. rewrite Ht. reflexivity.
    + intros Hx Hp. rewrite Ht in Hx.
      apply elem_of_difference. split; [exact Hp|].
      rewrite elem_of_list_to_set, list_elem_of_In. apply Hx. left. reflexivity.
  - intros s e He. unfold stays. cbn. repeat split; auto.
    + exists [e]. split; [reflexivity|]. apply Forall_cons. split; [exact He|].
      apply Forall_nil. exact I.
    + exists []. reflexivity.
Defined.

Lemma bind_lift {A B} (o : outcome A) (k : A -> M B) s :
  bind (lift o) k s =
  match o with
  | Returned a => k a s
  | Raised e => (Raised e, s)
  | Stuck => (Stuck, s)
  end.
Proof. unfold bind, lift. destruct o; reflexivity. Qed.

Lemma tunnel_cmd_run s :
  tunnel_cmd s =
  match tunnel_template (obj s) with
  | Returned t =>
      (Returned t,
       on_env (fun w => set_trace (trace w ++ [Logged DEBUG ("Tunnel command: " +:+ t)]) w) s)
  | Raised e => (Raised e, s)
  | Stuck => (Stuck, s)
  end.
Proof.
  unfold tunnel_cmd, tunnel_template. rewrite bind_self.
  destruct (host (obj s)) as [h|]; [|reflexivity].
  destruct (has_char ":" h); [|reflexivity].
  rewrite bind_run, bind_lift.
  destruct (split_pair h) as [[a b]|e|]; reflexivity.
Qed.

(** A spawn either fails, changing nothing that matters, or starts the
    process numbered [next_pid], alive. *)
Lemma spawn_run c s :
  let r := pexpect_spawn c s in
  let np := next_pid (env s) in
  (fst r = Returned np /\
   obj (snd r) = obj s /\
   next_pid (env (snd r)) = S np /\
   trace (env (snd r)) = trace (env s) ++ [Spawned np c] /\
   (exists x, tape (env s) = x :: tape (env (snd r))) /\
   np ∈ alive (env (snd r))) \/
  ((forall p, fst r <> Returned p) /\ stays np s (snd r)).
Proof.
  cbv zeta. unfold pexpect_spawn. rewrite bind_run. unfold external.
  destruct (tape (env s)) as [|x rest] eqn:Et.
  { right. split; [discriminate | apply stays_refl]. }
  assert (Hs : stays (next_pid (env s)) s (served x rest s)).
  { apply (rel_served (staying _) _ _ _ Et). }
  destruct (ans x); try (right; split; [discriminate | exact Hs]).
  left. cbn. repeat split; eauto.
  apply elem_of_union. left. apply elem_of_singleton. reflexivity.
Qed.

Lemma filter_no_start d : Forall no_start d -> List.filter starts_process d = [].
Proof.
  induction d as [|e d IH]; [reflexivity|]. intros H.
  apply Forall_cons in H as [He H]. simpl. rewrite He. auto.
Qed.

(** The trace grows by [acc] up to [s1]; staying on to [s2] adds no start. *)
Lemma grows_on p s s1 s2 acc :
  trace (env s1) = trace (env s) ++ acc ->
  stays p s1 s2 ->
  exists acc', trace (env s2) = trace (env s) ++ acc' /\
               List.filter starts_process acc' = List.filter starts_process acc.
Proof.
  intros H (_ & _ & (d & T & F) & _). exists (acc ++ d).
  rewrite T, H, app_assoc. split; [reflexivity|].
  rewrite List.filter_app, (filter_no_start d F), app_nil_r. reflexivity.
Qed.

(** The command of the bare connection opened before the tunnel. *)
Definition bare_command (me : RemoteIKernel) (pre : option string) : string :=
  strip (default EmptyString pre +:+ " ssh -o StrictHostKeyChecking=no " +:+
         str_opt (host me)).

Definition bare_of (me : RemoteIKernel) : string :=
  bare_command me
    match tunnel_hosts_cmd me with
    | Returned pre => pre
    | _ => None
    end.

(** How a run of [tunnel_connection] can go, whatever the environment does:
    it starts no process, or only the bare connection, or the bare
    connection and then one tunnel whose command is the template with the
    ports filled in. *)
Lemma tunnel_connection_run s :
  let np := next_pid (env s) in
  let r := tunnel_connection s in
  exists new, trace (env (snd r)) = trace (env s) ++ new /\
    ((fst r <> Returned tt /\ obj (snd r) = obj s /\
      (List.filter starts_process new = [] \/
       List.filter starts_process new = [Spawned np (bare_of (obj s))])) \/
     exists template cmd,
       tunnel_template (obj s) = Returned template /\
       format template (keywords (connection_info (obj s))) = Returned cmd /\
       List.filter starts_process new = [Spawned np (bare_of (obj s)); Spawned (S np) cmd] /\
       (fst r <> Returned tt -> obj (snd r) = obj s) /\
       (fst r = Returned tt ->
          obj (snd r) = set_tunnels (<["tunnel" := S np]> (tunnels (obj s))) (obj s) /\
          ((forall x, In x (tape (env s)) -> ~ In (S np) (exits x)) ->
           S np ∈ alive (env (snd r))))).
Proof.
  cbv zeta. unfold tunnel_connection. rewrite bind_self, bind_lift.
  destruct (tunnel_hosts_cmd (obj s)) as [pre|e|] eqn:Epre;
    try solve [exists []; rewrite app_nil_r; split; [reflexivity|]; left;
               cbn; repeat split; auto; discriminate].
  fold (bare_command (obj s) pre). set (bare := bare_command (obj s) pre).
  assert (Hbare : bare_of (obj s) = bare) by (unfold bare_of; rewrite Epre; reflexivity).
  rewrite Hbare. clear Hbare Epre.
  remember (next_pid (env s)) as np eqn:Hnp.
  (* the bare connection *)
  rewrite bind_run.
  destruct (spawn_run bare s) as [(Hr & Ho2 & Hn2 & Ht2 & [x2 Hx2] & _)|(Hr & Hst)];
    rewrite <- ?Hnp in *.
  2: { destruct (grows_on _ s s _ [] ltac:(rewrite app_nil_r; reflexivity) Hst)
         as (acc & Hacc & Hf).
       destruct Hst as (Ho & _).
       destruct (pexpect_spawn bare s) as [[p|e|] s2]; cbn [fst snd] in *;
         [exfalso; eapply Hr; reflexivity | ..];
         exists acc; (split; [exact Hacc|]); left;
           (split; [discriminate|]); (split; [exact Ho|]); left; exact Hf. }
  destruct (pexpect_spawn bare s) as [[p|e|] s2]; cbn [fst snd] in *; try discriminate.
  injection Hr as ->.
  assert (Hfail2 : forall (o : outcome unit) s', o <> Returned tt -> stays (S np) s2 s' ->
    exists new, trace (env s') = trace (env s) ++ new /\
      ((o <> Returned tt /\ obj s' = obj s /\
        (List.filter starts_process new = [] \/
         List.filter starts_process new = [Spawned np bare])) \/
       exists template cmd,
         tunnel_template (obj s) = Returned template /\
         format template (keywords (connection_info (obj s))) = Returned cmd /\
         List.filter starts_process new = [Spawned np bare; Spawned (S np) cmd] /\
         (o <> Returned tt -> obj s' = obj s) /\
         (o = Returned tt ->
            obj s' = set_tunnels (<["tunnel" := S np]> (tunnels (obj s))) (obj s) /\
            ((forall x, In x (tape (env s)) -> ~ In (S np) (exits x)) ->
             S np ∈ alive (env s'))))).
  { intros o s' Ho K. destruct (grows_on _ _ _ _ _ Ht2 K) as (acc & Hacc & Hf).
    exists acc. split; [exact Hacc|]. left. split; [exact Ho|]. split.
    - destruct K as (K & _). congruence.
    - right. exact Hf. }
  (* [exit] is sent to it *)
  rewrite bind_run.
  pose proof (steps_sendline (staying (S np)) np "exit" eq_refl s2) as K1.
  destruct (sendline np "exit" s2) as [[[]|e|] s3]; cbn [snd] in K1 |- *;
    try solve [apply Hfail2; [discriminate | exact K1]].
  (* the template *)
  assert (Ho3 : obj s3 = obj s) by (destruct K1 as (K1 & _); congruence).
  rewrite bind_run, tunnel_cmd_run, Ho3.
  destruct (tunnel_template (obj s)) as [template|e|] eqn:Etpl;
    try solve [apply Hfail2; [discriminate | exact K1]].
  match goal with
  | |- context [on_env ?f s3] => set (s4 := on_env f s3)
  end.
  assert (K2 : stays (S np) s2 s4).
  { eapply stays_trans; [exact K1|]. apply (rel_emit (staying (S np))). reflexivity. }
  rewrite bind_lift.
  destruct (format template (keywords (connection_info (obj s)))) as [cmd|e|] eqn:Efmt;
    try solve [apply Hfail2; [discriminate | exact K2]].
  (* the tunnel *)
  assert (Hn4 : next_pid (env s4) = S np) by (destruct K2 as (_ & K2 & _); congruence).
  assert (Ho4 : obj s4 = obj s) by (destruct K2 as (K2 & _); congruence).
  rewrite bind_run.
  destruct (spawn_run cmd s4) as [(Hr & Ho5 & Hn5 & Ht5 & [x5 Hx5] & Ha5)|(Hr & Hst)];
    rewrite Hn4 in *.
  2: { destruct (pexpect_spawn cmd s4) as [[p|e|] s5]; cbn [fst snd] in *;
         [exfalso; eapply Hr; reflexivity | ..];
         (apply Hfail2; [discriminate | exact (stays_trans _ _ _ _ K2 Hst)]). }
  destruct (pexpect_spawn cmd s4) as [[p|e|] s5]; cbn [fst snd] in *; try discriminate.
  injection Hr as ->.
  destruct (grows_on _ _ _ _ _ Ht2 K2) as (acc2 & Hacc2 & Hf2).
  assert (Ht5' : trace (env s5) = trace (env s) ++ (acc2 ++ [Spawned (S np) cmd])).
  { rewrite Ht5, Hacc2, app_assoc. reflexivity. }
  assert (Hf5 : List.filter starts_process (acc2 ++ [Spawned (S np) cmd])
                = [Spawned np bare; Spawned (S np) cmd]).
  { rewrite List.filter_app, Hf2. reflexivity. }
  assert (Hsub : forall x, In x (tape (env s5)) -> In x (tape (env s))).
  { intros x Hx. rewrite Hx2. right.
    destruct K2 as (_ & _ & _ & (k & Hk) & _). rewrite Hk. apply in_or_app. right.
    rewrite Hx5. right. exact Hx. }
  assert (Hfail3 : forall (o : outcome unit) s', o <> Returned tt -> stays (S np) s5 s' ->
    exists new, trace (env s') = trace (env s) ++ new /\
      ((o <> Returned tt /\ obj s' = obj s /\
        (List.filter starts_process new = [] \/
         List.filter starts_process new = [Spawned np bare])) \/
       exists template0 cmd,
         Returned template = Returned template0 /\
         format template0 (keywords (connection_info (obj s))) = Returned cmd /\
         List.filter starts_process new = [Spawned np bare; Spawned (S np) cmd] /\
         (o <> Returned tt -> obj s' = obj s) /\
         (o = Returned tt ->
            obj s' = set_tunnels (<["tunnel" := S np]> (tunnels (obj s))) (obj s) /\
            ((forall x, In x (tape (env s)) -> ~ In (S np) (exits x)) ->
             S np ∈ alive (env s'))))).
  { intros o s' Ho K. destruct (grows_on _ _ _ _ _ Ht5' K) as (acc & Hacc & Hf).
    exists acc. split; [exact Hacc|]. right. exists template, cmd.
    split; [first [exact Etpl | reflexivity]|].
    split; [first [exact Efmt | reflexivity]|]. split; [congruence|]. split.
    - intros _. destruct K as (K & _). congruence.
    - intros Hret. contradiction. }
  rewrite bind_run.
  pose proof (steps_check_password (staying (S np)) ltac:(reflexivity)
                (S np) s5) as K3.
  destruct (check_password (S np) s5) as [[[]|e|] s6]; cbn [snd] in K3 |- *;
    try solve [apply Hfail3; [discriminate | exact K3]].
  rewrite bind_run.
  pose proof (steps_port_values (staying (S np)) (connection_info (obj s)) PORT_NAMES s6)
    as K4.
  destruct (port_values (connection_info (obj s)) PORT_NAMES s6) as [[ports|e|] s7];
    cbn [snd] in K4 |- *;
    try solve [apply Hfail3; [discriminate | exact (stays_trans _ _ _ _ K3 K4)]].
  assert (K : stays (S np) s5 s7) by exact (stays_trans _ _ _ _ K3 K4).
  unfold log, emit. rewrite !bind_modify.
  destruct (grows_on _ _ _ _ _ Ht5' K) as (acc & Hacc & Hf).
  destruct K as (Ho7 & _ & _ & _ & Ha7).
  eexists (acc ++ [_; _]). split.
  { cbn. rewrite Hacc, <- !app_assoc. reflexivity. }
  right. exists template, cmd.
  split; [first [exact Etpl | reflexivity]|].
    split; [first [exact Efmt | reflexivity]|]. split.
  { rewrite List.filter_app, Hf, Hf5. reflexivity. }
  split; [intros H; exfalso; apply H; reflexivity|].
  intros _. cbn. split.
  - rewrite Ho7, Ho5, Ho4. reflexivity.
  - intros Hx. apply Ha7; [|exact Ha5]. intros x Hin. apply Hx, Hsub, Hin.
Qed.

(** The state once the tunnel has been polled. *)
Definition polled (t : pid) (up : bool) (r : reply) (rest : list reply) (s : state) : state :=
  on_env (fun w => set_trace (trace w ++ [Polled t up]) w) (served r rest s).

Lemma check_tunnels_run s t r rest :
  tunnels (obj s) !! "tunnel" = Some t ->
  tape (env s) = r :: rest ->
  check_tunnels s =
  match ans r with
  | Done =>
      if bool_decide (t ∈ alive (env s) ∖ list_to_set (exits r))
      then (Returned tt, polled t true r rest s)
      else (log DEBUG "Restarting ssh tunnels." ;; tunnel_connection)%py
             (polled t false r rest s)
  | Throws e => (Raised e, served r rest s)
  | _ => (Stuck, served r rest s)
  end.
Proof.
  intros Hl Ht. unfold check_tunnels. rewrite bind_self, Hl.
  unfold isalive. rewrite !bind_run, (external_served _ _ _ Ht).
  destruct (ans r); try reflexivity.
  cbn. destruct (bool_decide (t ∈ alive (env s) ∖ list_to_set (exits r))); reflexivity.
Qed.

(** ** Filling in the ports (C7) *)

Section Format.

Variable kw : string -> option string.

Lemma prepend_prepend a b r : prepend a (prepend b r) = prepend (a +:+ b) r.
Proof. destruct r; simpl; rewrite ?append_assoc; reflexivity. Qed.

Lemma prepend_nil r : prepend "" r = r.
Proof. destruct r; reflexivity. Qed.


Lemma brace_free_cons c a :
  brace_free (String c a) = true ->
  Ascii.eqb c "{" = false /\ Ascii.eqb c "}" = false /\ brace_free a = true.
Proof.
  unfold brace_free. rewrite !has_char_cons.
  rewrite (Ascii.eqb_sym "{" c), (Ascii.eqb_sym "}" c).
  destruct (Ascii.eqb c "{"), (Ascii.eqb c "}"); cbn [orb negb andb];
    intros H; rewrite ?andb_false_r in H; try discriminate.
  repeat split. exact H.
Qed.

(** Text without braces is copied. *)
Lemma format_plain a b :
  brace_free a = true ->
  format_from kw None (a +:+ b) = prepend a (format_from kw None b).
Proof.
  induction a as [|c a IH]; intros H.
  - rewrite append_nil_l, prepend_nil. reflexivity.
  - apply brace_free_cons in H as (H1 & H2 & H).
    rewrite append_cons. cbn [format_from]. rewrite H1, H2, (IH H), prepend_prepend.
    reflexivity.
Qed.

(** A name that can stand between braces as it is. *)
Definition plain_name (name : string) : bool :=
  all_chars (fun c => negb (has_char c "{}!:.[")) name.

Lemma format_in_field name : forall acc b,
  plain_name name = true ->
  format_from kw (Some acc) (name +:+ String "}" b) =
  match field kw (acc +:+ name) with
  | Returned v => prepend v (format_from kw None b)
  | r => r
  end.
Proof.
  induction name as [|c name IH]; intros acc b H.
  - rewrite append_nil_l, append_nil_r. reflexivity.
  - unfold plain_name in H. cbn [all_chars] in H.
    apply andb_true_iff in H as [Hc H].
    rewrite append_cons. cbn [format_from].
    assert (Hc' : Ascii.eqb c "}" = false /\ Ascii.eqb c "{" = false /\
                  has_char c "!:.[" = false).
    { rewrite !has_char_cons in Hc. rewrite !has_char_cons.
      destruct (Ascii.eqb c "{"), (Ascii.eqb c "}"), (Ascii.eqb c "!"),
        (Ascii.eqb c ":"), (Ascii.eqb c "."), (Ascii.eqb c "[");
        cbn [orb negb has_char] in *; try discriminate; auto. }
    destruct Hc' as (-> & -> & ->).
    rewrite (IH _ _ H), append_assoc. reflexivity.
Qed.

Lemma format_field name b :
  plain_name name = true ->
  format_from kw None (String "{" (name +:+ String "}" b)) =
  match field kw name with
  | Returned v => prepend v (format_from kw None b)
  | r => r
  end.
Proof.
  intros H. cbn [format_from]. change (Ascii.eqb "{" "{") with true. cbn iota.
  destruct name as [|c name].
  - reflexivity.
  - rewrite append_cons.
    assert (Hc : Ascii.eqb c "{" = false).
    { unfold plain_name in H. cbn [all_chars] in H.
      apply andb_true_iff in H as [Hc _]. rewrite has_char_cons in Hc.
      destruct (Ascii.eqb c "{"); [discriminate|reflexivity]. }
    rewrite Hc. rewrite <- append_cons.
    rewrite (format_in_field _ "" _ H). reflexivity.
Qed.

End Format.


Lemma format_plain_end kw a :
  brace_free a = true -> format_from kw None a = Returned a.
Proof.
  intros H. rewrite <- (append_nil_r a) at 1. rewrite (format_plain kw a "" H).
  simpl. rewrite append_nil_r. reflexivity.
Qed.










Definition rebuilding : state :=
  launched [ok; ok; ok; mkReply [] (Throws TIMEOUT)].


Example rebuilding_processes :
  fst (tunnel_connection rebuilding) = Returned tt /\
  List.filter starts_process (trace (env (snd (tunnel_connection rebuilding)))) =
  [Spawned 3%nat "ssh -o StrictHostKeyChecking=no  -p 2222 gate ssh -o StrictHostKeyChecking=no node7";
   Spawned 4%nat
     ("ssh -o StrictHostKeyChecking=no -J gate:2222 -S none " +:+
      forwards ["5001"; "5002"; "5003"; "5004"; "5005"] +:+ " node7 sleep 600")].
Proof. split; vm_compute; reflexivity. Qed.

(** ** [safe_eval]: quotes around an option value *)

Section Slices.

Lemma length_append a b : String.length (a +:+ b) = (String.length a + String.length b)%nat.
Proof. induction a as [|c a IH]; simpl; [reflexivity|]. rewrite <- IH. reflexivity. Qed.

Lemma substring_skip p r n m :
  String.substring (String.length p + n) m (p +:+ r) = String.substring n m r.
Proof. induction p as [|c p IH]; simpl; [reflexivity|exact IH]. Qed.

Lemma substring_all s : String.substring 0 (String.length s) s = s.
Proof. induction s as [|c s IH]; simpl; [reflexivity|]. rewrite IH. reflexivity. Qed.

Lemma substring_prefix a r : String.substring 0 (String.length a) (a +:+ r) = a.
Proof.
  induction a as [|c a IH]; simpl; [destruct r; reflexivity|]. rewrite IH. reflexivity.
Qed.

Lemma substring_drop_last r : String.substring 0 (String.length r - 1) r = drop_last r.
Proof.
  induction r as [|c r IH]; [reflexivity|].
  destruct r as [|d r]; [reflexivity|].
  change (String.length (String c (String d r)) - 1)%nat with (S (String.length r)).
  change (String.length (String d r) - 1)%nat with (String.length r - 0)%nat in IH.
  rewrite Nat.sub_0_r in IH.
  cbn [String.substring]. cbn [String.substring] in IH. rewrite IH. reflexivity.
Qed.

Lemma substring_last s :
  String.substring (String.length s - 1) 1 s =
  match last_char s with Some y => String y "" | None => "" end.
Proof.
  induction s as [|c s IH]; [reflexivity|].
  destruct s as [|d s]; [reflexivity|].
  change (String.length (String c (String d s)) - 1)%nat with (S (String.length s)).
  change (String.length (String d s) - 1)%nat with (String.length s - 0)%nat in IH.
  rewrite Nat.sub_0_r in IH. exact IH.
Qed.

(** [s.endswith(c)] for one character looks at the last character. *)
Lemma endswith_char c s :
  endswith (String c "") s = bool_decide (last_char s = Some c).
Proof.
  unfold endswith. cbn [String.length]. rewrite substring_last.
  destruct s as [|d s].
  - reflexivity.
  - destruct (last_char_some (String d s)) as [y Hy]; [discriminate|].
    rewrite Hy. cbn [Nat.leb andb].
    destruct (Ascii.eqb_spec y c) as [->|Hn].
    + rewrite String.eqb_refl. symmetry. apply bool_decide_eq_true. reflexivity.
    + transitivity false.
      * apply String.eqb_neq. congruence.
      * symmetry. apply bool_decide_eq_false. congruence.
Qed.

(** [(p + r)[len(p):-1]] is [r] without its last character. *)
Lemma slice_after p r :
  slice (Z.of_nat (String.length p)) (-1) (p +:+ r) = drop_last r.
Proof.
  unfold slice, slice_index. rewrite length_append.
  destruct (Z.ltb_spec (Z.of_nat (String.length p)) 0) as [H|_]; [lia|].
  change (-1 <? 0) with true. cbv iota.
  replace (Z.to_nat (Z.min _ _)) with (String.length p + 0)%nat by lia.
  rewrite substring_skip.
  replace (Z.to_nat _) with (String.length r - 1)%nat by lia.
  apply substring_drop_last.
Qed.

Lemma drop_last_app t c : drop_last (t +:+ String c "") = t.
Proof.
  induction t as [|d t IH]; [reflexivity|].
  rewrite append_cons. cbn [drop_last]. rewrite IH.
  destruct (t +:+ String c "") eqn:E; [|reflexivity].
  destruct t; discriminate.
Qed.

Lemma last_char_snoc t c : last_char (t +:+ String c "") = Some c.
Proof. rewrite last_char_app; [reflexivity | discriminate]. Qed.

(** A non-empty text is its body followed by its last character. *)
Lemma drop_last_last r y : last_char r = Some y -> r = drop_last r +:+ String y "".
Proof.
  induction r as [|c r IH]; [discriminate|].
  destruct r as [|d r].
  - intros [= ->]. reflexivity.
  - intros H. cbn [drop_last]. rewrite append_cons. f_equal. apply IH. exact H.
Qed.

End Slices.

(** X1.  Whatever the text [t]: written between double quotes, between
    single quotes, or as a bytes literal [b"..."] or [b'...'], [safe_eval]
    gives back [t] itself. *)
Theorem safe_eval_unquotes t :
  Forall (fun pq => safe_eval (fst pq +:+ t +:+ String (snd pq) "") = t) quotings.
Proof.
  assert (Hends : forall p c d,
            endswith (String d "") (p +:+ t +:+ String c "") = Ascii.eqb c d).
  { intros p c d. rewrite endswith_char, <- append_assoc, last_char_snoc.
    destruct (Ascii.eqb_spec c d) as [->|Hn].
    - apply bool_decide_eq_true. reflexivity.
    - apply bool_decide_eq_false. congruence. }
  assert (Hslice1 : forall c d, slice 1 (-1) (String c "" +:+ t +:+ String d "") = t).
  { intros c d. change 1 with (Z.of_nat (String.length (String c ""))).
    rewrite slice_after. apply drop_last_app. }
  assert (Hslice2 : forall b c d,
            slice 2 (-1) (String b (String c "") +:+ t +:+ String d "") = t).
  { intros b c d. change 2 with (Z.of_nat (String.length (String b (String c "")))).
    rewrite slice_after. apply drop_last_app. }
  unfold quotings, safe_eval, dquote, squote. cbn [fst snd].
  repeat (apply Forall_cons; split); [..|apply Forall_nil; exact I].
  - rewrite Hends. cbn. apply Hslice1.
  - rewrite !Hends. cbn. apply Hslice1.
  - rewrite !Hends. cbn. apply Hslice2.
  - rewrite !Hends. cbn. apply Hslice2.
Qed.

(** X2.  [safe_eval] removes at most one layer of quoting and never changes
    anything else: the result is [s] itself, or [s] without one of the four
    opening marks and without the closing quote.  A text that consists of an
    opening mark only (a lone quote, or [b] and a quote) becomes empty: its
    quote is taken for both ends. *)
Theorem safe_eval_strips_one_layer s :
  safe_eval s = s \/
  exists p c, In (p, c) quotings /\
    (s = p +:+ safe_eval s +:+ String c "" \/ (s = p /\ safe_eval s = "")).
Proof.
  assert (Hstrip : forall p c,
            startswith p s && endswith (String c "") s = true ->
            s = p +:+ slice (Z.of_nat (String.length p)) (-1) s +:+ String c "" \/
            (s = p /\ slice (Z.of_nat (String.length p)) (-1) s = "")).
  { intros p c H. apply andb_true_iff in H as [Hp Hc].
    apply startswith_spec in Hp as [r ->]. rewrite slice_after.
    rewrite endswith_char in Hc. apply bool_decide_eq_true in Hc.
    destruct r as [|d r].
    - right. rewrite append_nil_r. split; reflexivity.
    - left. rewrite last_char_app in Hc by discriminate.
      f_equal. apply drop_last_last. exact Hc. }
  unfold safe_eval.
  destruct (startswith dquote s && endswith dquote s) eqn:E1.
  { right. exists dquote, "034"%char. split; [left; reflexivity|].
    exact (Hstrip dquote "034"%char E1). }
  destruct (startswith squote s && endswith squote s) eqn:E2.
  { right. exists squote, "'"%char. split; [right; left; reflexivity|].
    exact (Hstrip squote "'"%char E2). }
  destruct (startswith ("b" +:+ dquote) s && endswith dquote s) eqn:E3.
  { right. exists ("b" +:+ dquote), "034"%char.
    split; [right; right; left; reflexivity|].
    exact (Hstrip ("b" +:+ dquote) "034"%char E3). }
  destruct (startswith ("b" +:+ squote) s && endswith squote s) eqn:E4.
  { right. exists ("b" +:+ squote), "'"%char.
    split; [right; right; right; left; reflexivity|].
    exact (Hstrip ("b" +:+ squote) "'"%char E4). }
  left. reflexivity.
Qed.

(** Both ends of X2 are reached: a lone quote becomes empty, and stripping
    is not repeated on what is left. *)
Example safe_eval_edges :
  safe_eval dquote = "" /\ safe_eval ("b" +:+ squote) = "" /\
  safe_eval ("''a''") = "'a'" /\ safe_eval "'a" = "'a".
Proof. repeat split; vm_compute; reflexivity. Qed.

(** ** The connection information given on the command line *)

Section CommandLine.

Lemma port_options : map (slice 0 (-5)) PORT_NAMES = ["hb"; "shell"; "iopub"; "stdin"; "control"].
Proof. vm_compute. reflexivity. Qed.

(** The loop over [PORT_NAMES] never fails, and stores all five ports or
    none. *)
Lemma port_arguments_all args :
  port_arguments args PORT_NAMES ∅ =
  Returned
    (if Namespace.hb args =? 0 then ∅
     else <["control_port" := PyInt (Namespace.control args)]>
            (<["stdin_port" := PyInt (Namespace.stdin args)]>
               (<["iopub_port" := PyInt (Namespace.iopub args)]>
                  (<["shell_port" := PyInt (Namespace.shell args)]>
                     (<["hb_port" := PyInt (Namespace.hb args)]> ∅))))).
Proof.
  unfold PORT_NAMES. cbn [port_arguments].
  change (slice 0 (-5) "hb_port") with "hb".
  change (slice 0 (-5) "shell_port") with "shell".
  change (slice 0 (-5) "iopub_port") with "iopub".
  change (slice 0 (-5) "stdin_port") with "stdin".
  change (slice 0 (-5) "control_port") with "control".
  change (getattr args "hb") with (Returned (Namespace.hb args)).
  change (getattr args "shell") with (Returned (Namespace.shell args)).
  change (getattr args "iopub") with (Returned (Namespace.iopub args)).
  change (getattr args "stdin") with (Returned (Namespace.stdin args)).
  change (getattr args "control") with (Returned (Namespace.control args)).
  cbv iota. destruct (Namespace.hb args =? 0); reflexivity.
Qed.

Lemma set_if_given_other key v convert info k :
  key <> k -> set_if_given key v convert info !! k = info !! k.
Proof.
  intros H. unfold set_if_given. destruct (truthy v); [|reflexivity].
  apply lookup_insert_ne. exact H.
Qed.

Lemma set_if_given_same key v convert info :
  set_if_given key v convert info !! key =
  if truthy v then Some (PyStr (convert (default "" v))) else info !! key.
Proof.
  unfold set_if_given. destruct (truthy v); [|reflexivity]. apply lookup_insert_eq.
Qed.

End CommandLine.

(** X3.  The dictionary [start_remote_kernel] builds from the options is
    always built (nothing raises), and the heartbeat option alone decides
    about the ports: when [--hb] is zero or absent none of the five port
    keys is set, whatever the other port options are; when it is not zero
    all five are set to their options, zeros included. *)
Theorem ports_follow_heartbeat args :
  exists info, connection_info_of args = Returned info /\
    (Namespace.hb args = 0 -> forall port, In port PORT_NAMES -> info !! port = None) /\
    (Namespace.hb args <> 0 ->
     info !! "hb_port" = Some (PyInt (Namespace.hb args)) /\
     info !! "shell_port" = Some (PyInt (Namespace.shell args)) /\
     info !! "iopub_port" = Some (PyInt (Namespace.iopub args)) /\
     info !! "stdin_port" = Some (PyInt (Namespace.stdin args)) /\
     info !! "control_port" = Some (PyInt (Namespace.control args))).
Proof.
  unfold connection_info_of. rewrite port_arguments_all.
  eexists. split; [reflexivity|]. cbv zeta. split.
  - intros H port Hin. apply Z.eqb_eq in H. rewrite H.
    assert (Hne : port <> "ip" /\ port <> "signature_scheme" /\ port <> "key" /\
                  port <> "transport").
    { unfold PORT_NAMES in Hin. cbn [In] in Hin.
      destruct Hin as [<-|[<-|[<-|[<-|[<-|[]]]]]]; repeat split; discriminate. }
    destruct Hne as (H1 & H2 & H3 & H4).
    rewrite !set_if_given_other by congruence. apply lookup_empty.
  - intros H. apply Z.eqb_neq in H. rewrite H.
    rewrite !set_if_given_other by discriminate.
    split; [|split; [|split; [|split]]].
    all: rewrite ?lookup_insert_ne by discriminate; apply lookup_insert_eq.
Qed.

(** A shell port given without a heartbeat port is dropped; a heartbeat port
    alone brings the four others in as zeros. *)
Definition only_shell : Namespace.t :=
  Namespace.make None "local" 1 None None "smp" "ipython kernel" None None None None
    false None None 0 5002 0 0 0 None None None None.

Definition only_heartbeat : Namespace.t :=
  Namespace.make None "local" 1 None None "smp" "ipython kernel" None None None None
    false None None 5001 0 0 0 0 None None None None.

Lemma ports_follow_heartbeat_witness :
  (exists info, connection_info_of only_shell = Returned info /\
     info !! "shell_port" = None) /\
  (exists info, connection_info_of only_heartbeat = Returned info /\
     info !! "shell_port" = Some (PyInt 0)).
Proof.
  split.
  - destruct (ports_follow_heartbeat only_shell) as (info & Hi & Hzero & _).
    exists info. split; [exact Hi|].
    apply Hzero; [reflexivity|]. right. left. reflexivity.
  - destruct (ports_follow_heartbeat only_heartbeat) as (info & Hi & _ & Hset).
    exists info. split; [exact Hi|].
    apply Hset. discriminate.
Defined.

(** ** The connection file *)

Section ConnectionFile.

Lemma json_load_run f s :
  json_load f s =
  (match files (env s) !! f with
   | Some (Some v) => Returned v
   | Some None => Raised (ValueError "Expecting value")
   | None => Raised (OtherError "No such file or directory")
   end, s).
Proof.
  unfold json_load. rewrite bind_gets. destruct (files (env s) !! f) as [[v|]|]; reflexivity.
Qed.

Lemma json_dump_run d f s :
  json_dump d f s =
  if bool_decide (f ∈ locked (env s))
  then (Raised (OtherError "Permission denied"), s)
  else (Returned tt, written f d s).
Proof.
  unfold json_dump. rewrite bind_gets.
  destruct (bool_decide (f ∈ locked (env s))); reflexivity.
Qed.

(** The step once the file has been looked at. *)
Lemma load_connection_info_cases a s f :
  Args.connection_file a = Some f ->
  load_connection_info a s =
  let own := bool_decide (files (env s) !! f = None) in
  match match files (env s) !! f with
        | Some (Some v) => v
        | _ => JObject ∅
        end with
  | JObject d =>
      let info := Args.connection_info a ∪ d in
      (when (own || negb (bool_decide (info = d)))
         (try_except (json_dump info f)
            (fun e => if is_Exception e then Some (ret tt) else None)) ;;
       ret (info, own)) s
  | JArray => (Raised (AttributeError "'list' object has no attribute 'update'"), s)
  | JScalar type_name =>
      (Raised (AttributeError ("'" +:+ type_name +:+ "' object has no attribute 'copy'")), s)
  end.
Proof.
  intros Ha. cbv zeta. unfold load_connection_info, path_exists. rewrite Ha, bind_gets.
  destruct (files (env s) !! f) as [[v|]|] eqn:E.
  - rewrite (bool_decide_eq_true_2 (is_Some (Some (Some v)))) by eauto.
    rewrite (bool_decide_eq_false_2 (Some (Some v) = None)) by discriminate.
    rewrite !bind_run. unfold try_except. rewrite json_load_run, E. cbn [ret fst snd].
    destruct v; reflexivity.
  - rewrite (bool_decide_eq_true_2 (is_Some (Some None))) by eauto.
    rewrite (bool_decide_eq_false_2 (Some None = None)) by discriminate.
    rewrite !bind_run. unfold try_except. rewrite json_load_run, E. reflexivity.
  - rewrite (bool_decide_eq_false_2 (is_Some None)) by (intros [? ?]; discriminate).
    rewrite (bool_decide_eq_true_2 (None = None)) by reflexivity.
    reflexivity.
Qed.

(** The connection-file step when the file holds no JSON of another kind
    than an object: it merges the argument over what the file holds and
    writes the file, if it can, when the file is new or the merge changed
    something. *)
Lemma load_connection_info_run a s f :
  Args.connection_file a = Some f ->
  loads_as_dict s f ->
  let loaded := loaded_from s f in
  let info := Args.connection_info a ∪ loaded in
  let own := bool_decide (files (env s) !! f = None) in
  load_connection_info a s =
  (Returned (info, own),
   if (own || negb (bool_decide (info = loaded))) && negb (bool_decide (f ∈ locked (env s)))
   then written f info s else s).
Proof.
  intros Ha Hdict. cbv zeta. rewrite (load_connection_info_cases a s f Ha). cbv zeta.
  unfold loaded_from.
  assert (Hv : exists d, match files (env s) !! f with
                         | Some (Some v) => v
                         | _ => JObject ∅
                         end = JObject d /\
                         match files (env s) !! f with
                         | Some (Some (JObject d')) => d'
                         | _ => ∅
                         end = d).
  { destruct (files (env s) !! f) as [[v|]|] eqn:E; eauto.
    destruct (Hdict v E) as [d ->]. eauto. }
  destruct Hv as (d & -> & ->).
  destruct (bool_decide (files (env s) !! f = None) ||
            negb (bool_decide (Args.connection_info a ∪ d = d))); cbn [when andb].
  - rewrite bind_run. unfold try_except. rewrite json_dump_run.
    destruct (bool_decide (f ∈ locked (env s))); reflexivity.
  - reflexivity.
Qed.

(** The step when the file holds an array or a scalar. *)
Lemma load_connection_info_other a s f v :
  Args.connection_file a = Some f ->
  files (env s) !! f = Some (Some v) ->
  load_connection_info a s =
  match v with
  | JObject d => load_connection_info a s
  | JArray => (Raised (AttributeError "'list' object has no attribute 'update'"), s)
  | JScalar type_name =>
      (Raised (AttributeError ("'" +:+ type_name +:+ "' object has no attribute 'copy'")), s)
  end.
Proof.
  intros Ha Hf. destruct v as [d| |ty]; [reflexivity|..];
    rewrite (load_connection_info_cases a s f Ha), Hf; reflexivity.
Qed.

Lemma written_files f d s : files (env (written f d s)) !! f = Some (Some (JObject d)).
Proof. cbn. apply lookup_insert_eq. Qed.

(** Reading the file back after the step. *)
Lemma load_connection_info_reload a s f :
  Args.connection_file a = Some f ->
  loads_as_dict s f ->
  f ∉ locked (env s) ->
  (files (env s) !! f = Some None -> Args.connection_info a <> ∅) ->
  json_load f (snd (load_connection_info a s)) =
  (Returned (JObject (Args.connection_info a ∪ loaded_from s f)),
   snd (load_connection_info a s)).
Proof.
  intros Ha Hdict Hopen Hsome. rewrite (load_connection_info_run a s f Ha Hdict). cbn [fst snd].
  rewrite json_load_run, (bool_decide_eq_false_2 _ Hopen). cbn [negb]. rewrite andb_true_r.
  destruct (bool_decide (files (env s) !! f = None)) eqn:Eown; cbn [orb].
  { rewrite written_files. reflexivity. }
  destruct (bool_decide (Args.connection_info a ∪ loaded_from s f = loaded_from s f))
    eqn:Esame; cbn [negb].
  + apply bool_decide_eq_true in Esame. apply bool_decide_eq_false in Eown.
    unfold loaded_from in *.
    destruct (files (env s) !! f) as [[v|]|] eqn:E.
    * destruct (Hdict v E) as [d ->]. rewrite Esame. reflexivity.
    * exfalso. apply Hsome; [reflexivity|].
      rewrite (right_id ∅ (∪)) in Esame. exact Esame.
    * congruence.
  + rewrite written_files. reflexivity.
Qed.

End ConnectionFile.

(** X4.  The connection-file step of the constructor.  A file that holds a
    JSON array or scalar makes it raise [AttributeError], nothing having
    changed.  Otherwise it completes: the information kept is the argument
    laid over what the file held (the argument wins on every key they share,
    the file supplies the rest, a missing or unparsable file supplies
    nothing), and the launcher counts the file as its own exactly when it
    did not exist.  When the file cannot be opened for writing the failure
    is swallowed and nothing changes.  When it can, the file afterwards
    holds exactly the information kept, unless it was unparsable and no
    information was passed. *)
Theorem connection_file_holds_info a s f :
  Args.connection_file a = Some f ->
  let r := load_connection_info a s in
  let info := Args.connection_info a ∪ loaded_from s f in
  (files (env s) !! f = Some (Some JArray) ->
   r = (Raised (AttributeError "'list' object has no attribute 'update'"), s)) /\
  (forall type_name, files (env s) !! f = Some (Some (JScalar type_name)) ->
   r = (Raised (AttributeError ("'" +:+ type_name +:+ "' object has no attribute 'copy'")),
        s)) /\
  (loads_as_dict s f ->
   fst r = Returned (info, bool_decide (files (env s) !! f = None)) /\
   (forall k, info !! k =
              match Args.connection_info a !! k with
              | Some v => Some v
              | None => loaded_from s f !! k
              end) /\
   (f ∈ locked (env s) -> snd r = s) /\
   (f ∉ locked (env s) ->
    (files (env s) !! f = Some None -> Args.connection_info a <> ∅) ->
    json_load f (snd r) = (Returned (JObject info), snd r))).
Proof.
  intros Ha. cbv zeta. split; [|split].
  - intros Hf. exact (load_connection_info_other a s f JArray Ha Hf).
  - intros ty Hf. exact (load_connection_info_other a s f (JScalar ty) Ha Hf).
  - intros Hdict. split; [|split; [|split]].
    + rewrite (load_connection_info_run a s f Ha Hdict). reflexivity.
    + intros k. rewrite lookup_union.
      destruct (Args.connection_info a !! k), (loaded_from s f !! k); reflexivity.
    + intros Hlocked. rewrite (load_connection_info_run a s f Ha Hdict). cbn [snd].
      rewrite (bool_decide_eq_true_2 _ Hlocked). cbn [negb]. rewrite andb_false_r.
      reflexivity.
    + intros Hopen Hsome. apply (load_connection_info_reload a s f Ha Hdict Hopen Hsome).
Qed.

Definition fresh_file : Args.t :=
  Args.make (Some "/run/user/1000/kernel-42.json") {[ "hb_port" := PyInt 5001 ]} "local" 1
    None None "smp" "ipython kernel" None true None None None false None None None.

(** A state in which the connection file holds the array [[1, 2]]. *)
Definition holding_array : state :=
  on_env (set_files {[ "/run/user/1000/kernel-42.json" := Some JArray ]})
    (mkState nobody (script [])).

(** A state in which the connection file cannot be created. *)
Definition no_directory : state :=
  mkState nobody
    (mkWorld [] [] 100%nat ∅ ∅ None "/home/u" (fun _ => "{}") "0.0" "kernel.py"
       {[ "/run/user/1000/kernel-42.json" ]}).

Lemma connection_file_holds_info_witness :
  let s := mkState nobody (script []) in
  let r := load_connection_info fresh_file s in
  (fst r = Returned ({[ "hb_port" := PyInt 5001 ]} ∪ ∅, true) /\
   json_load "/run/user/1000/kernel-42.json" (snd r)
   = (Returned (JObject ({[ "hb_port" := PyInt 5001 ]} ∪ ∅)), snd r)) /\
  load_connection_info fresh_file holding_array
  = (Raised (AttributeError "'list' object has no attribute 'update'"), holding_array) /\
  (fst (load_connection_info fresh_file no_directory)
   = Returned ({[ "hb_port" := PyInt 5001 ]} ∪ ∅, true) /\
   snd (load_connection_info fresh_file no_directory) = no_directory).
Proof.
  cbv zeta. split; [|split].
  - pose proof (connection_file_holds_info fresh_file (mkState nobody (script []))
                  "/run/user/1000/kernel-42.json" eq_refl) as H.
    cbv zeta in H. destruct H as (_ & _ & H).
    destruct H as (H1 & _ & _ & H3).
    { intros v Hv. vm_compute in Hv. discriminate. }
    split; [exact H1|]. apply H3.
    + apply (bool_decide_eq_false_1 _). vm_compute. reflexivity.
    + intros Hbad. vm_compute in Hbad. discriminate.
  - pose proof (connection_file_holds_info fresh_file holding_array
                  "/run/user/1000/kernel-42.json" eq_refl) as H.
    cbv zeta in H. destruct H as (H & _). apply H. vm_compute. reflexivity.
  - pose proof (connection_file_holds_info fresh_file no_directory
                  "/run/user/1000/kernel-42.json" eq_refl) as H.
    cbv zeta in H. destruct H as (_ & _ & H).
    destruct H as (H1 & _ & H2 & _).
    { intros v Hv. vm_compute in Hv. discriminate. }
    split; [exact H1|]. apply H2.
    apply (bool_decide_eq_true_1 _). vm_compute. reflexivity.
Defined.

(** X5.  When the file holds no JSON of another kind than an object and can
    be opened for writing, running the connection-file step again with the
    same arguments changes nothing: the same information is kept, nothing
    is written, and the file is no longer counted as the launcher's own. *)
Theorem connection_file_step_settles a s f :
  Args.connection_file a = Some f ->
  loads_as_dict s f ->
  f ∉ locked (env s) ->
  (files (env s) !! f = Some None -> Args.connection_info a <> ∅) ->
  let s1 := snd (load_connection_info a s) in
  load_connection_info a s1 =
  (Returned (Args.connection_info a ∪ loaded_from s f, false), s1).
Proof.
  intros Ha Hdict Hopen Hsome. cbv zeta.
  pose proof (load_connection_info_reload a s f Ha Hdict Hopen Hsome) as Hload.
  set (s1 := snd (load_connection_info a s)) in *.
  set (info := Args.connection_info a ∪ loaded_from s f) in *.
  rewrite json_load_run in Hload.
  assert (Hfile : files (env s1) !! f = Some (Some (JObject info))).
  { destruct (files (env s1) !! f) as [[v|]|]; congruence. }
  assert (Hdict1 : loads_as_dict s1 f).
  { intros v Hv. rewrite Hfile in Hv. injection Hv as <-. eauto. }
  rewrite (load_connection_info_run a s1 f Ha Hdict1). unfold loaded_from. rewrite Hfile.
  assert (Hidem : Args.connection_info a ∪ info = info).
  { unfold info. rewrite (assoc_L (∪)), (idemp_L (∪)). reflexivity. }
  rewrite Hidem.
  rewrite (bool_decide_eq_false_2 (Some (Some (JObject info)) = None)) by discriminate.
  rewrite (bool_decide_eq_true_2 (info = info)) by reflexivity.
  reflexivity.
Qed.

Lemma connection_file_step_settles_witness :
  let s := mkState nobody (script []) in
  let s1 := snd (load_connection_info fresh_file s) in
  load_connection_info fresh_file s1
  = (Returned ({[ "hb_port" := PyInt 5001 ]} ∪ ∅, false), s1).
Proof.
  cbv zeta.
  apply (connection_file_step_settles fresh_file (mkState nobody (script []))
           "/run/user/1000/kernel-42.json" eq_refl).
  - intros v Hv. vm_compute in Hv. discriminate.
  - apply (bool_decide_eq_false_1 _). vm_compute. reflexivity.
  - intros Hbad. vm_compute in Hbad. discriminate.
Defined.

(** ** The constructor: an unknown interface *)

Lemma interface_unknown i :
  ~ In i known_interfaces ->
  String.eqb i "local" = false /\ String.eqb i "pbs" = false /\ String.eqb i "sge" = false /\
  String.eqb i "ssh" = false /\ String.eqb i "slurm" = false.
Proof.
  unfold known_interfaces. cbn [In]. intros H.
  repeat split; apply String.eqb_neq; intros ->; apply H; tauto.
Qed.

(** However the connection-file step ends, it starts no process and leaves
    the object alone. *)
Lemma load_connection_info_calm a s :
  obj (snd (load_connection_info a s)) = obj s /\
  exists d, recorded s (snd (load_connection_info a s)) d /\ Forall no_start d.
Proof.
  assert (Hnone : exists d, recorded s s d /\ Forall no_start d).
  { exists []. split; [unfold recorded; rewrite app_nil_r; reflexivity|].
    apply Forall_nil. exact I. }
  destruct (Args.connection_file a) as [f|] eqn:Ha.
  - rewrite (load_connection_info_cases a s f Ha). cbv zeta.
    destruct (match files (env s) !! f with Some (Some v) => v | _ => JObject ∅ end)
      as [d| |ty]; [|split; [reflexivity|exact Hnone]..].
    destruct (bool_decide (files (env s) !! f = None) ||
              negb (bool_decide (Args.connection_info a ∪ d = d))); cbn [when].
    + rewrite bind_run. unfold try_except. rewrite json_dump_run.
      destruct (bool_decide (f ∈ locked (env s))); cbn [is_Exception ret bind snd];
        (split; [reflexivity|]); [exact Hnone|].
      exists [Wrote f]. split; [reflexivity|]. apply Forall_cons. split; [reflexivity|].
      apply Forall_nil. exact I.
    + split; [reflexivity|exact Hnone].
  - unfold load_connection_info. rewrite Ha. split; [reflexivity|exact Hnone].
Qed.

(** X6.  An interface name the constructor does not know is refused, but
    only after the connection file has been dealt with.  Without jump hosts
    no process has been started by then and no session exists.  When the
    file, if there is one, holds no JSON of another kind than an object, the
    refusal is a [ValueError], and a connection file that did not exist has
    already been written, unless it cannot be opened for writing: then it is
    still missing.  When the file holds an array or a scalar the constructor
    has raised [AttributeError] before it looked at the interface. *)
Theorem unknown_interface_refused a s :
  ~ In (Args.interface a) known_interfaces ->
  Args.tunnel_hosts a = None ->
  let r := __init__ a s in
  connection (obj (snd r)) = None /\
  (exists d, recorded s (snd r) d /\ Forall no_start d) /\
  ((forall f, Args.connection_file a = Some f -> loads_as_dict s f) ->
   fst r = Raised (ValueError ("Unknown interface " +:+ Args.interface a)) /\
   forall f, Args.connection_file a = Some f -> files (env s) !! f = None ->
     files (env (snd r)) !! f =
     if bool_decide (f ∈ locked (env s)) then None
     else Some (Some (JObject (Args.connection_info a)))) /\
  (forall f, Args.connection_file a = Some f -> ~ loads_as_dict s f ->
   exists msg, fst r = Raised (AttributeError msg)).
Proof.
  intros Hn Ht. cbv zeta.
  destruct (interface_unknown _ Hn) as (E1 & E2 & E3 & E4 & E5).
  unfold __init__. rewrite Ht, E1, E2, E3, E4, E5.
  rewrite (bool_decide_eq_false_2 (None <> None)) by (intros H; apply H; reflexivity).
  rewrite bind_gets. rewrite bind_run. cbn [log emit modify].
  rewrite bind_gets. rewrite bind_run. cbn [log emit modify].
  rewrite bind_gets. rewrite bind_modify.
  match goal with |- context [bind (load_connection_info a) _ ?s2] => set (s0 := s2) end.
  assert (Htrace : exists d0, recorded s s0 d0 /\ Forall no_start d0).
  { eexists. split.
    - unfold recorded, s0. cbn [on_obj on_env env trace set_trace].
      rewrite <- app_assoc. reflexivity.
    - repeat (apply Forall_cons; split; [reflexivity|]). apply Forall_nil. exact I. }
  assert (Hfiles : files (env s0) = files (env s)) by reflexivity.
  assert (Hlocked : locked (env s0) = locked (env s)) by reflexivity.
  assert (Hconn : connection (obj s0) = None) by reflexivity.
  assert (Hdicts : forall f, loads_as_dict s0 f <-> loads_as_dict s f).
  { intros f. unfold loads_as_dict. rewrite Hfiles. reflexivity. }
  clearbody s0.
  destruct (load_connection_info_calm a s0) as (Hobj & d & Hd & Fd).
  assert (Hshared :
    connection (obj (snd (load_connection_info a s0))) = None /\
    exists d', recorded s (snd (load_connection_info a s0)) d' /\ Forall no_start d').
  { split; [rewrite Hobj; exact Hconn|].
    destruct Htrace as (d0 & Hd0 & Fd0). exists (d0 ++ d). split.
    - unfold recorded in *. rewrite Hd, Hd0, app_assoc. reflexivity.
    - apply Forall_app. split; assumption. }
  destruct Hshared as (Hc1 & Hr1).
  rewrite bind_run.
  destruct (load_connection_info a s0) as [[info|e|] s1] eqn:Hrun; cbn [fst snd] in *.
  - rewrite bind_modify. cbn [when].
    rewrite bind_run. cbn [ret]. rewrite bind_run. cbn [raise fst snd].
    split; [|split; [|split]].
    + cbn [obj on_obj connection]. rewrite Hobj. exact Hconn.
    + exact Hr1.
    + intros Hall. split; [reflexivity|].
      intros f Hf Hnone. cbn [env on_obj].
      assert (Hdict0 : loads_as_dict s0 f) by (apply Hdicts, Hall, Hf).
      pose proof (load_connection_info_run a s0 f Hf Hdict0) as Hrun'. cbv zeta in Hrun'.
      rewrite Hrun in Hrun'.
      assert (Hnone0 : files (env s0) !! f = None) by (rewrite Hfiles; exact Hnone).
      rewrite (bool_decide_eq_true_2 _ Hnone0), Hlocked in Hrun'. cbn [orb andb] in Hrun'.
      destruct (bool_decide (f ∈ locked (env s))); cbn [negb] in Hrun';
        injection Hrun' as _ ->.
      * exact Hnone0.
      * unfold loaded_from. rewrite Hnone0, (right_id ∅ (∪)). apply written_files.
    + intros f Hf Hnot. exfalso. apply Hnot, Hdicts.
      intros v Hv.
      pose proof (load_connection_info_other a s0 f v Hf Hv) as Hrun'.
      rewrite Hrun in Hrun'. destruct v as [d1| |ty]; [eauto|discriminate..].
  - cbn [fst snd]. split; [exact Hc1|]. split; [exact Hr1|]. split.
    + intros Hall. exfalso.
      destruct (Args.connection_file a) as [f|] eqn:Hf.
      * assert (Hdict0 : loads_as_dict s0 f) by (apply Hdicts, Hall; reflexivity).
        pose proof (load_connection_info_run a s0 f Hf Hdict0) as Hrun'. cbv zeta in Hrun'.
        rewrite Hrun in Hrun'. discriminate.
      * unfold load_connection_info in Hrun. rewrite Hf in Hrun. discriminate.
    + intros f Hf Hnot.
      rewrite (load_connection_info_cases a s0 f Hf) in Hrun. cbv zeta in Hrun.
      destruct (match files (env s0) !! f with Some (Some v) => v | _ => JObject ∅ end)
        as [d1| |ty].
      * exfalso.
        destruct (bool_decide (files (env s0) !! f = None) ||
                  negb (bool_decide (Args.connection_info a ∪ d1 = d1))); cbn [when] in Hrun.
        -- rewrite bind_run in Hrun. unfold try_except in Hrun.
           rewrite json_dump_run in Hrun.
           destruct (bool_decide (f ∈ locked (env s0))); discriminate.
        -- discriminate.
      * injection Hrun as <- _. eauto.
      * injection Hrun as <- _. eauto.
  - exfalso.
    destruct (Args.connection_file a) as [f|] eqn:Hf.
    + rewrite (load_connection_info_cases a s0 f Hf) in Hrun. cbv zeta in Hrun.
      destruct (match files (env s0) !! f with Some (Some v) => v | _ => JObject ∅ end)
        as [d1| |ty]; try discriminate.
      destruct (bool_decide (files (env s0) !! f = None) ||
                negb (bool_decide (Args.connection_info a ∪ d1 = d1))); cbn [when] in Hrun.
      * rewrite bind_run in Hrun. unfold try_except in Hrun.
        rewrite json_dump_run in Hrun.
        destruct (bool_decide (f ∈ locked (env s0))); discriminate.
      * discriminate.
    + unfold load_connection_info in Hrun. rewrite Hf in Hrun. discriminate.
Qed.

Definition odd_interface : Args.t :=
  Args.make (Some "/run/user/1000/kernel-42.json") {[ "hb_port" := PyInt 5001 ]} "lsf" 1
    None None "smp" "ipython kernel" None true None None None false None None None.

Lemma unknown_interface_refused_witness :
  (let r := __init__ odd_interface (mkState nobody (script [])) in
   fst r = Raised (ValueError "Unknown interface lsf") /\
   files (env (snd r)) !! "/run/user/1000/kernel-42.json"
   = Some (Some (JObject {[ "hb_port" := PyInt 5001 ]}))) /\
  (let r := __init__ odd_interface no_directory in
   fst r = Raised (ValueError "Unknown interface lsf") /\
   files (env (snd r)) !! "/run/user/1000/kernel-42.json" = None) /\
  (exists msg, fst (__init__ odd_interface holding_array) = Raised (AttributeError msg)).
Proof.
  cbv zeta.
  assert (Hn : ~ In (Args.interface odd_interface) known_interfaces).
  { cbn. intros [H|[H|[H|[H|[H|[]]]]]]; discriminate. }
  split; [|split].
  - destruct (unknown_interface_refused odd_interface (mkState nobody (script [])) Hn eq_refl)
      as (_ & _ & H & _).
    destruct H as (H1 & H2).
    { intros f [= <-] v Hv. vm_compute in Hv. discriminate. }
    split; [exact H1|]. apply (H2 _ eq_refl). reflexivity.
  - destruct (unknown_interface_refused odd_interface no_directory Hn eq_refl)
      as (_ & _ & H & _).
    destruct H as (H1 & H2).
    { intros f [= <-] v Hv. vm_compute in Hv. discriminate. }
    split; [exact H1|]. apply (H2 _ eq_refl). reflexivity.
  - destruct (unknown_interface_refused odd_interface holding_array Hn eq_refl)
      as (_ & _ & _ & H).
    apply (H _ eq_refl). intros Hdict.
    destruct (Hdict JArray) as [d Hd]; [vm_compute; reflexivity|discriminate].
Defined.

(** ** The command that logs into the jump hosts *)

Section Splitting.

Lemma has_char_count c s : has_char c s = negb (Nat.eqb (count_char c s) 0).
Proof.
  induction s as [|d s IH]; [reflexivity|].
  cbn [has_char count_char]. rewrite IH, (Ascii.eqb_sym c d).
  destruct (Ascii.eqb d c); reflexivity.
Qed.

(** [s.split(c)] has one piece more than [s] has separators. *)
Lemma split_length c s : List.length (split c s) = S (count_char c s).
Proof.
  induction s as [|d s IH]; [reflexivity|].
  cbn [split count_char]. destruct (Ascii.eqb d c).
  - cbn [List.length]. rewrite IH. reflexivity.
  - destruct (split c s) as [|h t]; [discriminate|]. exact IH.
Qed.

Lemma split_plain c s : has_char c s = false -> split c s = [s].
Proof.
  induction s as [|d s IH]; [reflexivity|].
  cbn [has_char split]. rewrite (Ascii.eqb_sym c d).
  destruct (Ascii.eqb d c); [discriminate|]. cbn [orb]. intros H.
  rewrite (IH H). reflexivity.
Qed.

Lemma split_at c h p :
  has_char c h = false -> split c (h +:+ String c p) = h :: split c p.
Proof.
  induction h as [|d h IH].
  - intros _. rewrite append_nil_l. cbn [split]. rewrite Ascii.eqb_refl. reflexivity.
  - cbn [has_char]. rewrite (Ascii.eqb_sym c d), append_cons.
    destruct (Ascii.eqb d c) eqn:E; [discriminate|]. cbn [orb]. intros H.
    cbn [split]. rewrite E, (IH H). reflexivity.
Qed.

(** Unpacking [a, b = s.split(":")] works for exactly one colon. *)
Lemma split_pair_cases s :
  match count_char ":" s with
  | O => split_pair s = Raised (ValueError "not enough values to unpack (expected 2, got 1)")
  | S O => exists a b, split_pair s = Returned (a, b)
  | S (S _) => split_pair s = Raised (ValueError "too many values to unpack (expected 2)")
  end.
Proof.
  pose proof (split_length ":" s) as H. unfold split_pair.
  destruct (split ":" s) as [|a [|b [|c l]]]; cbn [List.length] in H;
    [discriminate|..]; injection H as <-; eauto.
Qed.

End Splitting.

(** X7.  The jump-host command logs into the last host of the list and
    passes the hosts before it, in order, as one [-J] option.  A last host
    written [name:port] is split into [-p port name]; the hosts before it
    keep their ports. *)
Theorem jump_command_targets_last_host me jumps h :
  tunnel_hosts me = Some (jumps ++ [h]) ->
  let via := if nonempty (join "," jumps) then "-J " +:+ join "," jumps else "" in
  (has_char ":" h = false ->
   tunnel_hosts_cmd me =
   Returned (Some ("ssh -o StrictHostKeyChecking=no " +:+ via +:+ " " +:+ h))) /\
  (forall name port,
     h = name +:+ ":" +:+ port -> has_char ":" name = false -> has_char ":" port = false ->
     tunnel_hosts_cmd me =
     Returned (Some ("ssh -o StrictHostKeyChecking=no " +:+ via +:+ " -p " +:+ port +:+
                     " " +:+ name))).
Proof.
  intros Hh. cbv zeta. unfold tunnel_hosts_cmd. rewrite Hh.
  destruct (jumps ++ [h]) as [|x l] eqn:E.
  { destruct jumps; discriminate. }
  rewrite <- E. rewrite removelast_last, last_last. split.
  - intros Hplain. rewrite Hplain.
    destruct (join "," jumps); reflexivity.
  - intros name port -> Hname Hport.
    rewrite !has_char_app. change (has_char ":" ":") with true.
    cbn [orb]. rewrite orb_true_r.
    unfold split_pair. change (name +:+ ":" +:+ port) with (name +:+ String ":" port).
    rewrite (split_at ":" name port Hname), (split_plain ":" port Hport).
    destruct (join "," jumps); reflexivity.
Qed.

Definition through_gates : RemoteIKernel :=
  mkKernel None None false "ssh" 1 None None "smp" "ipython kernel" (Some "node7")
    (Some ["gate1:2200"; "gate2"; "gate3:2222"]) None None true ∅ None None "/home/u"
    None "~/.local/share/jupyter/runtime" ∅.

Lemma jump_command_targets_last_host_witness :
  tunnel_hosts_cmd through_gates =
  Returned (Some "ssh -o StrictHostKeyChecking=no -J gate1:2200,gate2 -p 2222 gate3").
Proof.
  apply (proj2 (jump_command_targets_last_host through_gates ["gate1:2200"; "gate2"]
                  "gate3:2222" eq_refl) "gate3" "2222"); reflexivity.
Defined.

(** X8.  The jump-host command can be built unless the last host holds more
    than one colon (an IPv6 address, say): then, and only then, the property
    raises [ValueError], from unpacking the split.  Without hosts it is
    [None]. *)
Theorem jump_command_fails_on_colons me :
  match tunnel_hosts me with
  | None | Some [] => tunnel_hosts_cmd me = Returned None
  | Some hosts =>
      if (2 <=? count_char ":" (List.last hosts ""))%nat
      then tunnel_hosts_cmd me =
           Raised (ValueError "too many values to unpack (expected 2)")
      else exists cmd, tunnel_hosts_cmd me = Returned (Some cmd)
  end.
Proof.
  unfold tunnel_hosts_cmd. destruct (tunnel_hosts me) as [[|x l]|]; try reflexivity.
  set (target := List.last (x :: l) "").
  rewrite has_char_count. pose proof (split_pair_cases target) as H.
  destruct (count_char ":" target) as [|[|n]]; cbn [Nat.eqb negb Nat.leb].
  - eauto.
  - destruct H as (a & b & ->). eauto.
  - rewrite H. reflexivity.
Qed.

Example jump_command_ipv6 :
  tunnel_hosts_cmd
    (mkKernel None None false "ssh" 1 None None "smp" "ipython kernel" (Some "node7")
       (Some ["gate"; "fe80::1"]) None None true ∅ None None "/home/u" None "" ∅)
  = Raised (ValueError "too many values to unpack (expected 2)").
Proof. reflexivity. Qed.

(** ** The session is set once *)

Definition holding (p : pid) : step_rel.
Proof.
  refine (mkStepRel (holds_session p) (fun _ => True) _ _ _ _).
  - intros s H. exact H.
  - intros s1 s2 s3 H1 H2 H. exact (H2 (H1 H)).
  - intros s r rest _ H. exact H.
  - intros s e _ H. exact H.
Defined.

Section Holding.

Variable p : pid.

Lemma holding_modify f :
  (forall s, connection (obj (f s)) = connection (obj s)) -> steps (holding p) (modify f).
Proof. intros H s. cbn. unfold holds_session. rewrite H. auto. Qed.

(** Following a computation built from the primitives along [holding p]. *)
Ltac walk_with extra :=
  repeat first
    [ extra
    | apply steps_ret | apply steps_raise | apply steps_stuck | apply steps_gets
    | apply steps_lift | apply steps_external
    | apply steps_emit; exact I
    | apply steps_log; exact I
    | apply steps_sendline; exact I
    | apply steps_sendcontrol; exact I
    | apply steps_sleep; exact I
    | apply steps_expect | apply steps_readlines | apply steps_randint
    | apply steps_token_urlsafe | apply steps_first_group | apply steps_port_values
    | apply steps_isalive; intros; exact I
    | apply steps_check_password; intros; exact I
    | apply steps_tunnel_cmd; intros; exact I
    | apply steps_start_kernel; intros; exact I
    | apply steps_when
    | apply holding_modify; reflexivity
    | apply steps_call
    | apply steps_bind; [|intros ?]
    | match goal with
      | |- steps _ (match ?x with _ => _ end) => destruct x
      | |- steps _ (if ?x then _ else _) => destruct x
      end ].

Ltac walk := walk_with fail.

Lemma holding_pexpect_spawn c : steps (holding p) (pexpect_spawn c).
Proof. unfold pexpect_spawn, fresh. walk. Qed.

Lemma holding_Popen argv : steps (holding p) (Popen argv).
Proof. unfold Popen, fresh. walk. Qed.

(** [_spawn] starts a session only when there is none. *)
Lemma holding_spawn c : steps (holding p) (_spawn c).
Proof.
  intros s. unfold _spawn. rewrite bind_self.
  destruct (connection (obj s)) as [q|] eqn:E.
  - refine (steps_bind (holding p) _ _ _ _ s); [walk | intros; walk].
  - intros H. cbn in H. congruence.
Qed.

Ltac stride :=
  walk_with ltac:(first [ apply holding_spawn | apply holding_pexpect_spawn
                        | apply holding_Popen ]).

Lemma holding_tunnel_connection : steps (holding p) tunnel_connection.
Proof. unfold tunnel_connection. stride. Qed.

Lemma holding_check_tunnels : steps (holding p) check_tunnels.
Proof. unfold check_tunnels. walk_with ltac:(apply holding_tunnel_connection). Qed.

Lemma holding_log_lines lines : steps (holding p) (log_lines lines).
Proof. induction lines as [|l lines IH]; cbn [log_lines]; [walk|]. apply steps_bind; [walk|]. intros _. exact IH. Qed.

Lemma holding_keep_alive_loop fuel conn : steps (holding p) (keep_alive_loop fuel conn).
Proof.
  induction fuel as [|fuel IH]; cbn [keep_alive_loop]; [walk|].
  apply steps_bind; [walk|]. intros up. destruct up; cbn [negb].
  - apply steps_bind; [apply holding_check_tunnels|]. intros _.
    apply steps_bind; [|intros _; exact IH].
    apply steps_try; [walk|].
    intros e h. destruct e; intros [= <-]; walk.
  - apply steps_bind; [walk|]. intros _.
    apply steps_bind; [walk|]. intros lines. apply holding_log_lines.
Qed.

Lemma holding_keep_alive timeout : steps (holding p) (keep_alive timeout).
Proof.
  unfold keep_alive. apply steps_bind; [walk|]. intros me.
  destruct (connection me) as [conn|]; [|walk].
  apply steps_bind; [walk|]. intros _ s. apply holding_keep_alive_loop.
Qed.

Lemma holding_method name m : In (name, m) class_body -> steps (holding p) m.
Proof.
  unfold class_body. cbn [In].
  intros [H|[H|[H|[H|[H|[H|[H|[H|[H|[H|[H|[]]]]]]]]]]]]; injection H as _ <-.
  - unfold __del__first. apply steps_bind; [walk|]. intros me.
    destruct (_delcf me); [|walk]. destruct (connection_file me) as [f|]; [|walk].
    apply steps_try.
    + unfold os_remove. walk.
    + intros e h. destruct (is_Exception e); intros [= <-]. walk.
  - unfold launch_tunnel_hosts. stride.
  - unfold launch_local. stride.
  - unfold launch_ssh. stride.
  - unfold __del__second, kill, wait. walk.
  - unfold launch_pbs. stride.
  - unfold launch_sge. stride.
  - unfold launch_slurm. stride.
  - walk.
  - apply holding_tunnel_connection.
  - apply holding_check_tunnels.
Qed.

End Holding.

(** X9.  The session is set once.  Whichever method of the class runs, and
    however it ends, a session that was in place before is still the
    object's session afterwards, and so it is after the supervising loop.
    With a session in place [_spawn] starts no process: what it returns is
    that session, to which the command was sent as a line. *)
Theorem session_is_set_once p s :
  connection (obj s) = Some p ->
  (forall name m, In (name, m) class_body -> connection (obj (snd (m s))) = Some p) /\
  (forall timeout, connection (obj (snd (keep_alive timeout s))) = Some p) /\
  (forall command,
     next_pid (env (snd (_spawn command s))) = next_pid (env s) /\
     forall q, fst (_spawn command s) = Returned q ->
               q = p /\ recorded s (snd (_spawn command s)) [SentLine p command]).
Proof.
  intros Hp. split; [|split].
  - intros name m Hin. exact (holding_method p name m Hin s Hp).
  - intros timeout. exact (holding_keep_alive p timeout s Hp).
  - intros command. unfold _spawn. rewrite bind_self, Hp.
    unfold sendline, call. rewrite !bind_run. unfold external.
    destruct (tape (env s)) as [|r rest]; [split; [reflexivity|discriminate]|].
    destruct (ans r); cbn [fst snd raise stuck];
      try (split; [reflexivity|discriminate]).
    split; [reflexivity|]. intros q [= <-]. split; reflexivity.
Qed.

Lemma session_is_set_once_witness :
  connection (obj (snd (launch_sge (launched [ok; mkReply [] (Groups ["node9"])]))))
  = Some 1%nat /\
  recorded (launched [ok]) (snd (_spawn "qlogin" (launched [ok])))
    [SentLine 1%nat "qlogin"].
Proof.
  split.
  - apply (proj1 (session_is_set_once 1%nat
                    (launched [ok; mkReply [] (Groups ["node9"])]) eq_refl)
             "launch_sge" launch_sge).
    do 6 right. left. reflexivity.
  - apply (proj2 (proj2 (proj2 (session_is_set_once 1%nat (launched [ok]) eq_refl))
                    "qlogin") 1%nat).
    reflexivity.
Defined.

(** ** When the supervising loop ends *)

Section Supervisor.

Lemma recorded_trans s1 s2 s3 d1 d2 :
  recorded s1 s2 d1 -> recorded s2 s3 d2 -> recorded s1 s3 (d1 ++ d2).
Proof. unfold recorded. intros H1 H2. rewrite H2, H1, app_assoc. reflexivity. Qed.

Lemma grows {A} (m : M A) s :
  steps (adding (fun _ => True)) m -> exists d, recorded s (snd (m s)) d.
Proof. intros H. destruct (H s) as (d & Hd & _). exists d. exact Hd. Qed.

Lemma isalive_returned p s b s1 :
  isalive p s = (Returned b, s1) ->
  recorded s s1 [Polled p b] /\ b = bool_decide (p ∈ alive (env s1)).
Proof.
  unfold isalive. rewrite bind_run. unfold external.
  destruct (tape (env s)) as [|r rest]; [discriminate|].
  destruct (ans r); try discriminate.
  rewrite bind_gets, bind_run. cbn [emit modify ret].
  intros [= <- <-]. split; reflexivity.
Qed.

(** Logging the last lines always completes and touches nothing but the log. *)
Lemma log_lines_run lines : forall s,
  exists s', log_lines lines s = (Returned tt, s') /\
    recorded s s' (map (Logged ERROR) (List.filter (fun l => nonempty (strip l)) lines)) /\
    alive (env s') = alive (env s).
Proof.
  induction lines as [|l lines IH]; intros s.
  - exists s. repeat split. unfold recorded. cbn [List.filter map]. rewrite app_nil_r.
    reflexivity.
  - cbn [log_lines List.filter]. rewrite bind_run.
    destruct (nonempty (strip l)); cbn [when log emit modify ret].
    + match goal with |- context [log_lines lines ?s1] =>
        destruct (IH s1) as (s' & Hrun & Hrec & Hal) end.
      exists s'. split; [exact Hrun|]. split; [|exact Hal].
      unfold recorded in *. rewrite Hrec. cbn [map env on_env trace set_trace].
      rewrite <- app_assoc. reflexivity.
    + destruct (IH s) as (s' & Hrun & Hrec & Hal). exists s'. auto.
Qed.

Lemma keep_alive_loop_returned fuel conn : forall s s',
  keep_alive_loop fuel conn s = (Returned tt, s') ->
  exists before after,
    recorded s s' (before ++ Polled conn false :: died :: after) /\
    Forall error_line after /\ conn ∉ alive (env s').
Proof.
  induction fuel as [|fuel IH]; intros s s'; [discriminate|].
  cbn [keep_alive_loop]. intros H.
  apply bind_returned in H as (up & s1 & Hpoll & H).
  apply isalive_returned in Hpoll as [Hrec1 Hup].
  destruct up; cbn [negb] in H.
  - apply bind_returned in H as ([] & s2 & Hct & H).
    apply bind_returned in H as ([] & s3 & Hread & H).
    destruct (grows check_tunnels s1) as (d2 & Hd2).
    { apply adding_check_tunnels; intros; exact I. }
    rewrite Hct in Hd2. cbn [snd] in Hd2.
    match type of Hread with try_except ?m ?h s2 = _ =>
      destruct (grows (try_except m h) s2) as (d3 & Hd3) end.
    { apply steps_try.
      - apply steps_bind; [apply steps_readlines|]. intros. apply steps_ret.
      - intros e h. destruct e; intros [= <-]; [apply steps_ret|].
        apply steps_bind; [apply steps_log; exact I|]. intros _.
        apply steps_sendcontrol. exact I. }
    rewrite Hread in Hd3. cbn [snd] in Hd3.
    destruct (IH s3 s' H) as (before & after & Hrec & Hafter & Hdead).
    exists ([Polled conn true] ++ d2 ++ d3 ++ before), after.
    split; [|split; assumption].
    rewrite <- !app_assoc.
    exact (recorded_trans _ _ _ _ _ Hrec1
             (recorded_trans _ _ _ _ _ Hd2 (recorded_trans _ _ _ _ _ Hd3 Hrec))).
  - symmetry in Hup. apply bool_decide_eq_false in Hup.
    rewrite bind_run in H. cbn [log emit modify] in H.
    apply bind_returned in H as (lines & s2 & Hread & H).
    unfold readlines in Hread. rewrite bind_run in Hread. unfold external in Hread.
    cbn [env on_env tape set_trace] in Hread.
    destruct (tape (env s1)) as [|r rest]; [discriminate|].
    destruct (ans r); try discriminate. injection Hread as <- <-.
    match type of H with log_lines ?l ?s2 = _ =>
      destruct (log_lines_run l s2) as (s'' & Hrun & Hrec & Hal) end.
    rewrite Hrun in H. injection H as <-.
    exists [], (map (Logged ERROR) (List.filter (fun l => nonempty (strip l)) l)).
    split; [|split].
    + unfold recorded in *. rewrite Hrec. cbn [env on_env trace set_trace set_tape set_alive].
      rewrite Hrec1, <- !app_assoc. reflexivity.
    + apply Forall_forall. intros e He. apply list_elem_of_In, in_map_iff in He as (x & <- & _).
      exists x. reflexivity.
    + rewrite Hal. cbn [env on_env alive set_alive set_tape set_trace].
      intros Hin. apply elem_of_difference in Hin as [Hin _]. exact (Hup Hin).
Qed.

End Supervisor.

(** X10.  The supervising loop returns for one reason only.  If
    [keep_alive] returns, the last poll of the session found it dead: that
    poll is followed by the record that the kernel died and then by nothing
    but the session's last lines, logged as errors, and the session is not
    running in the end.  A session that stays alive is supervised until an
    exception ends the loop. *)
Theorem supervisor_returns_after_exit timeout s s' :
  keep_alive timeout s = (Returned tt, s') ->
  exists conn before after,
    connection (obj s) = Some conn /\
    recorded s s' (before ++ Polled conn false :: died :: after) /\
    Forall error_line after /\ conn ∉ alive (env s').
Proof.
  unfold keep_alive. rewrite bind_self.
  destruct (connection (obj s)) as [conn|]; [|discriminate].
  intros H. apply bind_returned in H as ([] & s1 & Hsleep & H).
  destruct (grows (sleep (1000 * timeout)) s) as (d & Hd).
  { apply steps_sleep. exact I. }
  rewrite Hsleep in Hd. cbn [snd] in Hd.
  apply keep_alive_loop_returned in H as (before & after & Hrec & Hafter & Hdead).
  exists conn, (d ++ before), after. split; [reflexivity|]. split; [|split; assumption].
  rewrite <- app_assoc. exact (recorded_trans _ _ _ _ _ Hd Hrec).
Qed.

Definition exits_at_once : state :=
  launched [ok; mkReply [1%nat] Done; mkReply [] (Lines ["Killed"; " "])].

Lemma supervisor_returns_after_exit_witness :
  exists before after,
    recorded exits_at_once (snd (keep_alive 5 exits_at_once))
      (before ++ Polled 1%nat false :: died :: after) /\
    Forall error_line after /\ 1%nat ∉ alive (env (snd (keep_alive 5 exits_at_once))).
Proof.
  assert (H : keep_alive 5 exits_at_once
              = (Returned tt, snd (keep_alive 5 exits_at_once))).
  { vm_compute. reflexivity. }
  destruct (supervisor_returns_after_exit 5 exits_at_once _ H)
    as (conn & before & after & Hc & Hrec & Hafter & Hdead).
  injection Hc as <-. exists before, after. auto.
Defined.

(** X11.  The only control character the supervising loop ever sends is
    Ctrl-C, and it sends it to the kernel session only: never to the tunnel
    or to the file-system helper. *)
Theorem interrupts_reach_only_the_session timeout s conn :
  connection (obj s) = Some conn ->
  exists d, recorded s (snd (keep_alive timeout s)) d /\ Forall (interrupts_only conn) d.
Proof.
  intros Hc.
  set (P := interrupts_only conn).
  assert (Hother : forall e, (forall q c, e <> SentControl q c) -> P e).
  { intros e He q c H. destruct (He q c H). }
  assert (Hloop : forall fuel, steps (adding P) (keep_alive_loop fuel conn)).
  { induction fuel as [|fuel IH]; cbn [keep_alive_loop]; [apply steps_stuck|].
    apply steps_bind; [apply steps_isalive; intros; apply Hother; discriminate|].
    intros up. destruct up; cbn [negb].
    - apply steps_bind.
      { apply adding_check_tunnels; intros; apply Hother; discriminate. }
      intros _. apply steps_bind; [|intros _; exact IH].
      apply steps_try.
      + apply steps_bind; [apply steps_readlines|]. intros. apply steps_ret.
      + intros e h. destruct e; intros [= <-]; [apply steps_ret|].
        apply steps_bind; [apply steps_log, Hother; discriminate|]. intros _.
        apply steps_sendcontrol. intros q c [= <- <-]. split; reflexivity.
    - apply steps_bind; [apply steps_log, Hother; discriminate|]. intros _.
      apply steps_bind; [apply steps_readlines|]. intros lines.
      induction lines as [|l lines IHl]; cbn [log_lines]; [apply steps_ret|].
      apply steps_bind; [|intros _; exact IHl].
      apply steps_when, steps_log, Hother. discriminate. }
  unfold keep_alive. rewrite bind_self, Hc.
  match goal with |- context [snd (?m s)] => assert (H : steps (adding P) m) end.
  { apply steps_bind; [apply steps_sleep, Hother; discriminate|].
    intros _ s1. apply Hloop. }
  destruct (H s) as (d & Hd & Fd). exists d. split; assumption.
Qed.

Lemma interrupts_reach_only_the_session_witness :
  let s := launched [ok; ok; ok; mkReply [] (Throws KeyboardInterrupt); ok;
                     mkReply [1%nat] Done; mkReply [] (Lines ["bye"])] in
  exists d, recorded s (snd (keep_alive 5 s)) d /\ Forall (interrupts_only 1%nat) d.
Proof.
  cbv zeta. apply interrupts_reach_only_the_session. reflexivity.
Defined.

(** ** What [start_kernel] sends to the session *)

Section StartKernel.

Lemma did_trans s1 s2 s3 l1 l2 : did s1 s2 l1 -> did s2 s3 l2 -> did s1 s3 (l1 ++ l2).
Proof.
  intros (D1 & d1 & R1 & S1) (D2 & d2 & R2 & S2). split; [congruence|].
  exists (d1 ++ d2). split.
  - unfold recorded in *. rewrite R2, R1, app_assoc. reflexivity.
  - unfold sent_lines in *. rewrite flat_map_app, S1, S2. reflexivity.
Qed.

Lemma did_nothing s : did s s [].
Proof. split; [reflexivity|]. exists []. split; [|reflexivity]. unfold recorded. rewrite app_nil_r. reflexivity. Qed.

Lemma sendline_did p l s s' : sendline p l s = (Returned tt, s') -> did s s' [(p, l)].
Proof.
  unfold sendline, call. rewrite bind_run. unfold external.
  destruct (tape (env s)) as [|r rest]; [discriminate|].
  destruct (ans r); try discriminate. cbn [emit modify].
  intros [= <-]. split; [reflexivity|]. exists [SentLine p l]. split; reflexivity.
Qed.

Lemma log_did lv msg s u s' : log lv msg s = (Returned u, s') -> did s s' [].
Proof.
  cbn [log emit modify]. intros [= _ <-]. split; [reflexivity|].
  exists [Logged lv msg]. split; reflexivity.
Qed.

Lemma expect_did p pat s g s' : expect p pat s = (Returned g, s') -> did s s' [].
Proof.
  unfold expect. rewrite bind_run. unfold external.
  destruct (tape (env s)) as [|r rest]; [discriminate|].
  destruct (ans r); try discriminate. cbn [ret].
  intros [= <- <-]. split; [reflexivity|]. exists []. split; [|reflexivity].
  unfold recorded. cbn [env on_env trace set_alive set_tape]. rewrite app_nil_r. reflexivity.
Qed.

Lemma contains_placeholder A B :
  contains "{host_connection_file}" (A +:+ "{host_connection_file}" +:+ B) = true.
Proof. apply contains_app_intro_r, contains_self_app. Qed.

(** Filling in a kernel command whose only field is the connection file. *)
Lemma format_kernel_cmd kw A B v :
  brace_free A = true -> brace_free B = true ->
  kw "host_connection_file" = Some v ->
  format (A +:+ "{host_connection_file}" +:+ B) kw = Returned (A +:+ v +:+ B).
Proof.
  intros HA HB Hkw. unfold format. rewrite (format_plain kw A _ HA).
  change ("{host_connection_file}" +:+ B)
    with (String "{" ("host_connection_file" +:+ String "}" B)).
  rewrite format_field by reflexivity.
  unfold field. change (all_chars is_digit "host_connection_file") with false.
  cbv iota. rewrite Hkw, (format_plain_end kw B HB). reflexivity.
Qed.

End StartKernel.

(** X12.  When the kernel command names the connection file once, as
    [... {host_connection_file} ...], and has no other field, a
    [start_kernel] that returns has sent exactly these lines, all to the
    session and in this order: the change of directory; the creation of the
    file's directory, the removal of a stale file and the line that writes
    the connection information into the file; the pre-command if there is
    one; the kernel command with the very path of that file filled in; the
    removal of the file, queued for when the kernel stops; and [exit]. *)
Theorem start_kernel_writes_then_removes s s' conn A B :
  connection (obj s) = Some conn ->
  kernel_cmd (obj s) = A +:+ "{host_connection_file}" +:+ B ->
  brace_free A = true -> brace_free B = true ->
  connection_info (obj s) !! "host_connection_file" = None ->
  start_kernel s = (Returned tt, s') ->
  let me := obj s in
  let f := host_file me in
  exists d, recorded s s' d /\
    sent_lines d =
    map (pair conn)
      (["cd " +:+ start_directory me;
        "mkdir -p " +:+ dirname f;
        "rm -f " +:+ f;
        "echo '" +:+ dumps (env s) (connection_info me) +:+ "' > " +:+ f] ++
       (if truthy (precmd me) then [str_opt (precmd me)] else []) ++
       [A +:+ f +:+ B; "rm -f " +:+ f; "exit"]).
Proof.
  intros Hconn Hcmd HA HB Hkey H. cbv zeta.
  unfold start_kernel in H. rewrite bind_self, Hconn, Hcmd, contains_placeholder, Hkey in H.
  fold (host_file (obj s)) in H. set (f := host_file (obj s)) in *.
  rewrite (format_kernel_cmd _ A B f HA HB) in H by reflexivity.
  apply bind_returned in H as ([] & s1 & H1 & H). apply log_did in H1.
  apply bind_returned in H as ([] & s2 & H2 & H).
  assert (D2 : did s1 s2 [(conn, "cd " +:+ start_directory (obj s))]).
  { unfold start_directory. destruct (truthy (workdir (obj s))).
    - apply bind_returned in H2 as ([] & t & L & H2). apply log_did in L.
      apply sendline_did in H2. exact (did_trans _ _ _ _ _ L H2).
    - apply bind_returned in H2 as ([] & t & L & H2). apply log_did in L.
      apply sendline_did in H2. exact (did_trans _ _ _ _ _ L H2). }
  clear H2.
  apply bind_returned in H as ([] & s3 & H3 & H).
  assert (D3 : did s2 s3 [(conn, "mkdir -p " +:+ dirname f); (conn, "rm -f " +:+ f);
                          (conn, "echo '" +:+ dumps (env s) (connection_info (obj s)) +:+
                                 "' > " +:+ f)]).
  { apply bind_returned in H3 as ([] & t1 & L1 & H3). apply sendline_did in L1.
    apply bind_returned in H3 as ([] & t2 & L2 & H3). apply sendline_did in L2.
    rewrite bind_gets in H3. apply sendline_did in H3.
    assert (Hd : dumps (env t2) = dumps (env s)).
    { destruct H1 as [E1 _], D2 as [E2 _], L1 as [E3 _], L2 as [E4 _]. congruence. }
    rewrite Hd in H3.
    exact (did_trans _ _ _ _ _ L1 (did_trans _ _ _ _ _ L2 H3)). }
  clear H3.
  apply bind_returned in H as ([] & s4 & H4 & H).
  assert (D4 : did s3 s4 (if truthy (precmd (obj s))
                          then [(conn, str_opt (precmd (obj s)))] else [])).
  { destruct (truthy (precmd (obj s))); cbn [when] in H4.
    - apply sendline_did in H4. exact H4.
    - injection H4 as <-. apply did_nothing. }
  clear H4.
  rewrite bind_run in H. cbn [lift] in H.
  apply bind_returned in H as ([] & s5 & H5 & H). apply log_did in H5.
  apply bind_returned in H as ([] & s6 & H6 & H). apply sendline_did in H6.
  apply bind_returned in H as ([] & s7 & H7 & H). apply sendline_did in H7.
  apply bind_returned in H as ([] & s8 & H8 & H). apply sendline_did in H8.
  apply bind_returned in H as (? & s9 & H9 & H). apply expect_did in H9.
  injection H as <-.
  pose proof (did_trans _ _ _ _ _ H1 (did_trans _ _ _ _ _ D2 (did_trans _ _ _ _ _ D3
               (did_trans _ _ _ _ _ D4 (did_trans _ _ _ _ _ H5 (did_trans _ _ _ _ _ H6
               (did_trans _ _ _ _ _ H7 (did_trans _ _ _ _ _ H8 H9)))))))) as (_ & d & Hd & Hs).
  exists d. split; [exact Hd|]. rewrite Hs.
  destruct (truthy (precmd (obj s))); reflexivity.
Qed.

Definition ready_to_start : state :=
  mkState
    (mkKernel None None false "ssh" 1 None None "smp"
       "python -m ipykernel_launcher -f {host_connection_file}"
       (Some "node7") None (Some 1%nat) (Some "/data/run") true ∅ (Some "module load python")
       None "/home/u" (Some 0x0123abcd89ab4def8123456789abcdef%N)
       "~/.local/share/jupyter/runtime" five_ports)
    (mkWorld (repeat ok 8 ++ [mkReply [] (Groups [])]) [] 2%nat {[ 1%nat ]} ∅ None
       "/home/u" (fun _ => "{}") "0.0" "kernel.py" ∅).

Lemma start_kernel_writes_then_removes_witness :
  exists d, recorded ready_to_start (snd (start_kernel ready_to_start)) d /\
    sent_lines d =
    map (pair 1%nat)
      ["cd /data/run";
       "mkdir -p ~/.local/share/jupyter/runtime";
       "rm -f ~/.local/share/jupyter/runtime/kernel-remote-0123abcd-89ab-4def-8123-456789abcdef.json";
       "echo '{}' > ~/.local/share/jupyter/runtime/kernel-remote-0123abcd-89ab-4def-8123-456789abcdef.json";
       "module load python";
       "python -m ipykernel_launcher -f ~/.local/share/jupyter/runtime/kernel-remote-0123abcd-89ab-4def-8123-456789abcdef.json";
       "rm -f ~/.local/share/jupyter/runtime/kernel-remote-0123abcd-89ab-4def-8123-456789abcdef.json";
       "exit"].
Proof.
  assert (H : start_kernel ready_to_start = (Returned tt, snd (start_kernel ready_to_start))).
  { vm_compute. reflexivity. }
  destruct (start_kernel_writes_then_removes ready_to_start _ 1%nat
              "python -m ipykernel_launcher -f " "" eq_refl eq_refl eq_refl eq_refl
              eq_refl H) as (d & Hd & Hs).
  exists d. split; [exact Hd|]. rewrite Hs. vm_compute. reflexivity.
Defined.

(** X13.  A kernel command that does not name [{host_connection_file}]
    leaves the remote file system alone: a [start_kernel] that returns has
    sent the change of directory, the pre-command if there is one, the
    filled-in kernel command and [exit], and nothing else.  A command
    without braces is sent as it is. *)
Theorem start_kernel_without_host_file s s' conn :
  connection (obj s) = Some conn ->
  contains "{host_connection_file}" (kernel_cmd (obj s)) = false ->
  start_kernel s = (Returned tt, s') ->
  let me := obj s in
  exists d kernel_init, recorded s s' d /\
    sent_lines d =
    map (pair conn)
      (["cd " +:+ start_directory me] ++
       (if truthy (precmd me) then [str_opt (precmd me)] else []) ++
       [kernel_init; "exit"]) /\
    (brace_free (kernel_cmd me) = true -> kernel_init = kernel_cmd me).
Proof.
  intros Hconn Hcmd H. cbv zeta.
  unfold start_kernel in H. rewrite bind_self, Hconn, Hcmd in H.
  apply bind_returned in H as ([] & s1 & H1 & H). apply log_did in H1.
  apply bind_returned in H as ([] & s2 & H2 & H).
  assert (D2 : did s1 s2 [(conn, "cd " +:+ start_directory (obj s))]).
  { unfold start_directory. destruct (truthy (workdir (obj s))).
    - apply bind_returned in H2 as ([] & t & L & H2). apply log_did in L.
      apply sendline_did in H2. exact (did_trans _ _ _ _ _ L H2).
    - apply bind_returned in H2 as ([] & t & L & H2). apply log_did in L.
      apply sendline_did in H2. exact (did_trans _ _ _ _ _ L H2). }
  clear H2.
  apply bind_returned in H as ([] & s3 & H3 & H). injection H3 as <-.
  apply bind_returned in H as ([] & s4 & H4 & H).
  assert (D4 : did s2 s4 (if truthy (precmd (obj s))
                          then [(conn, str_opt (precmd (obj s)))] else [])).
  { destruct (truthy (precmd (obj s))); cbn [when] in H4.
    - apply sendline_did in H4. exact H4.
    - injection H4 as <-. apply did_nothing. }
  clear H4.
  apply bind_returned in H as (kernel_init & s5 & H5 & H).
  assert (Hinit : s5 = s4 /\
                  (brace_free (kernel_cmd (obj s)) = true ->
                   kernel_init = kernel_cmd (obj s))).
  { destruct (connection_info (obj s) !! "host_connection_file"); [discriminate|].
    unfold lift in H5. injection H5 as Hf <-. split; [reflexivity|].
    intros Hfree. unfold format in Hf. rewrite (format_plain_end _ _ Hfree) in Hf.
    congruence. }
  destruct Hinit as [-> Hplain]. clear H5.
  apply bind_returned in H as ([] & s6 & H6 & H). apply log_did in H6.
  apply bind_returned in H as ([] & s7 & H7 & H). apply sendline_did in H7.
  apply bind_returned in H as ([] & s8 & H8 & H). injection H8 as <-.
  apply bind_returned in H as ([] & s9 & H9 & H). apply sendline_did in H9.
  apply bind_returned in H as (? & s10 & H10 & H). apply expect_did in H10.
  injection H as <-.
  pose proof (did_trans _ _ _ _ _ H1 (did_trans _ _ _ _ _ D2 (did_trans _ _ _ _ _ D4
               (did_trans _ _ _ _ _ H6 (did_trans _ _ _ _ _ H7
               (did_trans _ _ _ _ _ H9 H10)))))) as (_ & d & Hd & Hs).
  exists d, kernel_init. split; [exact Hd|]. split; [|exact Hplain]. rewrite Hs.
  destruct (truthy (precmd (obj s))); reflexivity.
Qed.

Lemma start_kernel_without_host_file_witness :
  let s := launched (repeat ok 3 ++ [mkReply [] (Groups [])]) in
  exists d, recorded s (snd (start_kernel s)) d /\
    sent_lines d = map (pair 1%nat) ["cd /home/u"; "ipython kernel"; "exit"].
Proof.
  cbv zeta.
  set (s := launched (repeat ok 3 ++ [mkReply [] (Groups [])])).
  assert (H : start_kernel s = (Returned tt, snd (start_kernel s))).
  { vm_compute. reflexivity. }
  destruct (start_kernel_without_host_file s _ 1%nat eq_refl eq_refl H)
    as (d & kernel_init & Hd & Hs & Hplain).
  exists d. split; [exact Hd|]. rewrite Hs, (Hplain eq_refl). reflexivity.
Defined.

(** ** The password dialogue *)

Section Dialogue.

Lemma bind_not_returned {A B} (m : M A) (k : A -> M B) s :
  (forall a, fst (m s) <> Returned a) -> snd (bind m k s) = snd (m s).
Proof.
  intros H. rewrite bind_run. destruct (m s) as [[a|e|] s1]; try reflexivity.
  destruct (H a). reflexivity.
Qed.

Lemma recorded_quiet s s' : trace (env s') = trace (env s) -> recorded s s' [].
Proof. unfold recorded. intros ->. rewrite app_nil_r. reflexivity. Qed.

Lemma recorded_nothing s : recorded s s [].
Proof. apply recorded_quiet. reflexivity. Qed.

Lemma get_password_cases prompt s :
  (exists pw s', get_password prompt s = (Returned pw, s') /\
     recorded s s' [Asked prompt] /\ askpass (env s) <> None) \/
  ((forall pw, fst (get_password prompt s) <> Returned pw) /\
   recorded s (snd (get_password prompt s)) []).
Proof.
  unfold get_password. rewrite bind_gets.
  destruct (askpass (env s)) as [helper|] eqn:E.
  - rewrite bind_run. unfold external.
    destruct (tape (env s)) as [|r rest].
    { right. split; [discriminate | apply recorded_nothing]. }
    destruct (ans r);
      try (right; split; [discriminate | apply recorded_quiet; reflexivity]).
    left. do 2 eexists. split; [reflexivity|]. split; [reflexivity|discriminate].
  - right. split; [discriminate | apply recorded_nothing].
Qed.

Lemma sendline_cases p l s :
  (exists s', sendline p l s = (Returned tt, s') /\ recorded s s' [SentLine p l]) \/
  ((forall u, fst (sendline p l s) <> Returned u) /\
   recorded s (snd (sendline p l s)) []).
Proof.
  unfold sendline, call. rewrite bind_run. unfold external.
  destruct (tape (env s)) as [|r rest].
  { right. split; [discriminate | apply recorded_nothing]. }
  destruct (ans r);
    try (right; split; [discriminate | apply recorded_quiet; reflexivity]).
  left. eexists. split; reflexivity.
Qed.

(** Nothing is recorded and the askpass setting is what it was. *)
Definition silent : step_rel.
Proof.
  refine (mkStepRel
            (fun s s' => trace (env s') = trace (env s) /\
                         askpass (env s') = askpass (env s))
            (fun _ => False) _ _ _ _).
  - intros s. split; reflexivity.
  - intros s1 s2 s3 [H1 H2] [H3 H4]. split; congruence.
  - intros s r rest _. split; reflexivity.
  - intros s e [].
Defined.

Variable c : pid.

(** What a dialogue from [s] on records. *)
Definition dialogue (s s' : state) : Prop :=
  exists d, recorded s s' d /\ asks_then_sends c d = true /\
            (askpass (env s) = None -> d = []).

(** Answering one prompt: the question is put, and the answer, being
    [bytes], is refused by [sendline]. *)
Lemma answer_dialogue prompt (next : M unit) s :
  dialogue s (snd ((pw <- get_password prompt ;; sendline_bytes c pw ;; next) s)).
Proof.
  destruct (get_password_cases prompt s) as [(pw & s1 & Hrun & Hrec & Hhelper)|[Hno Hrec]].
  - rewrite bind_run, Hrun. cbn [bind sendline_bytes raise snd].
    exists [Asked prompt]. split; [exact Hrec|]. split; [reflexivity|].
    intros Hnone. contradiction.
  - rewrite (bind_not_returned _ _ _ Hno).
    exists []. repeat split. exact Hrec.
Qed.

Lemma check_password_loop_dialogue fuel : forall s,
  dialogue s (snd (check_password_loop fuel c s)).
Proof.
  induction fuel as [|fuel IH]; intros s.
  - exists []. repeat split. apply recorded_nothing.
  - cbn [check_password_loop]. rewrite bind_run.
    match goal with |- context [try_except ?m ?h s] =>
      assert (Hread : steps silent (try_except m h)) end.
    { apply steps_try.
      - apply steps_bind; [apply steps_read_nonblocking|]. intros. apply steps_ret.
      - intros e h. destruct e; intros [= <-]. apply steps_ret. }
    specialize (Hread s).
    match goal with |- context [try_except ?m ?h s] =>
      destruct (try_except m h s) as [[text|e|] s1] end;
      cbn [snd] in Hread; destruct Hread as [Ht Ha].
    + assert (Hon : forall s2, dialogue s1 s2 -> dialogue s s2).
      { intros s2 (d & Hd & Hshape & Hnone). exists d. split; [|split].
        - unfold recorded in *. rewrite Hd, Ht. reflexivity.
        - exact Hshape.
        - intros H. apply Hnone. rewrite Ha. exact H. }
      apply Hon. destruct text as [text|].
      * destruct (Re.search passphrase_pattern text) as [m|];
          [apply answer_dialogue|].
        destruct (Re.search password_pattern text) as [m|];
          [apply answer_dialogue|].
        exists []. repeat split. apply recorded_nothing.
      * exists []. repeat split. apply recorded_nothing.
    + exists []. repeat split. apply recorded_quiet. exact Ht.
    + exists []. repeat split. apply recorded_quiet. exact Ht.
Qed.

End Dialogue.



(** X15.  A password or passphrase prompt met while [SSH_ASKPASS] is not
    set ends the launch: [check_password] raises [RuntimeError] on the spot,
    having consumed the text it read and nothing more, and nothing is sent
    to the session. *)
Theorem prompt_without_askpass_fails c s r rest text :
  tape (env s) = r :: rest ->
  ans r = Text text ->
  prompts text = true ->
  askpass (env s) = None ->
  check_password c s =
  (Raised (RuntimeError "Unable to get password, try setting SSH_ASKPASS"),
   served r rest s).
Proof.
  intros Htape Hans Hprompt Hnone.
  unfold check_password. rewrite Htape. cbn [List.length check_password_loop].
  rewrite bind_run. unfold try_except, read_nonblocking.
  rewrite (bind_run (bind external _)). rewrite (bind_run external).
  rewrite (external_served s r rest Htape), Hans. cbn [ret].
  assert (Hask : forall prompt (k : bytes -> M unit),
            bind (get_password prompt) k (served r rest s) =
            (Raised (RuntimeError "Unable to get password, try setting SSH_ASKPASS"),
             served r rest s)).
  { intros prompt k. rewrite bind_run. unfold get_password. rewrite bind_gets.
    change (askpass (env (served r rest s))) with (askpass (env s)).
    rewrite Hnone. reflexivity. }
  unfold prompts in Hprompt.
  destruct (Re.search passphrase_pattern text) as [m|]; [apply Hask|].
  destruct (Re.search password_pattern text) as [m|]; [apply Hask|].
  rewrite !bool_decide_eq_false_2 in Hprompt by (intros H; apply H; reflexivity).
  discriminate.
Qed.

Lemma prompt_without_askpass_fails_witness :
  let r := mkReply [] (Text "Enter passphrase for key '/home/u/.ssh/id_ed25519': ") in
  let s := mkState nobody
             (mkWorld [r; ok] [] 2%nat {[ 1%nat ]} ∅ None "/home/u" (fun _ => "{}")
                "0.0" "kernel.py" ∅) in
  check_password 1%nat s =
  (Raised (RuntimeError "Unable to get password, try setting SSH_ASKPASS"),
   served r [ok] s).
Proof.
  cbv zeta.
  apply (prompt_without_askpass_fails 1%nat _ _ [ok]
           "Enter passphrase for key '/home/u/.ssh/id_ed25519': "); reflexivity.
Defined.

(** ** The ssh launch: one pair of ports *)

Section SshLaunch.

Lemma ran_trans s1 s2 s3 d1 d2 : ran s1 s2 d1 -> ran s2 s3 d2 -> ran s1 s3 (d1 ++ d2).
Proof.
  intros (O1 & N1 & R1) (O2 & N2 & R2). repeat split; try congruence.
  exact (recorded_trans _ _ _ _ _ R1 R2).
Qed.

Lemma randint_returned lo hi s z s1 :
  randint lo hi s = (Returned z, s1) -> (lo <= z <= hi) /\ ran s s1 [].
Proof.
  unfold randint. rewrite bind_run. unfold external.
  destruct (tape (env s)) as [|r rest]; [discriminate|].
  destruct (ans r); try discriminate.
  destruct (Z.leb_spec lo z0), (Z.leb_spec z0 hi); cbn [andb]; try discriminate.
  cbn [ret]. intros [= <- <-]. split; [lia|].
  repeat split. apply recorded_quiet. reflexivity.
Qed.

Lemma token_returned s tok s1 :
  token_urlsafe s = (Returned tok, s1) -> ran s s1 [].
Proof.
  unfold token_urlsafe. rewrite bind_run. unfold external.
  destruct (tape (env s)) as [|r rest]; [discriminate|].
  destruct (ans r); try discriminate. cbn [ret]. intros [= _ <-].
  repeat split. apply recorded_quiet. reflexivity.
Qed.

Lemma Popen_returned argv s p s1 :
  Popen argv s = (Returned p, s1) ->
  p = next_pid (env s) /\ obj s1 = obj s /\ next_pid (env s1) = S p /\
  recorded s s1 [Popened p argv].
Proof.
  unfold Popen. rewrite bind_run. unfold external.
  destruct (tape (env s)) as [|r rest]; [discriminate|].
  destruct (ans r); try discriminate.
  unfold fresh. rewrite !bind_run. cbn [gets modify emit ret].
  intros [= <- <-]. repeat split.
Qed.

Lemma pexpect_spawn_returned c s p s1 :
  pexpect_spawn c s = (Returned p, s1) ->
  p = next_pid (env s) /\ obj s1 = obj s /\ next_pid (env s1) = S p /\
  recorded s s1 [Spawned p c].
Proof.
  unfold pexpect_spawn. rewrite bind_run. unfold external.
  destruct (tape (env s)) as [|r rest]; [discriminate|].
  destruct (ans r); try discriminate.
  unfold fresh. rewrite !bind_run. cbn [gets modify emit ret].
  intros [= <- <-]. repeat split.
Qed.

Lemma sleep_returned z s u s1 : sleep z s = (Returned u, s1) -> ran s s1 [Slept z].
Proof.
  unfold sleep, call. rewrite bind_run. unfold external.
  destruct (tape (env s)) as [|r rest]; [discriminate|].
  destruct (ans r); try discriminate. cbn [emit modify]. intros [= _ <-].
  repeat split.
Qed.

Lemma sendline_returned p l s u s1 :
  sendline p l s = (Returned u, s1) -> ran s s1 [SentLine p l].
Proof.
  unfold sendline, call. rewrite bind_run. unfold external.
  destruct (tape (env s)) as [|r rest]; [discriminate|].
  destruct (ans r); try discriminate. cbn [emit modify]. intros [= _ <-].
  repeat split.
Qed.

Lemma log_returned lv msg s u s1 : log lv msg s = (Returned u, s1) -> ran s s1 [Logged lv msg].
Proof. cbn [log emit modify]. intros [= _ <-]. repeat split. Qed.

(** The password dialogue leaves the object and the process counter alone. *)
Lemma check_password_ran c s :
  exists d, ran s (snd (check_password c s)) d /\ asks_then_sends c d = true.
Proof.
  destruct (check_password_loop_dialogue c (S (List.length (tape (env s)))) s)
    as (d & Hd & Hshape & _).
  exists d. split; [|exact Hshape].
  pose proof (steps_check_password (staying c) ltac:(reflexivity) c s)
    as (Ho & Hn & _).
  repeat split; assumption.
Qed.

End SshLaunch.

(** X16.  An ssh launch that returns, started without a session, has used
    one pair of ports throughout.  The helper serving the local directory
    listens on a port [pl] between 35000 and 35999; the login command
    forwards a remote port [pr] between 34000 and 34999 to exactly that
    [pl]; and the mount requested on the remote side is told to connect to
    that same [pr].  The helper is started first, the session next, and the
    three lines that create, mount and enter the remote directory are sent
    to the session after the password dialogue. *)
Theorem ssh_launch_uses_one_port_pair s s' :
  connection (obj s) = None ->
  launch_ssh s = (Returned tt, s') ->
  exists pr pl tok dialog,
    let helper := next_pid (env s) in
    let ssh := S helper in
    let wd := "/tmp/ikrsshfs-" +:+ tok in
    34000 <= pr <= 34999 /\ 35000 <= pl <= 35999 /\
    sshfs_proc (obj s') = Some helper /\ connection (obj s') = Some ssh /\
    asks_then_sends ssh dialog = true /\
    recorded s s'
      ([Popened helper ["ncat"; "-l"; "-p"; str_int pl; "-e";
                        "/usr/lib/openssh/sftp-server -d " +:+ cwd (obj s)];
        Slept 100;
        Logged INFO "Launching kernel over SSH.";
        Logged DEBUG ("Login command: '" +:+ login_cmd (obj s) pr pl +:+ "'.");
        Spawned ssh (login_cmd (obj s) pr pl)] ++
       dialog ++
       [SentLine ssh ("mkdir -p " +:+ wd);
        SentLine ssh ("sshfs localhost: " +:+ wd +:+ " -o directport=" +:+ str_int pr);
        SentLine ssh ("cd " +:+ wd)]).
Proof.
  intros Hconn H. unfold launch_ssh in H.
  apply bind_returned in H as (a & s1 & H1 & H).
  apply randint_returned in H1 as [Ha (O1 & N1 & R1)].
  apply bind_returned in H as (b & s2 & H2 & H).
  apply randint_returned in H2 as [Hb (O2 & N2 & R2)].
  apply bind_returned in H as (tok & s3 & H3 & H).
  apply token_returned in H3 as (O3 & N3 & R3).
  rewrite bind_self in H.
  assert (Hme : obj s3 = obj s) by congruence.
  assert (Hnp : next_pid (env s3) = next_pid (env s)) by congruence.
  pose proof (recorded_trans _ _ _ _ _ R1 (recorded_trans _ _ _ _ _ R2 R3)) as R03.
  cbn [app] in R03. clear O1 O2 O3 N1 N2 N3 R1 R2 R3.
  rewrite Hme in H.
  apply bind_returned in H as (helper & s4 & H4 & H).
  apply Popen_returned in H4 as (-> & O4 & N4 & R4).
  rewrite bind_modify in H.
  apply bind_returned in H as ([] & s5 & H5 & H).
  apply sleep_returned in H5 as (O5 & N5 & R5).
  cbn [env on_obj] in N5.
  apply bind_returned in H as ([] & s6 & H6 & H).
  apply log_returned in H6 as (O6 & N6 & R6).
  apply bind_returned in H as ([] & s7 & H7 & H).
  apply log_returned in H7 as (O7 & N7 & R7).
  apply bind_returned in H as (ssh & s8 & H8 & H).
  assert (O57 : obj s7 = set_sshfs_proc (Some (next_pid (env s3))) (obj s4)).
  { rewrite O7, O6, O5. reflexivity. }
  unfold _spawn in H8. rewrite bind_self, O57 in H8.
  cbn [connection set_sshfs_proc] in H8. rewrite O4, Hme, Hconn in H8.
  apply bind_returned in H8 as (p & s9 & H9 & H8).
  apply pexpect_spawn_returned in H9 as (-> & O9 & N9 & R9).
  rewrite bind_modify in H8. injection H8 as <- <-.
  apply bind_returned in H as ([] & s10 & H10 & H).
  match type of H10 with check_password ?c ?t = _ =>
    destruct (check_password_ran c t) as (dialog & (O10 & N10 & R10) & Hshape) end.
  rewrite H10 in O10, N10, R10. cbn [snd] in O10, N10, R10.
  apply bind_returned in H as ([] & s11 & H11 & H).
  apply sendline_returned in H11 as (O11 & N11 & R11).
  apply bind_returned in H as ([] & s12 & H12 & H).
  apply sendline_returned in H12 as (O12 & N12 & R12).
  apply sendline_returned in H as (O13 & N13 & R13).
  assert (Hssh : next_pid (env s7) = S (next_pid (env s))) by congruence.
  rewrite Hssh in *. rewrite Hnp in *.
  exists (34000 + a), (35000 + b), tok, dialog. cbv zeta.
  split; [lia|]. split; [lia|].
  assert (Hobj : obj s' = set_connection (Some (S (next_pid (env s))))
                            (set_sshfs_proc (Some (next_pid (env s))) (obj s))).
  { rewrite O13, O12, O11, O10. cbn [obj on_obj]. rewrite O9, O57, O4, Hme. reflexivity. }
  split; [rewrite Hobj; reflexivity|]. split; [rewrite Hobj; reflexivity|].
  split; [exact Hshape|].
  assert (R48 : recorded s4 (on_obj (set_connection (Some (S (next_pid (env s))))) s9)
                  [Slept 100; Logged INFO "Launching kernel over SSH.";
                   Logged DEBUG ("Login command: '" +:+
                                 login_cmd (obj s) (34000 + a) (35000 + b) +:+ "'.");
                   Spawned (S (next_pid (env s)))
                     (login_cmd (obj s) (34000 + a) (35000 + b))]).
  { unfold recorded in *. cbn [env on_obj on_env] in *.
    rewrite R9, R7, R6, R5. cbn [env on_obj]. rewrite <- !app_assoc. reflexivity. }
  pose proof (recorded_trans _ _ _ _ _ R03
               (recorded_trans _ _ _ _ _ R4
                 (recorded_trans _ _ _ _ _ R48
                   (recorded_trans _ _ _ _ _ R10
                     (recorded_trans _ _ _ _ _ R11
                       (recorded_trans _ _ _ _ _ R12 R13)))))) as R.
  exact R.
Qed.

Definition before_ssh : state :=
  mkState
    (mkKernel None None false "ssh" 1 None None "smp" "ipython kernel" (Some "node7")
       None None None true ∅ None None "/home/u" None "~/.local/share/jupyter/runtime"
       five_ports)
    (script ([mkReply [] (Number 17); mkReply [] (Number 4); mkReply [] (Text "Zm9v")] ++
             repeat ok 3 ++ [mkReply [] (Throws TIMEOUT)] ++ repeat ok 3)).

Lemma ssh_launch_uses_one_port_pair_witness :
  exists pr pl tok dialog,
    34000 <= pr <= 34999 /\ 35000 <= pl <= 35999 /\
    sshfs_proc (obj (snd (launch_ssh before_ssh))) = Some 100%nat /\
    connection (obj (snd (launch_ssh before_ssh))) = Some 101%nat /\
    asks_then_sends 101%nat dialog = true /\
    recorded before_ssh (snd (launch_ssh before_ssh))
      ([Popened 100%nat ["ncat"; "-l"; "-p"; str_int pl; "-e";
                         "/usr/lib/openssh/sftp-server -d /home/u"];
        Slept 100;
        Logged INFO "Launching kernel over SSH.";
        Logged DEBUG ("Login command: '" +:+ login_cmd (obj before_ssh) pr pl +:+ "'.");
        Spawned 101%nat (login_cmd (obj before_ssh) pr pl)] ++
       dialog ++
       [SentLine 101%nat ("mkdir -p " +:+ "/tmp/ikrsshfs-" +:+ tok);
        SentLine 101%nat ("sshfs localhost: " +:+ ("/tmp/ikrsshfs-" +:+ tok) +:+
                          " -o directport=" +:+ str_int pr);
        SentLine 101%nat ("cd " +:+ "/tmp/ikrsshfs-" +:+ tok)]).
Proof.
  assert (H : launch_ssh before_ssh = (Returned tt, snd (launch_ssh before_ssh))).
  { vm_compute. reflexivity. }
  exact (ssh_launch_uses_one_port_pair before_ssh _ eq_refl H).
Defined.

(** ** Destroying the object *)

(** X17.  When the destructor returns, the helper that served the local
    directory, if there was one, has been killed and waited for exactly
    once, it is not running, and the object no longer refers to it; an
    object without a helper is left as it is.  Destroying the object a
    second time does nothing at all. *)
Theorem destructor_stops_helper_once s s' :
  __del__ s = (Returned tt, s') ->
  sshfs_proc (obj s') = None /\
  match sshfs_proc (obj s) with
  | Some p => recorded s s' [Killed p] /\ p ∉ alive (env s')
  | None => s' = s
  end /\
  __del__ s' = (Returned tt, s').
Proof.
  change __del__ with __del__second. unfold __del__second. rewrite !bind_self.
  destruct (sshfs_proc (obj s)) as [p|] eqn:E.
  - intros H.
    apply bind_returned in H as ([] & s1 & Hkill & H).
    apply bind_returned in H as ([] & s2 & Hwait & H).
    cbn [modify] in H. injection H as <-. cbn [obj on_obj sshfs_proc set_sshfs_proc].
    split; [reflexivity|]. split; [|reflexivity].
    unfold kill, call in Hkill. rewrite bind_run in Hkill. unfold external in Hkill.
    destruct (tape (env s)) as [|r rest]; [discriminate|].
    destruct (ans r); try discriminate.
    rewrite bind_modify in Hkill. cbn [emit modify] in Hkill. injection Hkill as <-.
    unfold wait, call in Hwait. rewrite bind_run in Hwait. unfold external in Hwait.
    cbn [env on_env tape set_trace set_alive set_tape] in Hwait.
    destruct rest as [|r2 rest2]; [discriminate|].
    destruct (ans r2); try discriminate. cbn [ret] in Hwait. injection Hwait as <-.
    split; [reflexivity|].
    cbn [env on_env on_obj alive set_trace set_alive set_tape].
    intros Hin. apply elem_of_difference in Hin as [Hin _].
    apply elem_of_difference in Hin as [_ Hin]. apply Hin, elem_of_singleton. reflexivity.
  - cbn [ret]. intros [= <-]. rewrite E. repeat split; reflexivity.
Qed.

Definition with_helper : state :=
  mkState (set_sshfs_proc (Some 7%nat) nobody)
    (mkWorld [ok; ok] [] 8%nat {[ 7%nat ]} ∅ None "/home/u" (fun _ => "{}") "0.0"
       "kernel.py" ∅).

Lemma destructor_stops_helper_once_witness :
  recorded with_helper (snd (__del__ with_helper)) [Killed 7%nat] /\
  (7%nat ∉ alive (env (snd (__del__ with_helper)))) /\
  __del__ (snd (__del__ with_helper)) = (Returned tt, snd (__del__ with_helper)).
Proof.
  assert (H : __del__ with_helper = (Returned tt, snd (__del__ with_helper))).
  { vm_compute. reflexivity. }
  destruct (destructor_stops_helper_once with_helper _ H) as (_ & [Hk Ha] & Hagain).
  auto.
Defined.

(** * Properties of [manage.add_kernel] *)

(** ** Replacing a placeholder *)

Section Replace.

(** The text replaced is [old], which begins with [o] and has no other [o];
    the replacement [new] begins with [o] too, does not contain [old], and
    ends so that no occurrence of [old] can run across its end. *)
Variables (o : ascii) (t n' : string).

Let old := String o t.
Let new := String o n'.

Hypothesis o_once : has_char o t = false.
Hypothesis new_clean : contains old new = false.
Hypothesis new_closes : closes old new = true.

Lemma replace_skip p r :
  replace_from (String.length p) old new (p +:+ r) = replace_from 0 old new r.
Proof. induction p as [|c p IH]; [reflexivity|]. rewrite append_cons. exact IH. Qed.

(** One step of the replacement, at an occurrence and elsewhere. *)
Lemma replace_at r : replace old new (old +:+ r) = new +:+ replace old new r.
Proof.
  assert (H1 : startswith old (String o (t +:+ r)) = true)
    by exact (startswith_refl old r).
  assert (H2 : replace_from (String.length old - 1) old new (t +:+ r)
               = replace_from 0 old new r).
  { change (String.length old - 1)%nat with (String.length t - 0)%nat.
    rewrite Nat.sub_0_r. apply replace_skip. }
  change (replace old new (old +:+ r))
    with (if startswith old (String o (t +:+ r))
          then new +:+ replace_from (String.length old - 1) old new (t +:+ r)
          else String o (replace_from 0 old new (t +:+ r))).
  rewrite H1, H2. reflexivity.
Qed.

Lemma replace_past c s :
  startswith old (String c s) = false ->
  replace old new (String c s) = String c (replace old new s).
Proof.
  intros H.
  change (replace old new (String c s))
    with (if startswith old (String c s)
          then new +:+ replace_from (String.length old - 1) old new s
          else String c (replace_from 0 old new s)).
  rewrite H. reflexivity.
Qed.

Lemma text_cases s :
  (exists r, s = old +:+ r) \/ s = "" \/
  (exists c s', s = String c s' /\ startswith old s = false).
Proof.
  destruct (startswith old s) eqn:E.
  - left. apply startswith_spec. exact E.
  - destruct s as [|c s']; [auto|]. right. right. eauto.
Qed.

(** A text free of [o] is a prefix of the result exactly when it is one of
    the original: the replacement changes nothing before the first [o] it
    rewrites, and it rewrites [o] to [o]. *)
Lemma startswith_replace : forall k s p,
  (String.length s <= k)%nat -> has_char o p = false ->
  startswith p (replace old new s) = startswith p s.
Proof.
  induction k as [|k IH]; intros s p Hk Hp.
  - destruct s; [reflexivity | cbn [String.length] in Hk; lia].
  - destruct p as [|a p]; [reflexivity|].
    rewrite has_char_cons in Hp. apply orb_false_iff in Hp as [Ha Hp].
    rewrite Ascii.eqb_sym in Ha.
    destruct (text_cases s) as [[r ->]|[->|(c & s' & -> & Hno)]].
    + rewrite replace_at. unfold new, old. rewrite !append_cons.
      cbn [startswith]. rewrite Ha. reflexivity.
    + reflexivity.
    + rewrite (replace_past c s' Hno). cbn [startswith].
      rewrite (IH s' p); [reflexivity | cbn [String.length] in Hk; lia | exact Hp].
Qed.

(** After the replacement no occurrence of [old] is left. *)
Lemma replace_removes : forall k s,
  (String.length s <= k)%nat -> contains old (replace old new s) = false.
Proof.
  induction k as [|k IH]; intros s Hk.
  - destruct s; [reflexivity | cbn [String.length] in Hk; lia].
  - destruct (text_cases s) as [[r ->]|[->|(c & s' & -> & Hno)]].
    + rewrite replace_at, (contains_app_closes _ _ _ new_closes), new_clean.
      apply IH. rewrite length_append in Hk. unfold old in Hk.
      cbn [String.length] in Hk. lia.
    + reflexivity.
    + rewrite (replace_past c s' Hno). cbn [contains].
      rewrite (IH s') by (cbn [String.length] in Hk; lia).
      rewrite orb_false_r.
      change (Ascii.eqb o c && startswith t (replace old new s') = false).
      rewrite (startswith_replace (String.length s') s' t (Nat.le_refl _) o_once).
      exact Hno.
Qed.

(** Where [old] stood, [new] stands. *)
Lemma replace_puts : forall k s,
  (String.length s <= k)%nat -> contains old s = true ->
  contains new (replace old new s) = true.
Proof.
  induction k as [|k IH]; intros s Hk Hc.
  - destruct s; [discriminate | cbn [String.length] in Hk; lia].
  - destruct (text_cases s) as [[r ->]|[->|(c & s' & -> & Hno)]].
    + rewrite replace_at. apply contains_self_app.
    + discriminate.
    + rewrite (replace_past c s' Hno). apply contains_skip, IH.
      * cbn [String.length] in Hk. lia.
      * cbn [contains] in Hc. rewrite Hno in Hc. exact Hc.
Qed.

End Replace.

(** [add_kernel] protects the connection-file field of the kernel command. *)
Lemma protect_connection_file cmd :
  let cmd' := replace "{connection_file}" "{host_connection_file}" cmd in
  contains "{connection_file}" cmd' = false /\
  (contains "{connection_file}" cmd = true ->
   contains "{host_connection_file}" cmd' = true).
Proof.
  cbv zeta. split.
  - apply (replace_removes "{" "connection_file}" "host_connection_file}"
             eq_refl eq_refl eq_refl (String.length cmd) cmd (Nat.le_refl _)).
  - apply (replace_puts "{" "connection_file}" "host_connection_file}"
             (String.length cmd) cmd (Nat.le_refl _)).
Qed.

(** ** The name and the command line of the installed kernel *)

Section Naming.

Lemma sub_nonword_app r a b : sub_nonword r (a +:+ b) = sub_nonword r a +:+ sub_nonword r b.
Proof.
  induction a as [|c a IH]; [reflexivity|].
  rewrite append_cons. cbn [sub_nonword]. rewrite IH, append_assoc. reflexivity.
Qed.

Lemma sub_nonword_words s : all_chars is_word (sub_nonword "_" s) = true.
Proof.
  induction s as [|c s IH]; [reflexivity|]. cbn [sub_nonword].
  destruct (is_word c) eqn:E.
  - rewrite append_cons, append_nil_l. cbn [all_chars]. rewrite E. exact IH.
  - change ("_" +:+ sub_nonword "_" s) with (String "_" (sub_nonword "_" s)).
    cbn [all_chars]. rewrite IH. reflexivity.
Qed.

End Naming.

Section Lists.

Import AddKernel.

(** The command line [l'] continues the command line of [l]. *)
Definition continues (l l' : lists) : Prop := exists more, argv l' = argv l ++ more.

Lemma continues_refl l : continues l l.
Proof. exists []. rewrite app_nil_r. reflexivity. Qed.

Lemma continues_trans l1 l2 l3 : continues l1 l2 -> continues l2 l3 -> continues l1 l3.
Proof.
  intros [m1 H1] [m2 H2]. exists (m1 ++ m2). rewrite H2, H1, app_assoc. reflexivity.
Qed.

Lemma continues_extend x l : continues l (argv_extend x l).
Proof. exists x. reflexivity. Qed.

Lemma continues_name x l l' : continues l l' -> continues l (name_append x l').
Proof. intros [m H]. exists m. exact H. Qed.

Lemma continues_display x l l' : continues l l' -> continues l (display_append x l').
Proof. intros [m H]. exists m. exact H. Qed.

Lemma continues_option opt v l : continues l (option_given opt v l).
Proof. destruct v; [apply continues_extend | apply continues_refl]. Qed.

End Lists.

Section Frame.

Import AddKernel.

Ltac follow :=
  repeat first
    [ apply continues_refl
    | apply continues_name
    | apply continues_display
    | match goal with
      | |- continues _ (match ?x with _ => _ end) => destruct x
      | |- continues _ (if ?b then _ else _) => destruct b
      end
    | eapply continues_trans; [|apply continues_extend]
    | eapply continues_trans; [|apply continues_option] ].

Lemma describe_continues a l l' :
  describe a l = Returned l' ->
  exists l1, l' = argv_extend ["-f"; "{connection_file}"] l1 /\ continues l l1.
Proof.
  unfold describe. destruct (name a) as [n|]; [|discriminate].
  cbv zeta. intros [= <-]. eexists. split; [reflexivity|].
  follow.
Qed.

End Frame.

Section Outcome.

Import AddKernel.

Lemma describe_cases a l :
  (name a = None /\ exists msg, describe a l = Raised (TypeError msg)) \/
  (name a <> None /\ exists l', describe a l = Returned l').
Proof.
  unfold describe. destruct (name a) as [n|].
  - right. split; [discriminate|]. eexists. reflexivity.
  - left. split; [reflexivity|]. eexists. reflexivity.
Qed.

Lemma how_to_connect_cases a l :
  match how_to_connect a l with
  | Returned l' =>
      known_interface a /\ host_if_ssh a /\
      exists i more, interface a = Some i /\ argv l' = argv l ++ ["--interface"; i] ++ more
  | Raised e =>
      (~ known_interface a /\
       e = ValueError ("Unknown interface " +:+ str_opt (interface a))) \/
      (interface a = Some "ssh" /\ host a = None /\
       e = KeyError "A host is required for ssh.")
  | Stuck => False
  end.
Proof.
  unfold how_to_connect, known_interface, host_if_ssh, known_interfaces.
  destruct (bool_decide_reflect (interface a = Some "local")) as [E|N1].
  { rewrite E. split; [|split].
    - exists "local". split; [reflexivity|]. cbn [In]. tauto.
    - discriminate.
    - exists "local", []. split; reflexivity. }
  destruct (bool_decide_reflect (interface a = Some "pbs")) as [E|N2].
  { rewrite E. split; [|split].
    - exists "pbs". split; [reflexivity|]. cbn [In]. tauto.
    - discriminate.
    - exists "pbs", []. split; reflexivity. }
  destruct (bool_decide_reflect (interface a = Some "sge")) as [E|N3].
  { rewrite E. split; [|split].
    - exists "sge". split; [reflexivity|]. cbn [In]. tauto.
    - discriminate.
    - exists "sge", []. split; reflexivity. }
  destruct (bool_decide_reflect (interface a = Some "ssh")) as [E|N4].
  { destruct (host a) as [h|] eqn:Eh.
    - split; [|split].
      + exists "ssh". split; [exact E|]. cbn [In]. tauto.
      + discriminate.
      + exists "ssh", ["--host"; h]. split; [exact E|].
        cbn [argv display_append name_append argv_extend]. rewrite <- app_assoc.
        reflexivity.
    - right. auto. }
  destruct (bool_decide_reflect (interface a = Some "slurm")) as [E|N5].
  { rewrite E. split; [|split].
    - exists "slurm". split; [reflexivity|]. cbn [In]. tauto.
    - discriminate.
    - exists "slurm", []. split; reflexivity. }
  left. split; [|reflexivity].
  intros (i & Hi & Hin). cbn [In] in Hin.
  destruct Hin as [<-|[<-|[<-|[<-|[<-|[]]]]]]; contradiction.
Qed.

End Outcome.

(** X18.  [add_kernel] fails in three cases only, checked in this order: an
    interface it does not know (or none) gives [ValueError]; the ssh
    interface without a host gives [KeyError]; a missing name gives
    [TypeError].  In every other case it goes on to install the kernel. *)
Theorem add_kernel_refuses executable sys_argv a :
  match add_kernel executable sys_argv a with
  | Returned _ =>
      known_interface a /\ host_if_ssh a /\ AddKernel.name a <> None
  | Raised e =>
      (~ known_interface a /\
       e = ValueError ("Unknown interface " +:+ str_opt (AddKernel.interface a))) \/
      (AddKernel.interface a = Some "ssh" /\ AddKernel.host a = None /\
       e = KeyError "A host is required for ssh.") \/
      (known_interface a /\ host_if_ssh a /\ AddKernel.name a = None /\
       exists msg, e = TypeError msg)
  | Stuck => False
  end.
Proof.
  unfold add_kernel.
  pose proof (how_to_connect_cases a
                (AddKernel.mkLists [] [] [executable; "-m"; "ikernel_remote"])) as H.
  destruct (AddKernel.how_to_connect a _) as [l|e|]; [|tauto|exact H].
  destruct H as (Hk & Hh & _).
  destruct (describe_cases a l) as [[Hn (msg & ->)]|[Hn (l' & ->)]].
  - right. right. eauto.
  - auto.
Qed.

(** X19.  The name a kernel is installed under always starts with
    [remote_] and consists of word characters only, whatever texts went
    into it: host names, resource requests and jump hosts included. *)
Theorem kernel_name_is_plain executable sys_argv a kernel_name json :
  add_kernel executable sys_argv a = Returned (kernel_name, json) ->
  startswith "remote_" kernel_name = true /\ all_chars is_word kernel_name = true.
Proof.
  unfold add_kernel.
  destruct (AddKernel.how_to_connect a _) as [l|e|]; try discriminate.
  destruct (AddKernel.describe a l) as [l'|e|]; try discriminate.
  intros [= <- _]. split.
  - rewrite sub_nonword_app. apply (startswith_refl "remote_").
  - apply sub_nonword_words.
Qed.

Definition ssh_kernel : AddKernel.t :=
  AddKernel.make (Some "ssh") (Some "Python 3.11") (Some "ipython kernel -f {connection_file}")
    (Some 4) (Some "16G") None None None false None (Some "me@login.example.org") None None
    (Some ["gate:2222"]) false None.

Lemma kernel_name_is_plain_witness :
  let kernel_name := "remote_ssh_me_login_example_org_python311_4cpus_16g_via_gate_2222" in
  startswith "remote_" kernel_name = true /\ all_chars is_word kernel_name = true.
Proof.
  cbv zeta.
  eapply (kernel_name_is_plain "/usr/bin/python3" ["ikernel_remote"; "manage"; "--add"]
            ssh_kernel).
  reflexivity.
Defined.

(** X20.  The command line written into [kernel.json] always has the same
    frame: it starts with the interpreter, [-m ikernel_remote] and the
    interface, and it ends with [-f {connection_file}], the field the
    notebook server fills in.  The module name at its third place is what
    [manage] recognises its own kernels by. *)
Theorem kernel_argv_frame executable sys_argv a kernel_name json :
  add_kernel executable sys_argv a = Returned (kernel_name, json) ->
  exists i middle,
    AddKernel.interface a = Some i /\
    AddKernel.json_argv json =
    [executable; "-m"; "ikernel_remote"; "--interface"; i] ++ middle ++
    ["-f"; "{connection_file}"].
Proof.
  unfold add_kernel.
  pose proof (how_to_connect_cases a
                (AddKernel.mkLists [] [] [executable; "-m"; "ikernel_remote"])) as H.
  destruct (AddKernel.how_to_connect a _) as [l|e|]; try discriminate.
  destruct H as (_ & _ & i & more & Hi & Hl).
  destruct (AddKernel.describe a l) as [l'|e|] eqn:E; try discriminate.
  apply describe_continues in E as (l1 & -> & (more1 & Hl1)).
  intros [= _ <-]. exists i, (more ++ more1). split; [exact Hi|].
  cbn [AddKernel.json_argv AddKernel.argv AddKernel.argv_extend].
  rewrite Hl1, Hl. cbn [AddKernel.argv app]. rewrite <- !app_assoc. reflexivity.
Qed.

Lemma kernel_argv_frame_witness :
  exists i middle json,
    add_kernel "/usr/bin/python3" ["ikernel_remote"; "manage"; "--add"] ssh_kernel
    = Returned ("remote_ssh_me_login_example_org_python311_4cpus_16g_via_gate_2222", json) /\
    AddKernel.interface ssh_kernel = Some i /\
    AddKernel.json_argv json =
    ["/usr/bin/python3"; "-m"; "ikernel_remote"; "--interface"; i] ++ middle ++
    ["-f"; "{connection_file}"].
Proof.
  destruct (add_kernel "/usr/bin/python3" ["ikernel_remote"; "manage"; "--add"] ssh_kernel)
    as [[kernel_name json]|e|] eqn:E; try (vm_compute in E; discriminate).
  destruct (kernel_argv_frame _ _ _ _ _ E) as (i & middle & Hi & Hargv).
  exists i, middle, json. split; [|split; assumption].
  assert (Hname : kernel_name =
            "remote_ssh_me_login_example_org_python311_4cpus_16g_via_gate_2222").
  { vm_compute in E. injection E as <- _. reflexivity. }
  rewrite Hname. reflexivity.
Defined.

Section Protect.

Import AddKernel.

(** The command line of [l] holds the option [opt] with the value [v]. *)
Definition has_option (opt v : string) (l : lists) : Prop :=
  exists pre post, argv l = pre ++ [opt; v] ++ post.

Lemma has_option_here opt v l : has_option opt v (option_given opt (Some v) l).
Proof. exists (argv l), []. reflexivity. Qed.

Lemma has_option_extend opt v x l : has_option opt v l -> has_option opt v (argv_extend x l).
Proof.
  intros (pre & post & H). exists pre, (post ++ x).
  cbn [argv argv_extend]. rewrite H, <- !app_assoc. reflexivity.
Qed.

Lemma has_option_name opt v x l : has_option opt v l -> has_option opt v (name_append x l).
Proof. intros H. exact H. Qed.

Lemma has_option_display opt v x l :
  has_option opt v l -> has_option opt v (display_append x l).
Proof. intros H. exact H. Qed.

Lemma describe_kernel_cmd a l l' cmd :
  kernel_cmd a = Some cmd ->
  describe a l = Returned l' ->
  has_option "--kernel_cmd" (replace "{connection_file}" "{host_connection_file}" cmd) l'.
Proof.
  intros Hcmd. unfold describe. rewrite Hcmd. destruct (name a) as [n|]; [|discriminate].
  cbv zeta. intros [= <-]. cbn [fmap option_fmap option_map].
  repeat first
    [ apply has_option_here
    | apply has_option_name
    | apply has_option_display
    | apply has_option_extend
    | match goal with
      | |- has_option _ _ (match ?x with _ => _ end) => destruct x
      | |- has_option _ _ (if ?b then _ else _) => destruct b
      end ].
Qed.

End Protect.

(** X21.  The kernel command is protected before it is written: in the
    value installed after [--kernel_cmd] every [{connection_file}] has
    become [{host_connection_file}], so none is left for the notebook
    server to fill in with a local path, and a command that named the
    connection file now names the file on the host, which is what makes
    [start_kernel] create it. *)
Theorem kernel_cmd_is_protected executable sys_argv a kernel_name json cmd :
  AddKernel.kernel_cmd a = Some cmd ->
  add_kernel executable sys_argv a = Returned (kernel_name, json) ->
  exists pre post cmd',
    AddKernel.json_argv json = pre ++ ["--kernel_cmd"; cmd'] ++ post /\
    contains "{connection_file}" cmd' = false /\
    (contains "{connection_file}" cmd = true ->
     contains "{host_connection_file}" cmd' = true).
Proof.
  intros Hcmd. unfold add_kernel.
  destruct (AddKernel.how_to_connect a _) as [l|e|]; try discriminate.
  destruct (AddKernel.describe a l) as [l'|e|] eqn:E; try discriminate.
  apply (describe_kernel_cmd a l l' cmd Hcmd) in E as (pre & post & Hargv).
  intros [= _ <-].
  exists pre, post, (replace "{connection_file}" "{host_connection_file}" cmd).
  split; [exact Hargv|]. apply protect_connection_file.
Qed.

Lemma kernel_cmd_is_protected_witness :
  exists pre post cmd',
    AddKernel.json_argv
      (default (AddKernel.mkJson "" [] None [])
         (match add_kernel "/usr/bin/python3" ["ikernel_remote"; "manage"; "--add"]
                  ssh_kernel with
          | Returned r => Some (snd r)
          | _ => None
          end))
    = pre ++ ["--kernel_cmd"; cmd'] ++ post /\
    contains "{connection_file}" cmd' = false /\
    contains "{host_connection_file}" cmd' = true.
Proof.
  destruct (add_kernel "/usr/bin/python3" ["ikernel_remote"; "manage"; "--add"] ssh_kernel)
    as [[kernel_name json]|e|] eqn:E; try (vm_compute in E; discriminate).
  destruct (kernel_cmd_is_protected _ _ ssh_kernel _ _ _ eq_refl E)
    as (pre & post & cmd' & Hargv & Hgone & Hput).
  exists pre, post, cmd'. split; [exact Hargv|]. split; [exact Hgone|].
  apply Hput. reflexivity.
Defined.

(** ** The UUID, from the connection file name to the file on the host *)

Section UuidText.

Lemma lower_hex_digit c :
  has_char c "0123456789abcdef" = true ->
  Ascii.eqb c "-" = false /\
  exists d, hex_value c = Some d /\ (d < 16)%N /\ hex_digit d = c.
Proof.
  cbn [has_char]. rewrite !orb_true_iff, !Ascii.eqb_eq.
  intros H. repeat destruct H as [H|H]; try discriminate.
  all: subst c; split; [reflexivity|]; eexists; split; [reflexivity|];
    split; reflexivity.
Qed.

Lemma hex_fixed_S w n :
  hex_fixed (S w) n = hex_fixed w (n / 16)%N +:+ String (hex_digit (n mod 16)%N) "".
Proof. reflexivity. Qed.

(** Printing what was read gives the digits back. *)
Lemma hex_fixed_int16 h : forall acc w n,
  all_chars (Re.accepts hex) h = true ->
  int16 acc h = Some n ->
  hex_fixed (w + String.length h) n = hex_fixed w acc +:+ h.
Proof.
  induction h as [|c h IH]; intros acc w n Hh Hn.
  - cbn [int16] in Hn. injection Hn as <-. cbn [String.length].
    rewrite Nat.add_0_r, append_nil_r. reflexivity.
  - cbn [all_chars] in Hh. apply andb_true_iff in Hh as [Hc Hh].
    destruct (lower_hex_digit c Hc) as (_ & d & Hd & Hlt & Hback).
    cbn [int16] in Hn. rewrite Hd in Hn.
    cbn [String.length]. rewrite Nat.add_succ_r, <- Nat.add_succ_l.
    rewrite (IH _ (S w) n Hh Hn), hex_fixed_S.
    replace ((16 * acc + d) / 16)%N with acc.
    2:{ symmetry. rewrite N.mul_comm. rewrite N.div_add_l by discriminate.
        rewrite (N.div_small d 16 Hlt). apply N.add_0_r. }
    replace ((16 * acc + d) mod 16)%N with d.
    2:{ symmetry. rewrite N.add_comm, N.mul_comm, N.Div0.mod_add.
        apply N.mod_small. exact Hlt. }
    rewrite Hback, append_assoc. reflexivity.
Qed.

Lemma drop_hyphens_app a b : drop_hyphens (a +:+ b) = drop_hyphens a +:+ drop_hyphens b.
Proof.
  induction a as [|c a IH]; [reflexivity|].
  rewrite append_cons. cbn [drop_hyphens]. rewrite IH.
  destruct (Ascii.eqb c "-"); reflexivity.
Qed.

Lemma drop_hyphens_hex a : all_chars (Re.accepts hex) a = true -> drop_hyphens a = a.
Proof.
  induction a as [|c a IH]; [reflexivity|]. cbn [all_chars]. intros H.
  apply andb_true_iff in H as [Hc H].
  destruct (lower_hex_digit c Hc) as (Hn & _).
  cbn [drop_hyphens]. rewrite Hn, (IH H). reflexivity.
Qed.

Lemma all_chars_app P a b : all_chars P (a +:+ b) = all_chars P a && all_chars P b.
Proof.
  induction a as [|c a IH]; [reflexivity|].
  rewrite append_cons. cbn [all_chars]. rewrite IH, andb_assoc. reflexivity.
Qed.

Lemma run_of_length k n a : run_of k n a = true -> String.length a = n.
Proof.
  unfold run_of. intros H. apply andb_true_iff in H as [H _].
  apply Nat.eqb_eq. exact H.
Qed.

Lemma variant_is_hex v : Re.accepts (Re.Among "89ab") v = true -> Re.accepts hex v = true.
Proof.
  intros H. cbn [Re.accepts has_char] in H. rewrite !orb_true_iff, !Ascii.eqb_eq in H.
  repeat destruct H as [H|H]; try discriminate; subst v; reflexivity.
Qed.

(** The digits of a version-4 UUID text, without the hyphens. *)
Lemma uuid4_digits a b c v d e :
  uuid4_shape a b c v d e = true ->
  let h := a +:+ b +:+ String "4" c +:+ String v d +:+ e in
  drop_hyphens (uuid4_text a b c v d e) = h /\
  all_chars (Re.accepts hex) h = true /\ String.length h = 32%nat.
Proof.
  unfold uuid4_shape. rewrite !andb_true_iff.
  intros (((((Ha & Hb) & Hc) & Hv) & Hd) & He). cbv zeta.
  pose proof (run_of_chars _ _ _ Ha) as Ca. pose proof (run_of_chars _ _ _ Hb) as Cb.
  pose proof (run_of_chars _ _ _ Hc) as Cc. pose proof (run_of_chars _ _ _ Hd) as Cd.
  pose proof (run_of_chars _ _ _ He) as Ce. pose proof (variant_is_hex v Hv) as Cv.
  assert (C4 : all_chars (Re.accepts hex) (String "4" c) = true).
  { cbn [all_chars]. rewrite Cc. reflexivity. }
  assert (Cvd : all_chars (Re.accepts hex) (String v d) = true).
  { cbn [all_chars]. rewrite Cv, Cd. reflexivity. }
  split; [|split].
  - unfold uuid4_text. rewrite !drop_hyphens_app.
    change (drop_hyphens "-") with "".
    rewrite !append_nil_l.
    rewrite (drop_hyphens_hex a Ca), (drop_hyphens_hex b Cb), (drop_hyphens_hex _ C4),
      (drop_hyphens_hex _ Cvd), (drop_hyphens_hex e Ce). reflexivity.
  - rewrite !all_chars_app, Ca, Cb, C4, Cvd, Ce. reflexivity.
  - rewrite !length_append. cbn [String.length].
    rewrite (run_of_length _ _ _ Ha), (run_of_length _ _ _ Hb), (run_of_length _ _ _ Hc),
      (run_of_length _ _ _ Hd), (run_of_length _ _ _ He). reflexivity.
Qed.

(** Cutting 32 digits into the five groups of the printed form. *)
Lemma cut_groups a b c d e :
  String.length a = 8%nat -> String.length b = 4%nat -> String.length c = 4%nat ->
  String.length d = 4%nat -> String.length e = 12%nat ->
  let h := a +:+ b +:+ c +:+ d +:+ e in
  String.substring 0 8 h = a /\ String.substring 8 4 h = b /\
  String.substring 12 4 h = c /\ String.substring 16 4 h = d /\
  String.substring 20 12 h = e.
Proof.
  intros La Lb Lc Ld Le. cbv zeta.
  assert (Hpre : forall x r n, String.length x = n -> String.substring 0 n (x +:+ r) = x).
  { intros x r n <-. apply substring_prefix. }
  assert (Hskip : forall x r n k m, String.length x = n ->
            String.substring (n + k) m (x +:+ r) = String.substring k m r).
  { intros x r n k m <-. apply substring_skip. }
  assert (Hend : forall x n, String.length x = n -> String.substring 0 n x = x).
  { intros x n <-. apply substring_all. }
  repeat split.
  - apply Hpre, La.
  - rewrite (Hskip a _ 8 0 4 La)%nat. apply Hpre, Lb.
  - rewrite (Hskip a _ 8 4 4 La)%nat, (Hskip b _ 4 0 4 Lb)%nat. apply Hpre, Lc.
  - rewrite (Hskip a _ 8 8 4 La)%nat, (Hskip b _ 4 4 4 Lb)%nat,
      (Hskip c _ 4 0 4 Lc)%nat. apply Hpre, Ld.
  - rewrite (Hskip a _ 8 12 12 La)%nat, (Hskip b _ 4 8 12 Lb)%nat,
      (Hskip c _ 4 4 12 Lc)%nat, (Hskip d _ 4 0 12 Ld)%nat. apply Hend, Le.
Qed.

End UuidText.

(** X22.  The UUID in the name of the connection file reaches the remote
    host unchanged.  For a connection file named [kernel-<uuid>.json], with
    [<uuid>] a version-4 UUID in lowercase hyphenated form and no line break
    in the directory name, [get_uuid] returns a UUID that prints as the
    very same text, so that the file [start_kernel] creates on the host is
    [kernel-remote-<uuid>.json] in the runtime directory. *)
Theorem uuid_text_survives random dir a b c v d e u me :
  all_chars (Re.accepts Re.Dot) dir = true ->
  uuid4_shape a b c v d e = true ->
  get_uuid random (Some (dir +:+ "kernel-" +:+ uuid4_text a b c v d e +:+ ".json"))
  = Returned u ->
  str_uuid u = uuid4_text a b c v d e /\
  (uuid me = Some u ->
   host_file me =
   path_join (runtimedir me) ("kernel-remote-" +:+ uuid4_text a b c v d e +:+ ".json")).
Proof.
  intros Hdir Hshape Hget.
  assert (Htext : str_uuid u = uuid4_text a b c v d e).
  { destruct (pattern_finds_uuid dir a b c v d e Hdir Hshape) as [m Hm].
    unfold get_uuid in Hget. rewrite Hm in Hget. cbn [snd] in Hget.
    destruct (uuid4_digits a b c v d e Hshape) as (Hdrop & Hhex & Hlen).
    unfold UUID in Hget. rewrite Hdrop, Hlen in Hget. cbn [Nat.eqb] in Hget.
    destruct (int16 0 _) as [n|] eqn:En; try discriminate. injection Hget as ->.
    pose proof (hex_fixed_int16 _ 0%N 0%nat u Hhex En) as Hprint.
    rewrite Hlen in Hprint.
    assert (Hp : hex_fixed 32 u = a +:+ b +:+ String "4" c +:+ String v d +:+ e)
      by exact Hprint.
    clear Hprint.
    unfold uuid4_shape in Hshape. rewrite !andb_true_iff in Hshape.
    destruct Hshape as (((((Ha & Hb) & Hc) & Hv) & Hd) & He).
    destruct (cut_groups a b (String "4" c) (String v d) e) as (G1 & G2 & G3 & G4 & G5).
    { exact (run_of_length _ _ _ Ha). }
    { exact (run_of_length _ _ _ Hb). }
    { cbn [String.length]. rewrite (run_of_length _ _ _ Hc). reflexivity. }
    { cbn [String.length]. rewrite (run_of_length _ _ _ Hd). reflexivity. }
    { exact (run_of_length _ _ _ He). }
    cbv zeta in G1, G2, G3, G4, G5.
    unfold str_uuid. cbv zeta.
    rewrite Hp, G1, G2, G3, G4, G5. reflexivity. }
  split; [exact Htext|].
  intros Hu. unfold host_file. rewrite Hu. cbn [fmap option_fmap option_map default].
  rewrite Htext. reflexivity.
Qed.

Lemma uuid_text_survives_witness :
  str_uuid 0x0123abcd89ab4def8123456789abcdef%N = "0123abcd-89ab-4def-8123-456789abcdef" /\
  host_file (obj ready_to_start) =
  "~/.local/share/jupyter/runtime/kernel-remote-0123abcd-89ab-4def-8123-456789abcdef.json".
Proof.
  destruct (uuid_text_survives 0 "/run/user/1000/jupyter/"
              "0123abcd" "89ab" "def" "8"%char "123" "456789abcdef"
              0x0123abcd89ab4def8123456789abcdef%N (obj ready_to_start))
    as [Htext Hfile]; try (vm_compute; reflexivity).
  split; [exact Htext|]. rewrite (Hfile eq_refl). reflexivity.
Defined.

(** ** What a launch leaves behind *)

Section Launches.

Lemma spawn_sets_session cmd s p s1 :
  _spawn cmd s = (Returned p, s1) ->
  connection (obj s1) = Some p /\ host (obj s1) = host (obj s) /\
  exists r, tape (env s) = r :: tape (env s1).
Proof.
  unfold _spawn. rewrite bind_self.
  destruct (connection (obj s)) as [q|] eqn:E.
  - intros H. apply bind_returned in H as ([] & s2 & H & Hret).
    injection Hret as <- <-.
    unfold sendline, call in H. rewrite bind_run in H. unfold external in H.
    destruct (tape (env s)) as [|r rest]; [discriminate|].
    destruct (ans r); try discriminate. cbn [emit modify] in H. injection H as <-.
    cbn [obj on_env env tape set_trace set_alive set_tape]. rewrite E. eauto.
  - intros H. apply bind_returned in H as (q & s2 & H & Hret).
    rewrite bind_modify in Hret. injection Hret as <- <-.
    unfold pexpect_spawn in H. rewrite bind_run in H. unfold external in H.
    destruct (tape (env s)) as [|r rest]; [discriminate|].
    destruct (ans r); try discriminate.
    unfold fresh in H. rewrite !bind_run in H. cbn [gets modify emit ret] in H.
    injection H as <- <-. cbn. eauto.
Qed.

Lemma expect_took p pat s g s1 :
  expect p pat s = (Returned g, s1) ->
  obj s1 = obj s /\ exists r, tape (env s) = r :: tape (env s1) /\ ans r = Groups g.
Proof.
  unfold expect. rewrite bind_run. unfold external.
  destruct (tape (env s)) as [|r rest]; [discriminate|].
  destruct (ans r) eqn:E; try discriminate. cbn [ret]. intros [= <- <-].
  split; [reflexivity|]. exists r. split; [reflexivity|exact E].
Qed.

Lemma sendline_took p l s u s1 :
  sendline p l s = (Returned u, s1) ->
  obj s1 = obj s /\ exists r, tape (env s) = r :: tape (env s1).
Proof.
  unfold sendline, call. rewrite bind_run. unfold external.
  destruct (tape (env s)) as [|r rest]; [discriminate|].
  destruct (ans r); try discriminate. cbn [emit modify]. intros [= _ <-].
  split; [reflexivity|]. exists r. reflexivity.
Qed.

Lemma log_took lv msg s u s1 :
  log lv msg s = (Returned u, s1) -> obj s1 = obj s /\ tape (env s1) = tape (env s).
Proof. cbn [log emit modify]. intros [= _ <-]. split; reflexivity. Qed.

Lemma first_group_returned g s node s1 :
  first_group g s = (Returned node, s1) -> s1 = s /\ exists rest, g = node :: rest.
Proof.
  destruct g as [|x rest]; [discriminate|]. cbn [first_group ret].
  intros [= <- <-]. eauto.
Qed.

(** The end of the three scheduler launches: the node is read from the
    reply to the last [expect] and stored as the host. *)
Lemma node_becomes_host p pat s s' :
  (groups <- expect p pat ;;
   node <- first_group groups ;;
   log INFO ("Established session on node: " +:+ node +:+ ".") ;;
   modify (on_obj (set_host (Some node)))) s = (Returned tt, s') ->
  connection (obj s') = connection (obj s) /\
  exists r groups node,
    tape (env s) = r :: tape (env s') /\ ans r = Groups (node :: groups) /\
    host (obj s') = Some node.
Proof.
  intros H.
  apply bind_returned in H as (g & s1 & H1 & H).
  apply expect_took in H1 as (O1 & r & T1 & A1).
  apply bind_returned in H as (node & s2 & H2 & H).
  apply first_group_returned in H2 as (-> & groups & ->).
  apply bind_returned in H as ([] & s3 & H3 & H).
  apply log_took in H3 as (O3 & T3).
  cbn [modify] in H. injection H as <-.
  cbn [obj on_obj env connection host set_host]. split; [congruence|].
  exists r, groups, node. rewrite T3. auto.
Qed.

End Launches.

(** X23.  A launch through a scheduler that returns has stored the compute
    node as the object's host: the name is the first group of the match
    the last [expect] of the launch reported, and it replaces whatever host
    was given, so that the tunnels go to the node.  The session is in place
    by then. *)
Theorem scheduler_launch_stores_node launch s s' :
  In launch [launch_pbs; launch_sge; launch_slurm] ->
  launch s = (Returned tt, s') ->
  exists before r groups node,
    tape (env s) = before ++ r :: tape (env s') /\
    ans r = Groups (node :: groups) /\
    host (obj s') = Some node /\
    connection (obj s') <> None.
Proof.
  intros Hin H. cbn [In] in Hin.
  destruct Hin as [<-|[<-|[<-|[]]]].
  - unfold launch_pbs in H.
    apply bind_returned in H as ([] & s1 & H1 & H). apply log_took in H1 as (O1 & T1).
    rewrite bind_self in H.
    apply bind_returned in H as ([] & s2 & H2 & H). apply log_took in H2 as (O2 & T2).
    apply bind_returned in H as (p & s3 & H3 & H).
    apply spawn_sets_session in H3 as (C3 & _ & r3 & T3).
    apply bind_returned in H as (g & s4 & H4 & H).
    apply expect_took in H4 as (O4 & r4 & T4 & _).
    apply bind_returned in H as ([] & s5 & H5 & H).
    apply sendline_took in H5 as (O5 & r5 & T5).
    apply node_becomes_host in H as (C & r & groups & node & T & A & Hhost).
    exists [r3; r4; r5], r, groups, node. cbn [app].
    split; [congruence|]. split; [exact A|]. split; [exact Hhost|]. congruence.
  - unfold launch_sge in H.
    apply bind_returned in H as ([] & s1 & H1 & H). apply log_took in H1 as (O1 & T1).
    rewrite bind_self in H.
    apply bind_returned in H as ([] & s2 & H2 & H). apply log_took in H2 as (O2 & T2).
    apply bind_returned in H as (p & s3 & H3 & H).
    apply spawn_sets_session in H3 as (C3 & _ & r3 & T3).
    apply node_becomes_host in H as (C & r & groups & node & T & A & Hhost).
    exists [r3], r, groups, node. cbn [app].
    split; [congruence|]. split; [exact A|]. split; [exact Hhost|]. congruence.
  - unfold launch_slurm in H.
    apply bind_returned in H as ([] & s1 & H1 & H). apply log_took in H1 as (O1 & T1).
    rewrite bind_self in H.
    apply bind_returned in H as ([] & s2 & H2 & H). apply log_took in H2 as (O2 & T2).
    apply bind_returned in H as (p & s3 & H3 & H).
    apply spawn_sets_session in H3 as (C3 & _ & r3 & T3).
    apply node_becomes_host in H as (C & r & groups & node & T & A & Hhost).
    exists [r3], r, groups, node. cbn [app].
    split; [congruence|]. split; [exact A|]. split; [exact Hhost|]. congruence.
Qed.

Definition login_node : state :=
  mkState
    (mkKernel None None false "pbs" 4 (Some "16G") None "smp" "ipython kernel"
       (Some "login.example.org") None None None true ∅ None None "/home/u" None
       "~/.local/share/jupyter/runtime" five_ports)
    (script [ok; mkReply [] (Groups ["4711.head"]); ok; mkReply [] (Groups ["node042"])]).

Lemma scheduler_launch_stores_node_witness :
  host (obj (snd (launch_pbs login_node))) = Some "node042".
Proof.
  assert (H : launch_pbs login_node = (Returned tt, snd (launch_pbs login_node))).
  { vm_compute. reflexivity. }
  destruct (scheduler_launch_stores_node launch_pbs login_node _
              ltac:(left; reflexivity) H)
    as (before & r & groups & node & Htape & Hans & Hhost & _).
  rewrite Hhost. f_equal.
  assert (Hlast : exists x, tape (env (snd (launch_pbs login_node))) = x /\ x = [])
    by (eexists; split; [reflexivity | vm_compute; reflexivity]).
  destruct Hlast as (x & Hx & ->). rewrite Hx in Htape.
  change (tape (env login_node))
    with [ok; mkReply [] (Groups ["4711.head"]); ok; mkReply [] (Groups ["node042"])]
    in Htape.
  destruct before as [|b1 [|b2 [|b3 [|b4 before]]]]; cbn [app] in Htape;
    try discriminate; try (injection Htape as _ _ _ _ Hnil; destruct before; discriminate).
  injection Htape as _ _ _ <-. injection Hans as <- _. reflexivity.
Defined.
(** ** Rebuilding a tunnel (C3) *)

Section Asking.

Lemma asking_fails_steps {A} (m : M A) : steps (adding not_asked) m -> asking_fails m.
Proof.
  intros H s. destruct (H s) as (d & Hd & Fd). exists d. split; [exact Hd|]. left. exact Fd.
Qed.

Lemma asking_fails_bind {A B} (m : M A) (k : A -> M B) :
  asking_fails m -> (forall a, asking_fails (k a)) -> asking_fails (bind m k).
Proof.
  intros Hm Hk s. rewrite bind_run. destruct (Hm s) as (d1 & H1 & C1).
  destruct (m s) as [[a|e|] s1]; cbn [fst snd] in *.
  - destruct C1 as [F1|C1]; [|discriminate C1].
    destruct (Hk a s1) as (d2 & H2 & C2). exists (d1 ++ d2). split.
    + exact (recorded_trans _ _ _ _ _ H1 H2).
    + destruct C2 as [F2|C2]; [left; apply Forall_app; auto | right; exact C2].
  - exists d1. split; [exact H1|].
    destruct C1 as [F1|C1]; [left; exact F1 | right; injection C1 as ->; reflexivity].
  - exists d1. split; [exact H1|].
    destruct C1 as [F1|C1]; [left; exact F1 | discriminate C1].
Qed.

(** The one place where the helper is run. *)
Lemma asking_fails_answer prompt c (next : M unit) :
  asking_fails (pw <- get_password prompt ;; sendline_bytes c pw ;; next).
Proof.
  intros s.
  destruct (get_password_cases prompt s) as [(pw & s1 & Hrun & Hrec & _)|[Hno Hrec]].
  - rewrite bind_run, Hrun. cbn [bind sendline_bytes raise fst snd].
    exists [Asked prompt]. split; [exact Hrec|]. right. reflexivity.
  - rewrite (bind_not_returned _ _ _ Hno). exists []. split; [exact Hrec|].
    left. apply Forall_nil. exact I.
Qed.

Lemma asking_fails_check_password_loop fuel c : asking_fails (check_password_loop fuel c).
Proof.
  induction fuel as [|fuel IH]; [apply asking_fails_steps, steps_stuck|].
  cbn [check_password_loop]. apply asking_fails_bind.
  { apply asking_fails_steps, steps_try.
    - apply steps_bind; [apply steps_read_nonblocking|]. intros. apply steps_ret.
    - intros e h. destruct e; intros [= <-]. apply steps_ret. }
  intros [text|]; [|apply asking_fails_steps, steps_ret].
  destruct (Re.search passphrase_pattern text) as [m|]; [apply asking_fails_answer|].
  destruct (Re.search password_pattern text) as [m|]; [apply asking_fails_answer|].
  apply asking_fails_steps, steps_ret.
Qed.

Lemma asking_fails_check_password c : asking_fails (check_password c).
Proof. intros s. apply asking_fails_check_password_loop. Qed.

Ltac unasked := intros; intro; intros; discriminate.

Ltac quiet :=
  apply asking_fails_steps;
  first [ apply steps_ret | apply steps_raise | apply steps_gets | apply steps_lift
        | apply adding_spawn; unasked
        | apply steps_tunnel_cmd; unasked
        | apply steps_port_values
        | apply steps_sendline; unasked
        | apply steps_log; unasked
        | apply steps_isalive; unasked
        | apply adding_modify; reflexivity ].

Lemma asking_fails_tunnel_connection : asking_fails tunnel_connection.
Proof.
  unfold tunnel_connection.
  repeat first
    [ apply asking_fails_check_password
    | quiet
    | apply asking_fails_bind; [|intros ?] ].
Qed.

Lemma asking_fails_check_tunnels : asking_fails check_tunnels.
Proof.
  unfold check_tunnels.
  apply asking_fails_bind; [quiet|]. intros me.
  destruct (tunnels me !! "tunnel") as [t|]; [|quiet].
  apply asking_fails_bind; [quiet|]. intros [|]; [quiet|].
  apply asking_fails_bind; [quiet|]. intros _. apply asking_fails_tunnel_connection.
Qed.

(** A check that does not return leaves the object as it was. *)
Lemma check_tunnels_failed s :
  fst (check_tunnels s) <> Returned tt -> obj (snd (check_tunnels s)) = obj s.
Proof.
  unfold check_tunnels. rewrite bind_self.
  destruct (tunnels (obj s) !! "tunnel") as [t|]; [|reflexivity].
  rewrite bind_run.
  pose proof (steps_isalive (staying t) t (fun _ => eq_refl) s) as K.
  destruct (isalive t s) as [[[|]|e|] s1]; cbn [snd] in K; destruct K as (Ho & _).
  - intros _. exact Ho.
  - unfold log, emit. rewrite bind_modify. intros H.
    match goal with |- context [tunnel_connection ?s2'] => set (s2 := s2') in * end.
    destruct (tunnel_connection_run s2)
      as (new & _ & [(_ & Ho2 & _)|(tp & cmd & _ & _ & _ & Ho2 & _)]).
    + rewrite Ho2. exact Ho.
    + rewrite (Ho2 H). exact Ho.
  - intros _. exact Ho.
  - intros _. exact Ho.
Qed.

End Asking.


Section Rebuild.

Lemma check_tunnels_alive s t r rest :
  tunnels (obj s) !! "tunnel" = Some t ->
  tape (env s) = r :: rest ->
  t ∈ alive (env s) ∖ list_to_set (exits r) ->
  obj (snd (check_tunnels s)) = obj s /\
  next_pid (env (snd (check_tunnels s))) = next_pid (env s) /\
  tape (env (snd (check_tunnels s))) = rest /\
  alive (env (snd (check_tunnels s))) = alive (env s) ∖ list_to_set (exits r) /\
  (ans r = Done -> check_tunnels s = (Returned tt, polled t true r rest s)).
Proof.
  intros Hl Ht Ha.
  rewrite (check_tunnels_run _ _ _ _ Hl Ht).
  rewrite (bool_decide_eq_true_2 _ Ha).
  destruct (ans r); cbn; repeat split; congruence.
Qed.

Lemma port_values_run d names s :
  (forall n, In n names -> is_Some (d !! n)) ->
  port_values d names s = (Returned (port_texts d names), s).
Proof.
  induction names as [|n names IH]; intros H; [reflexivity|].
  cbn [port_values port_texts map].
  destruct (H n (or_introl eq_refl)) as [v Hv]. rewrite Hv.
  rewrite bind_run, IH by (intros n' Hn'; apply H; right; exact Hn').
  reflexivity.
Qed.

(** A read that finds nothing to answer ends the password check. *)
Lemma check_password_nothing_asked c s r rest :
  tape (env s) = r :: rest ->
  nothing_asked (ans r) ->
  check_password c s = (Returned tt, served r rest s).
Proof.
  intros Htape Hq.
  unfold check_password. rewrite Htape. cbn [List.length check_password_loop].
  rewrite bind_run. unfold try_except, read_nonblocking.
  rewrite (bind_run (bind external _)). rewrite (bind_run external).
  rewrite (external_served s r rest Htape).
  destruct Hq as [->|(text & -> & Hno)]; [reflexivity|].
  cbn [ret]. unfold prompts in Hno. apply orb_false_elim in Hno as [H1 H2].
  apply bool_decide_eq_false in H1, H2.
  destruct (Re.search passphrase_pattern text) as [m|]; [exfalso; apply H1; discriminate|].
  destruct (Re.search password_pattern text) as [m|]; [exfalso; apply H2; discriminate|].
  reflexivity.
Qed.

(** A spawn that goes through. *)
Lemma pexpect_spawn_done c s r rest :
  tape (env s) = r :: rest -> ans r = Done ->
  exists s', pexpect_spawn c s = (Returned (next_pid (env s)), s') /\
    obj s' = obj s /\ next_pid (env s') = S (next_pid (env s)) /\
    tape (env s') = rest /\ recorded s s' [Spawned (next_pid (env s)) c] /\
    askpass (env s') = askpass (env s) /\
    alive (env s') = {[next_pid (env s)]} ∪ (alive (env s) ∖ list_to_set (exits r)).
Proof.
  intros Ht Hr. unfold pexpect_spawn. rewrite bind_run, (external_served _ _ _ Ht), Hr.
  eexists. split; [reflexivity|]. repeat split; reflexivity.
Qed.

(** A line that is sent. *)
Lemma sendline_done p l s r rest :
  tape (env s) = r :: rest -> ans r = Done ->
  exists s', sendline p l s = (Returned tt, s') /\
    obj s' = obj s /\ next_pid (env s') = next_pid (env s) /\
    tape (env s') = rest /\ recorded s s' [SentLine p l] /\
    askpass (env s') = askpass (env s) /\
    alive (env s') = alive (env s) ∖ list_to_set (exits r).
Proof.
  intros Ht Hr. unfold sendline, call. rewrite bind_run, (external_served _ _ _ Ht), Hr.
  eexists. split; [reflexivity|]. repeat split; reflexivity.
Qed.

(** A rebuild up to the first read from the new tunnel. *)
Lemma rebuild_reaches_read s t r rb re rt rest template cmd :
  tunnels (obj s) !! "tunnel" = Some t ->
  tape (env s) = r :: rb :: re :: rt :: rest ->
  ans r = Done ->
  t ∉ alive (env s) ∖ list_to_set (exits r) ->
  ans rb = Done -> ans re = Done -> ans rt = Done ->
  (exists pre, tunnel_hosts_cmd (obj s) = Returned pre) ->
  tunnel_template (obj s) = Returned template ->
  format template (keywords (connection_info (obj s))) = Returned cmd ->
  let bare := next_pid (env s) in
  let tunnel := S bare in
  exists s5,
    check_tunnels s =
    (check_password tunnel ;;
     ports <- port_values (connection_info (obj s)) PORT_NAMES ;;
     log INFO ("Setting up tunnels on ports: " +:+ join ", " ports +:+ ".") ;;
     log DEBUG ("Tunnel command: " +:+ cmd +:+ ".") ;;
     modify (on_obj (fun k => set_tunnels (<["tunnel" := tunnel]> (tunnels k)) k)))%py s5 /\
    obj s5 = obj s /\
    tape (env s5) = rest /\
    askpass (env s5) = askpass (env s) /\
    recorded s s5
      [Polled t false; Logged DEBUG "Restarting ssh tunnels.";
       Spawned bare (bare_of (obj s)); SentLine bare "exit";
       Logged DEBUG ("Tunnel command: " +:+ template);
       Spawned tunnel cmd] /\
    tunnel ∈ alive (env s5).
Proof.
  intros Hl Ht Hr Hdead Hrb Hre Hrt [pre Hpre] Htpl Hfmt. cbv zeta.
  rewrite (check_tunnels_run _ _ _ _ Hl Ht), Hr, (bool_decide_eq_false_2 _ Hdead).
  unfold log, emit. rewrite bind_modify.
  set (s1 := on_env _ (polled t false r (rb :: re :: rt :: rest) s)).
  assert (O1 : obj s1 = obj s) by reflexivity.
  assert (N1 : next_pid (env s1) = next_pid (env s)) by reflexivity.
  assert (T1 : tape (env s1) = rb :: re :: rt :: rest) by reflexivity.
  assert (P1 : askpass (env s1) = askpass (env s)) by reflexivity.
  assert (R1 : recorded s s1 [Polled t false; Logged DEBUG "Restarting ssh tunnels."]).
  { unfold recorded, s1, polled. cbn [env on_env trace set_trace served set_alive set_tape].
    rewrite <- app_assoc. reflexivity. }
  clearbody s1.
  unfold tunnel_connection. rewrite bind_self, O1, bind_lift, Hpre.
  assert (Hbare : strip (default EmptyString pre +:+ " ssh -o StrictHostKeyChecking=no " +:+
                         str_opt (host (obj s))) = bare_of (obj s)).
  { unfold bare_of, bare_command. rewrite Hpre. reflexivity. }
  rewrite Hbare.
  (* the bare connection *)
  destruct (pexpect_spawn_done (bare_of (obj s)) s1 _ _ T1 Hrb)
    as (s2 & E2 & O2 & N2 & T2 & R2 & P2 & _).
  rewrite bind_run, E2, N1 in *.
  (* [exit] *)
  destruct (sendline_done (next_pid (env s)) "exit" s2 _ _ T2 Hre)
    as (s3 & E3 & O3 & N3 & T3 & R3 & P3 & _).
  rewrite bind_run, E3.
  (* the command *)
  rewrite bind_run, tunnel_cmd_run, O3, O2, O1, Htpl, bind_lift, Hfmt.
  match goal with |- context [bind (pexpect_spawn cmd) _ ?s4'] => set (s4 := s4') end.
  assert (O4 : obj s4 = obj s) by (unfold s4; cbn [obj on_env]; congruence).
  assert (N4 : next_pid (env s4) = S (next_pid (env s))) by (unfold s4; cbn; congruence).
  assert (T4 : tape (env s4) = rt :: rest) by exact T3.
  assert (P4 : askpass (env s4) = askpass (env s)) by (unfold s4; cbn; congruence).
  assert (R4 : recorded s3 s4 [Logged DEBUG ("Tunnel command: " +:+ template)]) by reflexivity.
  clearbody s4.
  (* the tunnel *)
  destruct (pexpect_spawn_done cmd s4 _ _ T4 Hrt) as (s5 & E5 & O5 & N5 & T5 & R5 & P5 & A5).
  rewrite bind_run, E5, N4 in *.
  exists s5. split; [reflexivity|]. split; [congruence|]. split; [exact T5|].
  split; [congruence|]. split.
  - unfold recorded in *. rewrite R5, R4, R3, R2, R1, <- !app_assoc. reflexivity.
  - rewrite A5. apply elem_of_union. left. apply elem_of_singleton. reflexivity.
Qed.

End Rebuild.

(** C3.  A tunnel for which a password has to be given is never rebuilt.
    However a check goes, either the askpass helper was not run at all, or
    the check has ended with the [TypeError] that [sendline] raises on the
    [bytes] the helper gave, and the launcher object is as it was: the
    tunnel it stores is still the one found dead.  And so it goes when the
    poll finds the tunnel dead, both spawns and the [exit] sent to the bare
    connection go through, and the first read from the new tunnel holds a
    prompt that the helper answers: the check raises that [TypeError] with
    the new tunnel started, the question put, and nothing stored. *)
Theorem rebuild_stops_at_password s :
  (exists d, recorded s (snd (check_tunnels s)) d /\
     (Forall not_asked d \/
      (fst (check_tunnels s) = Raised bytes_refused /\
       obj (snd (check_tunnels s)) = obj s))) /\
  (forall t r rb re rt rp ra rest text secret template cmd,
     tunnels (obj s) !! "tunnel" = Some t ->
     tape (env s) = r :: rb :: re :: rt :: rp :: ra :: rest ->
     ans r = Done ->
     t ∉ alive (env s) ∖ list_to_set (exits r) ->
     ans rb = Done -> ans re = Done -> ans rt = Done ->
     ans rp = Text text -> prompts text = true ->
     askpass (env s) <> None -> ans ra = Text secret ->
     (exists pre, tunnel_hosts_cmd (obj s) = Returned pre) ->
     tunnel_template (obj s) = Returned template ->
     format template (keywords (connection_info (obj s))) = Returned cmd ->
     let bare := next_pid (env s) in
     let tunnel := S bare in
     fst (check_tunnels s) = Raised bytes_refused /\
     obj (snd (check_tunnels s)) = obj s /\
     tape (env (snd (check_tunnels s))) = rest /\
     exists prompt,
       classified text = Some prompt /\
       recorded s (snd (check_tunnels s))
         [Polled t false; Logged DEBUG "Restarting ssh tunnels.";
          Spawned bare (bare_of (obj s)); SentLine bare "exit";
          Logged DEBUG ("Tunnel command: " +:+ template);
          Spawned tunnel cmd; Asked prompt]).
Proof.
  split.
  - destruct (asking_fails_check_tunnels s) as (d & Hd & [F|E]).
    + exists d. auto.
    + exists d. split; [exact Hd|]. right. split; [exact E|].
      apply check_tunnels_failed. rewrite E. discriminate.
  - intros t r rb re rt rp ra rest text secret template cmd
      Hl Ht Hr Hdead Hrb Hre Hrt Hrp Hprompt Hask Hra Hpre Htpl Hfmt. cbv zeta.
    destruct (rebuild_reaches_read s t r rb re rt (rp :: ra :: rest) template cmd
                Hl Ht Hr Hdead Hrb Hre Hrt Hpre Htpl Hfmt)
      as (s5 & Hrun & O5 & T5 & P5 & R5 & _).
    rewrite Hrun, bind_run.
    assert (Hask5 : askpass (env s5) <> None) by (rewrite P5; exact Hask).
    destruct (check_password_prompted (S (next_pid (env s))) s5 rp ra rest text secret
                Hask5 T5 Hrp Hra Hprompt)
      as (prompt & s6 & Hc & Hcp & O6 & R6 & T6 & _).
    rewrite Hcp. cbn [fst snd]. split; [reflexivity|]. split; [congruence|].
    split; [exact T6|]. exists prompt. split; [exact Hc|].
    unfold recorded in *. rewrite R6, R5, <- app_assoc. reflexivity.
Qed.

(** The tunnel (process 2) has exited; the new tunnel asks for a password,
    and the helper gives it. *)
Definition dead_tunnel : state :=
  launched [mkReply [2%nat] Done; ok; ok; ok;
            mkReply [] (Text "user@node7's password: "); mkReply [] (Text "hunter2");
            ok; mkReply [] (Throws TIMEOUT)].

Example dead_tunnel_trace :
  trace (env (snd (check_tunnels dead_tunnel))) =
  [Polled 2%nat false; Logged DEBUG "Restarting ssh tunnels.";
   Spawned 3%nat "ssh -o StrictHostKeyChecking=no  -p 2222 gate ssh -o StrictHostKeyChecking=no node7";
   SentLine 3%nat "exit";
   Logged DEBUG "Tunnel command: ssh -o StrictHostKeyChecking=no -J gate:2222 -S none -L 127.0.0.1:{hb_port}:127.0.0.1:{hb_port} -L 127.0.0.1:{shell_port}:127.0.0.1:{shell_port} -L 127.0.0.1:{iopub_port}:127.0.0.1:{iopub_port} -L 127.0.0.1:{stdin_port}:127.0.0.1:{stdin_port} -L 127.0.0.1:{control_port}:127.0.0.1:{control_port} node7 sleep 600";
   Spawned 4%nat "ssh -o StrictHostKeyChecking=no -J gate:2222 -S none -L 127.0.0.1:5001:127.0.0.1:5001 -L 127.0.0.1:5002:127.0.0.1:5002 -L 127.0.0.1:5003:127.0.0.1:5003 -L 127.0.0.1:5004:127.0.0.1:5004 -L 127.0.0.1:5005:127.0.0.1:5005 node7 sleep 600";
   Asked "user@node7's password:"].
Proof. vm_compute. reflexivity. Qed.

Lemma rebuild_stops_at_password_witness :
  fst (check_tunnels dead_tunnel) = Raised (TypeError "can't concat str to bytes") /\
  tunnels (obj (snd (check_tunnels dead_tunnel))) !! "tunnel" = Some 2%nat /\
  (2%nat ∉ alive (env (snd (check_tunnels dead_tunnel)))) /\
  (4%nat ∈ alive (env (snd (check_tunnels dead_tunnel)))) /\
  tape (env (snd (check_tunnels dead_tunnel))) = [ok; mkReply [] (Throws TIMEOUT)].
Proof.
  destruct (proj2 (rebuild_stops_at_password dead_tunnel) 2%nat
              (mkReply [2%nat] Done) ok ok ok
              (mkReply [] (Text "user@node7's password: ")) (mkReply [] (Text "hunter2"))
              [ok; mkReply [] (Throws TIMEOUT)] "user@node7's password: " "hunter2"
              "ssh -o StrictHostKeyChecking=no -J gate:2222 -S none -L 127.0.0.1:{hb_port}:127.0.0.1:{hb_port} -L 127.0.0.1:{shell_port}:127.0.0.1:{shell_port} -L 127.0.0.1:{iopub_port}:127.0.0.1:{iopub_port} -L 127.0.0.1:{stdin_port}:127.0.0.1:{stdin_port} -L 127.0.0.1:{control_port}:127.0.0.1:{control_port} node7 sleep 600"
              "ssh -o StrictHostKeyChecking=no -J gate:2222 -S none -L 127.0.0.1:5001:127.0.0.1:5001 -L 127.0.0.1:5002:127.0.0.1:5002 -L 127.0.0.1:5003:127.0.0.1:5003 -L 127.0.0.1:5004:127.0.0.1:5004 -L 127.0.0.1:5005:127.0.0.1:5005 node7 sleep 600")
    as (E & Ho & Ht & _).
  - reflexivity.
  - reflexivity.
  - reflexivity.
  - apply (bool_decide_eq_false_1 _). vm_compute. reflexivity.
  - reflexivity.
  - reflexivity.
  - reflexivity.
  - reflexivity.
  - vm_compute. reflexivity.
  - discriminate.
  - reflexivity.
  - eexists. vm_compute. reflexivity.
  - vm_compute. reflexivity.
  - vm_compute. reflexivity.
  - split; [exact E|]. split; [rewrite Ho; reflexivity|]. split; [|split].
    + apply (bool_decide_eq_false_1 _). vm_compute. reflexivity.
    + apply (bool_decide_eq_true_1 _). vm_compute. reflexivity.
    + exact Ht.
Defined.

(** ** A tunnel that is alive, a tunnel that needs no password *)

(** X24.  A tunnel found alive is left alone.  The check only takes the
    reply to its poll and records the poll: the launcher object, the stored
    tunnel included, and the process counter are as before, so no process
    was started; and checking again, with the tunnel still alive, has the
    same effect. *)
Theorem live_tunnel_is_left_alone s t r rest :
  tunnels (obj s) !! "tunnel" = Some t ->
  tape (env s) = r :: rest ->
  t ∈ alive (env s) ∖ list_to_set (exits r) ->
  obj (snd (check_tunnels s)) = obj s /\
  next_pid (env (snd (check_tunnels s))) = next_pid (env s) /\
  (ans r = Done -> check_tunnels s = (Returned tt, polled t true r rest s)) /\
  (forall r2 rest2, rest = r2 :: rest2 ->
     t ∈ alive (env (snd (check_tunnels s))) ∖ list_to_set (exits r2) ->
     obj (snd ((check_tunnels ;; check_tunnels)%py s)) = obj s /\
     next_pid (env (snd ((check_tunnels ;; check_tunnels)%py s))) = next_pid (env s)).
Proof.
  intros Hl Ht Ha.
  destruct (check_tunnels_alive _ _ _ _ Hl Ht Ha) as (Ho & Hn & Htape & Hal & Hdone).
  split; [exact Ho|]. split; [exact Hn|]. split; [exact Hdone|].
  intros r2 rest2 -> Ha2. rewrite bind_run.
  destruct (check_tunnels s) as [[[]|e|] s1] eqn:E; cbn [snd] in *; auto.
  assert (Hl1 : tunnels (obj s1) !! "tunnel" = Some t) by (rewrite Ho; exact Hl).
  destruct (check_tunnels_alive _ _ _ _ Hl1 Htape Ha2) as (Ho' & Hn' & _). split; congruence.
Qed.

Lemma live_tunnel_is_left_alone_witness :
  let s := launched [ok; ok] in
  check_tunnels s = (Returned tt, polled 2%nat true ok [ok] s) /\
  obj (snd ((check_tunnels ;; check_tunnels)%py s)) = obj s /\
  next_pid (env (snd ((check_tunnels ;; check_tunnels)%py s))) = 3%nat.
Proof.
  cbv zeta.
  assert (Hup : 2%nat ∈ alive (env (launched [ok; ok])) ∖ list_to_set (exits ok)).
  { apply (bool_decide_eq_true_1 _). vm_compute. reflexivity. }
  destruct (live_tunnel_is_left_alone (launched [ok; ok]) 2%nat ok [ok] eq_refl eq_refl Hup)
    as (_ & _ & Hdone & Hagain).
  split; [exact (Hdone eq_refl)|].
  apply (Hagain ok [] eq_refl).
  apply (bool_decide_eq_true_1 _). vm_compute. reflexivity.
Defined.

(** X25.  A tunnel found dead is rebuilt when no password is asked for.
    If the poll finds the tunnel dead, both spawns and the [exit] sent to
    the bare connection go through, the first read from the new tunnel
    times out or holds no prompt, and the tunnel command can be built and
    filled in, then the check returns: it has started the bare connection
    and then the tunnel, in this order and nothing else, the new tunnel is
    what the object stores, and it is alive unless the environment reported
    its exit with that read. *)
Theorem dead_tunnel_is_rebuilt s t r rb re rt rp rest template cmd :
  tunnels (obj s) !! "tunnel" = Some t ->
  tape (env s) = r :: rb :: re :: rt :: rp :: rest ->
  ans r = Done ->
  t ∉ alive (env s) ∖ list_to_set (exits r) ->
  ans rb = Done -> ans re = Done -> ans rt = Done ->
  nothing_asked (ans rp) ->
  (exists pre, tunnel_hosts_cmd (obj s) = Returned pre) ->
  tunnel_template (obj s) = Returned template ->
  format template (keywords (connection_info (obj s))) = Returned cmd ->
  (forall port, In port PORT_NAMES -> is_Some (connection_info (obj s) !! port)) ->
  let bare := next_pid (env s) in
  let tunnel := S bare in
  exists s',
    check_tunnels s = (Returned tt, s') /\
    obj s' = set_tunnels (<["tunnel" := tunnel]> (tunnels (obj s))) (obj s) /\
    tape (env s') = rest /\
    recorded s s'
      [Polled t false; Logged DEBUG "Restarting ssh tunnels.";
       Spawned bare (bare_of (obj s)); SentLine bare "exit";
       Logged DEBUG ("Tunnel command: " +:+ template);
       Spawned tunnel cmd;
       Logged INFO ("Setting up tunnels on ports: " +:+
                    join ", " (port_texts (connection_info (obj s)) PORT_NAMES) +:+ ".");
       Logged DEBUG ("Tunnel command: " +:+ cmd +:+ ".")] /\
    (~ In tunnel (exits rp) -> tunnel ∈ alive (env s')).
Proof.
  intros Hl Ht Hr Hdead Hrb Hre Hrt Hrp Hpre Htpl Hfmt Hports. cbv zeta.
  destruct (rebuild_reaches_read s t r rb re rt (rp :: rest) template cmd
              Hl Ht Hr Hdead Hrb Hre Hrt Hpre Htpl Hfmt)
    as (s5 & Hrun & O5 & T5 & _ & R5 & A5).
  rewrite Hrun, bind_run, (check_password_nothing_asked _ _ _ _ T5 Hrp).
  rewrite bind_run, (port_values_run _ _ _ Hports).
  unfold log, emit. rewrite !bind_modify. cbn [modify].
  eexists. split; [reflexivity|]. split; [|split; [|split]].
  - cbn [obj on_obj on_env served]. rewrite O5. reflexivity.
  - reflexivity.
  - unfold recorded in *. cbn [env on_obj on_env trace set_trace served set_alive set_tape].
    rewrite R5, <- !app_assoc. reflexivity.
  - intros Hin. cbn [env on_obj on_env alive set_trace served set_alive set_tape].
    apply elem_of_difference. split; [exact A5|].
    rewrite elem_of_list_to_set, list_elem_of_In. exact Hin.
Qed.

(** The tunnel (process 2) has exited; the new one asks for nothing. *)
Definition dead_tunnel_with_key : state :=
  launched [mkReply [2%nat] Done; ok; ok; ok; mkReply [] (Throws TIMEOUT)].

Lemma dead_tunnel_is_rebuilt_witness :
  exists s',
    check_tunnels dead_tunnel_with_key = (Returned tt, s') /\
    tunnels (obj s') !! "tunnel" = Some 4%nat /\
    (4%nat ∈ alive (env s')).
Proof.
  edestruct (dead_tunnel_is_rebuilt dead_tunnel_with_key 2%nat
               (mkReply [2%nat] Done) ok ok ok (mkReply [] (Throws TIMEOUT)) [])
    as (s' & Hrun & Hobj & _ & _ & Halive).
  - reflexivity.
  - reflexivity.
  - reflexivity.
  - apply (bool_decide_eq_false_1 _). vm_compute. reflexivity.
  - reflexivity.
  - reflexivity.
  - reflexivity.
  - left. reflexivity.
  - eexists. vm_compute. reflexivity.
  - vm_compute. reflexivity.
  - vm_compute. reflexivity.
  - intros port Hin. cbn in Hin.
    repeat destruct Hin as [<-|Hin]; try contradiction; eexists; vm_compute; reflexivity.
  - exists s'. split; [exact Hrun|]. split.
    + rewrite Hobj. cbn [tunnels set_tunnels]. apply lookup_insert_eq.
    + apply Halive. cbn. tauto.
Defined.
